(** * Deterministic level builder ([buildLevel]): a shallow embedding

    The builder turns object detections into a playable scene: candidate
    extraction, ground synthesis, de-duplication, reachability repair,
    entity placement and scene assembly.  The platform factory
    ([createPlatforms]) turns the platform objects of a scene into the
    zones and tiles of the game world.

    Modelling conventions.
    - A JavaScript [number] is modelled as an exact rational ([Q]) in the
      statements about all inputs; the rounding of binary64 operations is
      outside that model.  Where such a statement names a number that the
      program computes, it does so through the code's own expression (for
      instance [y - ENTITY_OFFSET_Y]), not through the decimal value of
      that expression.  Computed numbers are compared with [Qeq] ([==]);
      Leibniz equality is used only where a value is passed on unchanged
      or is the code's expression itself.
    - What the builder returns for a given input, digit by digit, is
      computed in module [Double], which repeats the builder over IEEE 754
      binary64 numbers.
    - Objects that the source compares with [===] (the [bounds] records of
      platform candidates) carry their identity: a [Located] value is a
      pair of an allocation name ([Ref]) and the record stored there.
    - [Array.prototype.sort] is stable; it is modelled by a stable
      insertion sort driven by the same comparator.
    - Reading [.bounds] of [undefined] throws; [buildLevel] therefore
      returns an [option], and totality is a theorem. *)

From Stdlib Require Import PrimFloat.
From Stdlib Require Import String Ascii DecimalString DecimalNat.
From Stdlib Require Import List Bool Arith ZArith QArith Qminmax Qabs Qround.
From Stdlib Require Import Lqa Lia Permutation Sorted.
Import ListNotations.

#[local] Set Warnings "-inexact-float".

Open Scope Q_scope.

(* ------------------------------------------------------------------ *)
(** ** Numbers                                                         *)
(* ------------------------------------------------------------------ *)

(** [a < b] on numbers, as a boolean. *)
Definition Qltb (a b : Q) : bool :=
  match a ?= b with Lt => true | _ => false end.

Infix "<?" := Qltb (at level 70, no associativity) : Q_scope.

(* ------------------------------------------------------------------ *)
(** ** Types: detection input                                          *)
(* ------------------------------------------------------------------ *)

Inductive Category := furniture | food | plant | electric | other.

Definition Category_eqb (a b : Category) : bool :=
  match a, b with
  | furniture, furniture | food, food | plant, plant
  | electric, electric | other, other => true
  | _, _ => false
  end.

Module Bounds.
Record t := mk { x : Q; y : Q; w : Q; h : Q }.
End Bounds.

Module Detection.
Record t := mk
  { label : string;
    category : Category;
    confidence : Q;
    bounds_normalized : Bounds.t }.
End Detection.

Module Image.
Record t := mk { w : Q; h : Q }.
End Image.

Module DetectionResponse.
Record t := mk { image : Image.t; detections : list Detection.t }.
End DetectionResponse.

(* ------------------------------------------------------------------ *)
(** ** Object identity                                                 *)
(* ------------------------------------------------------------------ *)

(** Every record allocation of one run has its own name: the
    [bounds_normalized] object of the [k]-th detection (owned by the
    caller), the [platBounds] literal built for the [k]-th detection,
    the ground's bounds literal, and the bounds literal of the platform
    synthesised in repair iteration [it]. *)
Inductive Ref :=
| RefInput (k : nat)
| RefPlat (k : nat)
| RefGround
| RefBridge (it : nat).

(** Reference equality, [===] on objects. *)
Definition Ref_eqb (a b : Ref) : bool :=
  match a, b with
  | RefInput i, RefInput j => Nat.eqb i j
  | RefPlat i, RefPlat j => Nat.eqb i j
  | RefGround, RefGround => true
  | RefBridge i, RefBridge j => Nat.eqb i j
  | _, _ => false
  end.

Record Located (A : Type) := At { ref : Ref; val : A }.
Arguments At {A} _ _.
Arguments ref {A} _.
Arguments val {A} _.

(* ------------------------------------------------------------------ *)
(** ** Types: scene output                                             *)
(* ------------------------------------------------------------------ *)

Inductive ObjectType := platform | obstacle | collectible | hazard.

Definition ObjectType_eqb (a b : ObjectType) : bool :=
  match a, b with
  | platform, platform | obstacle, obstacle
  | collectible, collectible | hazard, hazard => true
  | _, _ => false
  end.

Inductive SurfaceType := solid | soft.

Module SceneObject.
Record t := mk
  { id : string;
    type : ObjectType;
    label : string;
    confidence : Q;
    bounds_normalized : Located Bounds.t;
    surface_type : option SurfaceType;
    category : option Category;
    enemy_spawn_anchor : option bool }.
End SceneObject.

Module SpawnPoint.
Record t := mk { x : Q; y : Q }.
End SpawnPoint.

Module EnemySpawn.
Record t := mk { x : Q; y : Q; type : string }.
End EnemySpawn.

Module PickupSpawn.
Record t := mk { x : Q; y : Q; type : string }.
End PickupSpawn.

Module Spawns.
Record t := mk
  { player : SpawnPoint.t;
    exit : SpawnPoint.t;
    enemies : list EnemySpawn.t;
    pickups : list PickupSpawn.t }.
End Spawns.

Module SceneV1.
Record t := mk
  { version : nat;
    image : Image.t;
    objects : list SceneObject.t;
    spawns : Spawns.t;
    rules : list unit }.
End SceneV1.

(* ------------------------------------------------------------------ *)
(** ** Constants                                                       *)
(* ------------------------------------------------------------------ *)

Definition MAX_JUMP_HEIGHT : Q := 0.25.
Definition MAX_HORIZONTAL_REACH : Q := 0.40.
Definition MIN_PLATFORM_WIDTH : Q := 0.08.
Definition PLATFORM_THICKNESS : Q := 0.03.
Definition MAX_PLATFORMS : nat := 10.
Definition ENTITY_OFFSET_Y : Q := 0.06.

(* ------------------------------------------------------------------ *)
(** ** Helpers                                                         *)
(* ------------------------------------------------------------------ *)

Definition clamp (v lo hi : Q) : Q := Qmax lo (Qmin hi v).

Definition horizontalOverlap (a b : Bounds.t) : bool :=
  (Bounds.x a <? Bounds.x b + Bounds.w b)
  && (Bounds.x b <? Bounds.x a + Bounds.w a).

Definition horizontalGap (a b : Bounds.t) : Q :=
  let aRight := Bounds.x a + Bounds.w a in
  let bRight := Bounds.x b + Bounds.w b in
  if (Bounds.x a <? bRight) && (Bounds.x b <? aRight) then 0
  else Qmin (Qabs (Bounds.x a - bRight)) (Qabs (Bounds.x b - aRight)).

(** [`${prefix}_${idCounter}`]. *)
Definition mkId (prefix : string) (idCounter : nat) : string :=
  (prefix ++ "_" ++ NilZero.string_of_uint (Nat.to_uint idCounter))%string.

(** [Array.prototype.sort(cmp)]: [cmp a b > 0] puts [b] before [a];
    elements that compare equal keep their relative order. *)
Section Sort.
Context {A : Type} (cmp : A -> A -> Q).

Fixpoint insertBy (a : A) (l : list A) : list A :=
  match l with
  | [] => [a]
  | b :: t => if 0 <? cmp a b then b :: insertBy a t else a :: b :: t
  end.

Definition sortBy (l : list A) : list A := fold_right insertBy [] l.
End Sort.

(** [arr.splice(i, 0, a)]. *)
Definition splice {A : Type} (i : nat) (a : A) (l : list A) : list A :=
  firstn i l ++ a :: skipn i l.

(** [while (arr.length > n) arr.pop()]. *)
Fixpoint popWhileLonger {A : Type} (n fuel : nat) (l : list A) : list A :=
  match fuel with
  | O => l
  | S fuel' =>
      if (n <? length l)%nat then popWhileLonger n fuel' (removelast l) else l
  end.

Definition capLength {A : Type} (n : nat) (l : list A) : list A :=
  popWhileLonger n (length l) l.

(* ------------------------------------------------------------------ *)
(** ** Step A: detections to candidate platforms and other objects     *)
(* ------------------------------------------------------------------ *)

Module PlatformCandidate.
Record t := mk
  { label : string;
    category : Category;
    confidence : Q;
    bounds : Located Bounds.t;
    isBridge : bool;
    isGround : bool;
    enemyAnchor : bool }.
End PlatformCandidate.

Definition PC : Type := PlatformCandidate.t.

(** [p.bounds.x], [p.bounds.y], [p.bounds.w]. *)
Definition px (p : PC) : Q := Bounds.x (val (PlatformCandidate.bounds p)).
Definition py (p : PC) : Q := Bounds.y (val (PlatformCandidate.bounds p)).
Definition pw (p : PC) : Q := Bounds.w (val (PlatformCandidate.bounds p)).

(** The three arrays filled by the extraction loop.  A detection kept for
    later is remembered with its position [k] in the input, so that its
    [bounds_normalized] object can be named ([RefInput k]). *)
Record Extracted := mkExtracted
  { candidates : list PC;
    collectibleDetections : list (nat * Detection.t);
    obstacleDetections : list (nat * Detection.t) }.

Definition platBoundsOf (det : Detection.t) : Bounds.t :=
  let b := Detection.bounds_normalized det in
  Bounds.mk (clamp (Bounds.x b) 0 0.95)
            (clamp (Bounds.y b) 0.05 0.90)
            (clamp (Bounds.w b) 0.05 0.9)
            PLATFORM_THICKNESS.

Definition candidateOf (k : nat) (det : Detection.t) : PC :=
  PlatformCandidate.mk
    (Detection.label det)
    (Detection.category det)
    (Detection.confidence det)
    (At (RefPlat k) (platBoundsOf det))
    false
    false
    (Category_eqb (Detection.category det) plant
     || Category_eqb (Detection.category det) electric).

(** The loop [for (const det of detections)], from position [k] on. *)
Fixpoint extractFrom (k : nat) (detections : list Detection.t) : Extracted :=
  match detections with
  | [] => mkExtracted [] [] []
  | det :: rest =>
      let r := extractFrom (S k) rest in
      if Category_eqb (Detection.category det) food then
        mkExtracted (candidates r)
                    ((k, det) :: collectibleDetections r)
                    (obstacleDetections r)
      else if Bounds.w (platBoundsOf det) <? MIN_PLATFORM_WIDTH then
        mkExtracted (candidates r)
                    (collectibleDetections r)
                    ((k, det) :: obstacleDetections r)
      else
        mkExtracted (candidateOf k det :: candidates r)
                    (collectibleDetections r)
                    (obstacleDetections r)
  end.

(* ------------------------------------------------------------------ *)
(** ** Step B: the ground platform                                     *)
(* ------------------------------------------------------------------ *)

Definition groundCandidate : PC :=
  PlatformCandidate.mk
    "ground" furniture 1.0
    (At RefGround (Bounds.mk 0.0 0.92 1.0 PLATFORM_THICKNESS))
    false true false.

(* ------------------------------------------------------------------ *)
(** ** Steps C and D: sort by descending y, de-duplicate, limit        *)
(* ------------------------------------------------------------------ *)

(** [(a, b) => b.bounds.y - a.bounds.y] *)
Definition byYDesc (a b : PC) : Q := py b - py a.

(** [(a, b) => a.bounds.y - b.bounds.y] *)
Definition byYAsc (a b : PC) : Q := py a - py b.

Definition tooClose (filtered : list PC) (cand : PC) : bool :=
  existsb
    (fun existing =>
       (Qabs (py existing - py cand) <? 0.05)
       && horizontalOverlap (val (PlatformCandidate.bounds existing))
                            (val (PlatformCandidate.bounds cand)))
    filtered.

(** The loop [for (const cand of candidates)] over the array [filtered]. *)
Fixpoint dedupInto (filtered candidates : list PC) : list PC :=
  match candidates with
  | [] => filtered
  | cand :: rest =>
      if tooClose filtered cand then dedupInto filtered rest
      else dedupInto (filtered ++ [cand]) rest
  end.

(** The platform list handed to the repair engine. *)
Definition initialPlatforms (detections : list Detection.t) : list PC :=
  let cands := candidates (extractFrom 0 detections) ++ [groundCandidate] in
  let sorted := sortBy byYDesc cands in
  let filtered := dedupInto [] sorted in
  firstn MAX_PLATFORMS filtered.

(* ------------------------------------------------------------------ *)
(** ** Step E: reachability repair                                     *)
(* ------------------------------------------------------------------ *)

(** Left edge of a synthesised platform: centred on the midpoint of the
    two centres (half of its width 0.15 is 0.075), then clamped. *)
Definition bridgeX (lower upper : PC) : Q :=
  let lowerCenterX := px lower + pw lower / 2 in
  let upperCenterX := px upper + pw upper / 2 in
  clamp ((lowerCenterX + upperCenterX) / 2 - 0.075) 0.02 0.85.

Definition stoneX (lower upper : PC) : Q :=
  clamp ((px lower + pw lower / 2 + px upper + pw upper / 2) / 2 - 0.075)
        0.02 0.85.

Definition midY (lower upper : PC) : Q := (py lower + py upper) / 2.

(** The platform synthesised on a vertical violation in iteration [it]. *)
Definition mkBridge (it : nat) (lower upper : PC) : PC :=
  PlatformCandidate.mk
    "bridge" other 1.0
    (At (RefBridge it)
        (Bounds.mk (bridgeX lower upper) (midY lower upper) 0.15
                   PLATFORM_THICKNESS))
    true false false.

(** The platform synthesised on a horizontal violation. *)
Definition mkSteppingStone (it : nat) (lower upper : PC) : PC :=
  PlatformCandidate.mk
    "stepping stone" other 1.0
    (At (RefBridge it)
        (Bounds.mk (stoneX lower upper) (midY lower upper) 0.15
                   PLATFORM_THICKNESS))
    true false false.

(** The inner [for] loop up to its [break]: [platforms] is the suffix of
    the array from index [i] on.  The result is the index of the first
    violating pair and the platform synthesised for it. *)
Fixpoint findViolation (it i : nat) (platforms : list PC)
  : option (nat * PC) :=
  match platforms with
  | lower :: ((upper :: _) as rest) =>
      let vertGap := py lower - py upper in
      if MAX_JUMP_HEIGHT <? vertGap then Some (i, mkBridge it lower upper)
      else
        let hGap := horizontalGap (val (PlatformCandidate.bounds lower))
                                  (val (PlatformCandidate.bounds upper)) in
        if MAX_HORIZONTAL_REACH <? hGap
        then Some (i, mkSteppingStone it lower upper)
        else findViolation it (S i) rest
  | _ => None
  end.

Record RepairState := mkRepair
  { bridgesInserted : bool;
    iterations : nat;
    platforms : list PC }.

(** One pass of the [while] body. *)
Definition repairBody (st : RepairState) : RepairState :=
  let iterations' := S (iterations st) in
  match findViolation iterations' 0 (platforms st) with
  | Some (i, bridge) =>
      mkRepair true iterations'
               (sortBy byYDesc (splice (i + 1) bridge (platforms st)))
  | None =>
      mkRepair false iterations' (sortBy byYDesc (platforms st))
  end.

Definition repairCond (st : RepairState) : bool :=
  bridgesInserted st && (iterations st <? 10)%nat.

(** [while (bridgesInserted && iterations < 10) { ... }], with fuel. *)
Fixpoint repairLoop (fuel : nat) (st : RepairState) : RepairState :=
  match fuel with
  | O => st
  | S fuel' =>
      if repairCond st then repairLoop fuel' (repairBody st) else st
  end.

(** The state in which the repair loop is left ([repair_exits] shows
    that the fuel is never what stops it). *)
Definition repair (initial : list PC) : RepairState :=
  repairLoop 10 (mkRepair true 0 (sortBy byYDesc initial)).

(** The platform list after the cap at 12. *)
Definition finalPlatforms (detections : list Detection.t) : list PC :=
  capLength 12 (platforms (repair (initialPlatforms detections))).

(* ------------------------------------------------------------------ *)
(** ** Steps F, G, H: scene objects                                    *)
(* ------------------------------------------------------------------ *)

Definition platformObject (idCounter : nat) (plat : PC) : SceneObject.t :=
  SceneObject.mk
    (mkId (if PlatformCandidate.isGround plat then "ground"
           else if PlatformCandidate.isBridge plat then "bridge"
           else "plat") idCounter)
    platform
    (PlatformCandidate.label plat)
    (PlatformCandidate.confidence plat)
    (PlatformCandidate.bounds plat)
    (Some (if Category_eqb (PlatformCandidate.category plat) furniture
           then solid else solid))
    (Some (if Category_eqb (PlatformCandidate.category plat) other
           then other else PlatformCandidate.category plat))
    (Some (PlatformCandidate.enemyAnchor plat)).

Definition obstacleObject (idCounter : nat) (kd : nat * Detection.t)
  : SceneObject.t :=
  let (k, det) := kd in
  SceneObject.mk
    (mkId "obs" idCounter)
    obstacle
    (Detection.label det)
    (Detection.confidence det)
    (At (RefInput k) (Detection.bounds_normalized det))
    None
    (Some (Detection.category det))
    (Some (Category_eqb (Detection.category det) plant
           || Category_eqb (Detection.category det) electric)).

Definition collectibleObject (idCounter : nat) (kd : nat * Detection.t)
  : SceneObject.t :=
  let (k, det) := kd in
  SceneObject.mk
    (mkId "col" idCounter)
    collectible
    (Detection.label det)
    (Detection.confidence det)
    (At (RefInput k) (Detection.bounds_normalized det))
    None
    (Some food)
    None.

(** [for (const a of l) objects.push(mk(idCounter++, a))]: the objects
    pushed, the counter starting at [idCounter]. *)
Fixpoint pushAll {A : Type} (mk : nat -> A -> SceneObject.t)
         (idCounter : nat) (l : list A) : list SceneObject.t :=
  match l with
  | [] => []
  | a :: rest => mk idCounter a :: pushAll mk (S idCounter) rest
  end.

(** The array [objects] at the end of step H. *)
Definition builtObjects (plats : list PC) (ex : Extracted)
  : list SceneObject.t :=
  let obstacles := firstn 4 (obstacleDetections ex) in
  let collectibles := firstn 5 (collectibleDetections ex) in
  let n1 := length plats in
  let n2 := (n1 + length obstacles)%nat in
  pushAll platformObject 0 plats
  ++ pushAll obstacleObject n1 obstacles
  ++ pushAll collectibleObject n2 collectibles.

(* ------------------------------------------------------------------ *)
(** ** Steps I and J: player spawn and exit                            *)
(* ------------------------------------------------------------------ *)

(** [platforms.find((p) => p.isGround) || platforms[0]]; [None] stands
    for [undefined]. *)
Definition findGroundPlat (plats : list PC) : option PC :=
  match find PlatformCandidate.isGround plats with
  | Some p => Some p
  | None => nth_error plats 0
  end.

Definition playerSpawnOn (groundPlat : PC) : SpawnPoint.t :=
  SpawnPoint.mk 0.08 (py groundPlat - ENTITY_OFFSET_Y).

(** [[...platforms].sort((a, b) => a.bounds.y - b.bounds.y)[0]] *)
Definition findHighestPlat (plats : list PC) : option PC :=
  nth_error (sortBy byYAsc plats) 0.

Definition exitSpawnOn (highestPlat : PC) : SpawnPoint.t :=
  SpawnPoint.mk (clamp (px highestPlat + pw highestPlat - 0.05) 0.7 0.95)
                (py highestPlat - ENTITY_OFFSET_Y).

(* ------------------------------------------------------------------ *)
(** ** Step K: pickups                                                 *)
(* ------------------------------------------------------------------ *)

Definition isPickupPlatform (p : PC) : bool :=
  negb (PlatformCandidate.isGround p) && negb (PlatformCandidate.isBridge p).

(** [for (let i = 0; i < pickupPlatforms.length && pickups.length < 5; i++)];
    [rest] is the suffix of [pickupPlatforms] from index [i] on. *)
Fixpoint pickupLoop (i : nat) (rest : list PC) (pickups : list PickupSpawn.t)
  : list PickupSpawn.t :=
  match rest with
  | [] => pickups
  | plat :: rest' =>
      if (length pickups <? 5)%nat then
        pickupLoop (S i) rest'
          (pickups ++
           [PickupSpawn.mk (clamp (px plat + pw plat / 2) 0.05 0.95)
                           (py plat - ENTITY_OFFSET_Y)
                           (if (i =? 0)%nat then "health" else "coin")])
      else pickups
  end.

(** [for (const bp of bridgePlats) { if (pickups.length >= 4) break; ... }] *)
Fixpoint bridgePickupLoop (bridgePlats : list PC)
         (pickups : list PickupSpawn.t) : list PickupSpawn.t :=
  match bridgePlats with
  | [] => pickups
  | bp :: rest =>
      if (4 <=? length pickups)%nat then pickups
      else bridgePickupLoop rest
             (pickups ++
              [PickupSpawn.mk (clamp (px bp + pw bp / 2) 0.05 0.95)
                              (py bp - ENTITY_OFFSET_Y)
                              "coin"])
  end.

Definition placePickups (plats : list PC) (groundPlat : PC)
  : list PickupSpawn.t :=
  let pickupPlatforms := filter isPickupPlatform plats in
  let pickups1 := pickupLoop 0 pickupPlatforms [] in
  let pickups2 :=
    if (length pickups1 <? 3)%nat
    then bridgePickupLoop (filter PlatformCandidate.isBridge plats) pickups1
    else pickups1 in
  if (length pickups2 <? 3)%nat
  then pickups2 ++
       [PickupSpawn.mk 0.3 (py groundPlat - ENTITY_OFFSET_Y) "coin";
        PickupSpawn.mk 0.5 (py groundPlat - ENTITY_OFFSET_Y) "coin"]
  else pickups2.

(* ------------------------------------------------------------------ *)
(** ** Step L: enemies                                                 *)
(* ------------------------------------------------------------------ *)

Definition isEnemyPlatform (p : PC) : bool :=
  negb (PlatformCandidate.isGround p)
  && negb (PlatformCandidate.isBridge p)
  && (0.15 <? pw p).

Definition enemyPlatforms (plats : list PC) : list PC :=
  firstn 2 (filter isEnemyPlatform plats).

Definition enemyOn (plat : PC) : EnemySpawn.t :=
  EnemySpawn.mk (clamp (px plat + pw plat / 2) 0.05 0.95)
                (py plat - ENTITY_OFFSET_Y)
                "walker".

(** [(o) => o.type === 'platform' && o.bounds_normalized === plat.bounds] *)
Definition isObjectOf (plat : PC) (o : SceneObject.t) : bool :=
  ObjectType_eqb (SceneObject.type o) platform
  && Ref_eqb (ref (SceneObject.bounds_normalized o))
             (ref (PlatformCandidate.bounds plat)).

Definition setAnchor (o : SceneObject.t) : SceneObject.t :=
  SceneObject.mk (SceneObject.id o) (SceneObject.type o)
                 (SceneObject.label o) (SceneObject.confidence o)
                 (SceneObject.bounds_normalized o)
                 (SceneObject.surface_type o) (SceneObject.category o)
                 (Some true).

(** [const platObj = objects.find(...); if (platObj) platObj.enemy_spawn_anchor = true]:
    the first matching element of the array is updated in place. *)
Fixpoint markAnchor (plat : PC) (objects : list SceneObject.t)
  : list SceneObject.t :=
  match objects with
  | [] => []
  | o :: rest =>
      if isObjectOf plat o then setAnchor o :: rest
      else o :: markAnchor plat rest
  end.

(** The loop [for (const plat of enemyPlatforms)] over the pair of arrays
    [enemies] and [objects]. *)
Fixpoint enemyLoop (chosen : list PC)
         (enemies : list EnemySpawn.t) (objects : list SceneObject.t)
  : list EnemySpawn.t * list SceneObject.t :=
  match chosen with
  | [] => (enemies, objects)
  | plat :: rest =>
      enemyLoop rest (enemies ++ [enemyOn plat]) (markAnchor plat objects)
  end.

(* ------------------------------------------------------------------ *)
(** ** Step M: the builder                                             *)
(* ------------------------------------------------------------------ *)

(** Steps F to M on the repaired, capped platform list. *)
Definition assemble (image : Image.t) (plats : list PC) (ex : Extracted)
  : option SceneV1.t :=
  let objects := builtObjects plats ex in
  match findGroundPlat plats with
  | None => None
  | Some groundPlat =>
      match findHighestPlat plats with
      | None => None
      | Some highestPlat =>
          let pickups := placePickups plats groundPlat in
          let (enemies, objects') :=
            enemyLoop (enemyPlatforms plats) [] objects in
          Some (SceneV1.mk
                  1
                  (Image.mk (Image.w image) (Image.h image))
                  objects'
                  (Spawns.mk (playerSpawnOn groundPlat)
                             (exitSpawnOn highestPlat)
                             enemies
                             pickups)
                  [])
      end
  end.

Definition buildLevel (input : DetectionResponse.t) : option SceneV1.t :=
  let detections := DetectionResponse.detections input in
  assemble (DetectionResponse.image input)
           (finalPlatforms detections)
           (extractFrom 0 detections).

(* ------------------------------------------------------------------ *)
(** ** The platform factory ([createPlatforms])                         *)
(* ------------------------------------------------------------------ *)

(** The factory turns the platform objects of a scene into static physics
    zones with a row of tiles each.  Its scene graph is modelled by what
    it adds to it: the zones of the group, in the order of their
    creation, each with its tiles.  Logging and the creation of the icon
    textures are left out.  With a box size of 0 the source divides by
    zero; the statements on the factory assume a positive box size. *)

Module Rect.
Record t := mk { x : Q; y : Q; w : Q; h : Q }.
End Rect.

(** The fields of [ComputedPhysics] that the factory reads. *)
Module ComputedPhysics.
Record t := mk
  { playerSizePx : Q;
    maxJumpHeight : Q;
    minPlatformWidth : Q;
    minPlatformHeight : Q }.
End ComputedPhysics.

(** Functions of other modules, taken as parameters. *)
Module Imports.
Record t := mk
  { normRectToWorldRect : Bounds.t -> Q -> Q -> Rect.t;
    getIconTextureKey : string -> Q -> string }.
End Imports.

Module Tile.
Record t := mk
  { x : Q; y : Q; texture : string;
    displayWidth : Q; displayHeight : Q; alpha : Q }.
End Tile.

Module Zone.
Record t := mk
  { x : Q; y : Q; width : Q; height : Q;
    surfaceType : SurfaceType;
    tiles : list Tile.t }.
End Zone.

Definition BOX_SIZE_RATIO : Q := 0.05.
Definition MIN_TILES : Z := 5.
Definition ICON_RENDER_SIZE : Q := 64.
Definition DEFAULT_ICON : string := "platform_solid".

(** The entries of [SURFACE_ICON] for the surface types of a scene
    object. *)
Definition SURFACE_ICON (s : SurfaceType) : option string :=
  match s with
  | solid => Some "platform_solid"%string
  | soft => Some "platform_soft"%string
  end.

(** [Math.round]: the nearest integer, halves upwards. *)
Definition round (v : Q) : Z := Qfloor (v + (1 # 2)).

Definition rectsTooClose (a b : Rect.t) (minGap : Q) : bool :=
  (Rect.x a <? Rect.x b + Rect.w b + minGap)
  && (Rect.x b - minGap <? Rect.x a + Rect.w a)
  && (Rect.y a <? Rect.y b + Rect.h b + minGap)
  && (Rect.y b - minGap <? Rect.y a + Rect.h a).

(** [placedRects] and the zones added to [group]. *)
Record Factory := mkFactory
  { placedRects : list Rect.t;
    group : list Zone.t }.

(** [Math.round(worldH * BOX_SIZE_RATIO)] *)
Definition boxSizeOf (worldH : Q) : Z := round (worldH * BOX_SIZE_RATIO).

(** The body of the loop [for (const obj of platforms)]. *)
Definition placeOne (imp : Imports.t) (worldW worldH : Q)
           (phys : ComputedPhysics.t) (boxSize minPlatformW minGap
                                       maxReachFromFloor : Q)
           (st : Factory) (obj : SceneObject.t) : Factory :=
  let rect := Imports.normRectToWorldRect
                imp (val (SceneObject.bounds_normalized obj)) worldW worldH in
  if (Rect.w rect <? ComputedPhysics.minPlatformWidth phys)
     || (Rect.h rect <? ComputedPhysics.minPlatformHeight phys)
  then st
  else
    let effectiveW := Qmax (Rect.w rect) minPlatformW in
    let tileCount := Z.max MIN_TILES (round (effectiveW / boxSize)) in
    let platformW := inject_Z tileCount * boxSize in
    let cx := Rect.x rect + Rect.w rect / 2 in
    let cy0 := Rect.y rect + Rect.h rect / 2 in
    let platformTop := cy0 - boxSize / 2 in
    let maxReachableY := worldH - maxReachFromFloor in
    let cy :=
      if platformTop <? maxReachableY then
        let hasLowerPlatform :=
          existsb (fun p => (cy0 <? Rect.y p + Rect.h p)
                            && negb (worldH <? Rect.y p + Rect.h p))
                  (placedRects st) in
        if negb hasLowerPlatform then maxReachableY + boxSize / 2 else cy0
      else cy0 in
    let leftEdge := cx - platformW / 2 in
    let platformRect :=
      Rect.mk leftEdge (cy - boxSize / 2) platformW boxSize in
    if existsb (fun placed => rectsTooClose platformRect placed minGap)
               (placedRects st)
    then st
    else
      let surfaceType :=
        match SceneObject.surface_type obj with
        | Some s => s
        | None => solid
        end in
      let iconKey :=
        match SURFACE_ICON surfaceType with
        | Some k => k
        | None => DEFAULT_ICON
        end in
      let textureKey := Imports.getIconTextureKey imp iconKey ICON_RENDER_SIZE in
      let tiles :=
        map (fun i : nat =>
               Tile.mk (leftEdge + boxSize * inject_Z (Z.of_nat i)
                        + boxSize / 2)
                       cy textureKey boxSize boxSize 0.7)
            (seq 0 (Z.to_nat tileCount)) in
      mkFactory (placedRects st ++ [platformRect])
                (group st
                 ++ [Zone.mk cx cy platformW boxSize surfaceType tiles]).

(** The factory at the end of its loop. *)
Definition runFactory (imp : Imports.t) (objects : list SceneObject.t)
           (worldW worldH : Q) (phys : ComputedPhysics.t) : Factory :=
  let platforms :=
    filter (fun o => ObjectType_eqb (SceneObject.type o) platform) objects in
  let boxSize := inject_Z (boxSizeOf worldH) in
  let minPlatformW := inject_Z MIN_TILES * boxSize in
  let minGap := ComputedPhysics.playerSizePx phys * 2 in
  let maxReachFromFloor := ComputedPhysics.maxJumpHeight phys * 0.85 in
  fold_left (placeOne imp worldW worldH phys boxSize minPlatformW minGap
                      maxReachFromFloor)
            platforms (mkFactory [] []).

Definition createPlatforms (imp : Imports.t) (objects : list SceneObject.t)
           (worldW worldH : Q) (phys : ComputedPhysics.t) : list Zone.t :=
  group (runFactory imp objects worldW worldH phys).

(* ------------------------------------------------------------------ *)
(** ** The builder over binary64 numbers                                *)
(* ------------------------------------------------------------------ *)

(** The same builder, definition by definition and under the same names,
    with the numbers of the source: IEEE 754 binary64, every operation
    rounded to nearest.  A decimal literal stands for the nearest binary64
    value, as in the source.  A comparison with NaN is false; the sort
    moves an element only past one for which the comparator gives a
    number above 0.  This is the model in which the values the builder
    returns for a given input are computed. *)
Module Double.
Local Open Scope float_scope.

(** [Math.min] and [Math.max]: NaN if an argument is NaN, and -0 counts
    as smaller than +0. *)
Definition Math_min (a b : float) : float :=
  if PrimFloat.is_nan a || PrimFloat.is_nan b then PrimFloat.nan
  else if a <? b then a
  else if b <? a then b
  else if PrimFloat.get_sign a then a else b.

Definition Math_max (a b : float) : float :=
  if PrimFloat.is_nan a || PrimFloat.is_nan b then PrimFloat.nan
  else if a <? b then b
  else if b <? a then a
  else if PrimFloat.get_sign a then b else a.

Module Bounds.
Record t := mk { x : float; y : float; w : float; h : float }.
End Bounds.

Module Detection.
Record t := mk
  { label : string;
    category : Category;
    confidence : float;
    bounds_normalized : Bounds.t }.
End Detection.

Module Image.
Record t := mk { w : float; h : float }.
End Image.

Module DetectionResponse.
Record t := mk { image : Image.t; detections : list Detection.t }.
End DetectionResponse.

Module SceneObject.
Record t := mk
  { id : string;
    type : ObjectType;
    label : string;
    confidence : float;
    bounds_normalized : Located Bounds.t;
    surface_type : option SurfaceType;
    category : option Category;
    enemy_spawn_anchor : option bool }.
End SceneObject.

Module SpawnPoint.
Record t := mk { x : float; y : float }.
End SpawnPoint.

Module EnemySpawn.
Record t := mk { x : float; y : float; type : string }.
End EnemySpawn.

Module PickupSpawn.
Record t := mk { x : float; y : float; type : string }.
End PickupSpawn.

Module Spawns.
Record t := mk
  { player : SpawnPoint.t;
    exit : SpawnPoint.t;
    enemies : list EnemySpawn.t;
    pickups : list PickupSpawn.t }.
End Spawns.

Module SceneV1.
Record t := mk
  { version : nat;
    image : Image.t;
    objects : list SceneObject.t;
    spawns : Spawns.t;
    rules : list unit }.
End SceneV1.

Definition MAX_JUMP_HEIGHT : float := 0.25.
Definition MAX_HORIZONTAL_REACH : float := 0.40.
Definition MIN_PLATFORM_WIDTH : float := 0.08.
Definition PLATFORM_THICKNESS : float := 0.03.
Definition ENTITY_OFFSET_Y : float := 0.06.

Definition clamp (v lo hi : float) : float := Math_max lo (Math_min hi v).

Definition horizontalOverlap (a b : Bounds.t) : bool :=
  (Bounds.x a <? Bounds.x b + Bounds.w b)
  && (Bounds.x b <? Bounds.x a + Bounds.w a).

Definition horizontalGap (a b : Bounds.t) : float :=
  let aRight := Bounds.x a + Bounds.w a in
  let bRight := Bounds.x b + Bounds.w b in
  if (Bounds.x a <? bRight) && (Bounds.x b <? aRight) then 0
  else Math_min (PrimFloat.abs (Bounds.x a - bRight)) (PrimFloat.abs (Bounds.x b - aRight)).

Section Sort.
Context {A : Type} (cmp : A -> A -> float).

Fixpoint insertBy (a : A) (l : list A) : list A :=
  match l with
  | [] => [a]
  | b :: t => if 0 <? cmp a b then b :: insertBy a t else a :: b :: t
  end.

Definition sortBy (l : list A) : list A := fold_right insertBy [] l.
End Sort.

Module PlatformCandidate.
Record t := mk
  { label : string;
    category : Category;
    confidence : float;
    bounds : Located Bounds.t;
    isBridge : bool;
    isGround : bool;
    enemyAnchor : bool }.
End PlatformCandidate.

Definition PC : Type := PlatformCandidate.t.

Definition px (p : PC) : float := Bounds.x (val (PlatformCandidate.bounds p)).
Definition py (p : PC) : float := Bounds.y (val (PlatformCandidate.bounds p)).
Definition pw (p : PC) : float := Bounds.w (val (PlatformCandidate.bounds p)).

Record Extracted := mkExtracted
  { candidates : list PC;
    collectibleDetections : list (nat * Detection.t);
    obstacleDetections : list (nat * Detection.t) }.

Definition platBoundsOf (det : Detection.t) : Bounds.t :=
  let b := Detection.bounds_normalized det in
  Bounds.mk (clamp (Bounds.x b) 0 0.95)
            (clamp (Bounds.y b) 0.05 0.90)
            (clamp (Bounds.w b) 0.05 0.9)
            PLATFORM_THICKNESS.

Definition candidateOf (k : nat) (det : Detection.t) : PC :=
  PlatformCandidate.mk
    (Detection.label det)
    (Detection.category det)
    (Detection.confidence det)
    (At (RefPlat k) (platBoundsOf det))
    false
    false
    (Category_eqb (Detection.category det) plant
     || Category_eqb (Detection.category det) electric).

Fixpoint extractFrom (k : nat) (detections : list Detection.t) : Extracted :=
  match detections with
  | [] => mkExtracted [] [] []
  | det :: rest =>
      let r := extractFrom (S k) rest in
      if Category_eqb (Detection.category det) food then
        mkExtracted (candidates r)
                    ((k, det) :: collectibleDetections r)
                    (obstacleDetections r)
      else if Bounds.w (platBoundsOf det) <? MIN_PLATFORM_WIDTH then
        mkExtracted (candidates r)
                    (collectibleDetections r)
                    ((k, det) :: obstacleDetections r)
      else
        mkExtracted (candidateOf k det :: candidates r)
                    (collectibleDetections r)
                    (obstacleDetections r)
  end.

Definition groundCandidate : PC :=
  PlatformCandidate.mk
    "ground" furniture 1.0
    (At RefGround (Bounds.mk 0.0 0.92 1.0 PLATFORM_THICKNESS))
    false true false.

Definition byYDesc (a b : PC) : float := py b - py a.

Definition byYAsc (a b : PC) : float := py a - py b.

Definition tooClose (filtered : list PC) (cand : PC) : bool :=
  existsb
    (fun existing =>
       (PrimFloat.abs (py existing - py cand) <? 0.05)
       && horizontalOverlap (val (PlatformCandidate.bounds existing))
                            (val (PlatformCandidate.bounds cand)))
    filtered.

Fixpoint dedupInto (filtered candidates : list PC) : list PC :=
  match candidates with
  | [] => filtered
  | cand :: rest =>
      if tooClose filtered cand then dedupInto filtered rest
      else dedupInto (filtered ++ [cand]) rest
  end.

Definition initialPlatforms (detections : list Detection.t) : list PC :=
  let cands := candidates (extractFrom 0 detections) ++ [groundCandidate] in
  let sorted := sortBy byYDesc cands in
  let filtered := dedupInto [] sorted in
  firstn MAX_PLATFORMS filtered.

Definition bridgeX (lower upper : PC) : float :=
  let lowerCenterX := px lower + pw lower / 2 in
  let upperCenterX := px upper + pw upper / 2 in
  clamp ((lowerCenterX + upperCenterX) / 2 - 0.075) 0.02 0.85.

Definition stoneX (lower upper : PC) : float :=
  clamp ((px lower + pw lower / 2 + px upper + pw upper / 2) / 2 - 0.075)
        0.02 0.85.

Definition midY (lower upper : PC) : float := (py lower + py upper) / 2.

Definition mkBridge (it : nat) (lower upper : PC) : PC :=
  PlatformCandidate.mk
    "bridge" other 1.0
    (At (RefBridge it)
        (Bounds.mk (bridgeX lower upper) (midY lower upper) 0.15
                   PLATFORM_THICKNESS))
    true false false.

Definition mkSteppingStone (it : nat) (lower upper : PC) : PC :=
  PlatformCandidate.mk
    "stepping stone" other 1.0
    (At (RefBridge it)
        (Bounds.mk (stoneX lower upper) (midY lower upper) 0.15
                   PLATFORM_THICKNESS))
    true false false.

Fixpoint findViolation (it i : nat) (platforms : list PC)
  : option (nat * PC) :=
  match platforms with
  | lower :: ((upper :: _) as rest) =>
      let vertGap := py lower - py upper in
      if MAX_JUMP_HEIGHT <? vertGap then Some (i, mkBridge it lower upper)
      else
        let hGap := horizontalGap (val (PlatformCandidate.bounds lower))
                                  (val (PlatformCandidate.bounds upper)) in
        if MAX_HORIZONTAL_REACH <? hGap
        then Some (i, mkSteppingStone it lower upper)
        else findViolation it (S i) rest
  | _ => None
  end.

Record RepairState := mkRepair
  { bridgesInserted : bool;
    iterations : nat;
    platforms : list PC }.

Definition repairBody (st : RepairState) : RepairState :=
  let iterations' := S (iterations st) in
  match findViolation iterations' 0 (platforms st) with
  | Some (i, bridge) =>
      mkRepair true iterations'
               (sortBy byYDesc (splice (i + 1) bridge (platforms st)))
  | None =>
      mkRepair false iterations' (sortBy byYDesc (platforms st))
  end.

Definition repairCond (st : RepairState) : bool :=
  bridgesInserted st && (iterations st <? 10)%nat.

Fixpoint repairLoop (fuel : nat) (st : RepairState) : RepairState :=
  match fuel with
  | O => st
  | S fuel' =>
      if repairCond st then repairLoop fuel' (repairBody st) else st
  end.

Definition repair (initial : list PC) : RepairState :=
  repairLoop 10 (mkRepair true 0 (sortBy byYDesc initial)).

Definition finalPlatforms (detections : list Detection.t) : list PC :=
  capLength 12 (platforms (repair (initialPlatforms detections))).

Definition platformObject (idCounter : nat) (plat : PC) : SceneObject.t :=
  SceneObject.mk
    (mkId (if PlatformCandidate.isGround plat then "ground"
           else if PlatformCandidate.isBridge plat then "bridge"
           else "plat") idCounter)
    platform
    (PlatformCandidate.label plat)
    (PlatformCandidate.confidence plat)
    (PlatformCandidate.bounds plat)
    (Some (if Category_eqb (PlatformCandidate.category plat) furniture
           then solid else solid))
    (Some (if Category_eqb (PlatformCandidate.category plat) other
           then other else PlatformCandidate.category plat))
    (Some (PlatformCandidate.enemyAnchor plat)).

Definition obstacleObject (idCounter : nat) (kd : nat * Detection.t)
  : SceneObject.t :=
  let (k, det) := kd in
  SceneObject.mk
    (mkId "obs" idCounter)
    obstacle
    (Detection.label det)
    (Detection.confidence det)
    (At (RefInput k) (Detection.bounds_normalized det))
    None
    (Some (Detection.category det))
    (Some (Category_eqb (Detection.category det) plant
           || Category_eqb (Detection.category det) electric)).

Definition collectibleObject (idCounter : nat) (kd : nat * Detection.t)
  : SceneObject.t :=
  let (k, det) := kd in
  SceneObject.mk
    (mkId "col" idCounter)
    collectible
    (Detection.label det)
    (Detection.confidence det)
    (At (RefInput k) (Detection.bounds_normalized det))
    None
    (Some food)
    None.

Fixpoint pushAll {A : Type} (mk : nat -> A -> SceneObject.t)
         (idCounter : nat) (l : list A) : list SceneObject.t :=
  match l with
  | [] => []
  | a :: rest => mk idCounter a :: pushAll mk (S idCounter) rest
  end.

Definition builtObjects (plats : list PC) (ex : Extracted)
  : list SceneObject.t :=
  let obstacles := firstn 4 (obstacleDetections ex) in
  let collectibles := firstn 5 (collectibleDetections ex) in
  let n1 := length plats in
  let n2 := (n1 + length obstacles)%nat in
  pushAll platformObject 0 plats
  ++ pushAll obstacleObject n1 obstacles
  ++ pushAll collectibleObject n2 collectibles.

Definition findGroundPlat (plats : list PC) : option PC :=
  match find PlatformCandidate.isGround plats with
  | Some p => Some p
  | None => nth_error plats 0
  end.

Definition playerSpawnOn (groundPlat : PC) : SpawnPoint.t :=
  SpawnPoint.mk 0.08 (py groundPlat - ENTITY_OFFSET_Y).

Definition findHighestPlat (plats : list PC) : option PC :=
  nth_error (sortBy byYAsc plats) 0.

Definition exitSpawnOn (highestPlat : PC) : SpawnPoint.t :=
  SpawnPoint.mk (clamp (px highestPlat + pw highestPlat - 0.05) 0.7 0.95)
                (py highestPlat - ENTITY_OFFSET_Y).

Definition isPickupPlatform (p : PC) : bool :=
  negb (PlatformCandidate.isGround p) && negb (PlatformCandidate.isBridge p).

Fixpoint pickupLoop (i : nat) (rest : list PC) (pickups : list PickupSpawn.t)
  : list PickupSpawn.t :=
  match rest with
  | [] => pickups
  | plat :: rest' =>
      if (length pickups <? 5)%nat then
        pickupLoop (S i) rest'
          (pickups ++
           [PickupSpawn.mk (clamp (px plat + pw plat / 2) 0.05 0.95)
                           (py plat - ENTITY_OFFSET_Y)
                           (if (i =? 0)%nat then "health" else "coin")])
      else pickups
  end.

Fixpoint bridgePickupLoop (bridgePlats : list PC)
         (pickups : list PickupSpawn.t) : list PickupSpawn.t :=
  match bridgePlats with
  | [] => pickups
  | bp :: rest =>
      if (4 <=? length pickups)%nat then pickups
      else bridgePickupLoop rest
             (pickups ++
              [PickupSpawn.mk (clamp (px bp + pw bp / 2) 0.05 0.95)
                              (py bp - ENTITY_OFFSET_Y)
                              "coin"])
  end.

Definition placePickups (plats : list PC) (groundPlat : PC)
  : list PickupSpawn.t :=
  let pickupPlatforms := filter isPickupPlatform plats in
  let pickups1 := pickupLoop 0 pickupPlatforms [] in
  let pickups2 :=
    if (length pickups1 <? 3)%nat
    then bridgePickupLoop (filter PlatformCandidate.isBridge plats) pickups1
    else pickups1 in
  if (length pickups2 <? 3)%nat
  then pickups2 ++
       [PickupSpawn.mk 0.3 (py groundPlat - ENTITY_OFFSET_Y) "coin";
        PickupSpawn.mk 0.5 (py groundPlat - ENTITY_OFFSET_Y) "coin"]
  else pickups2.

Definition isEnemyPlatform (p : PC) : bool :=
  negb (PlatformCandidate.isGround p)
  && negb (PlatformCandidate.isBridge p)
  && (0.15 <? pw p).

Definition enemyPlatforms (plats : list PC) : list PC :=
  firstn 2 (filter isEnemyPlatform plats).

Definition enemyOn (plat : PC) : EnemySpawn.t :=
  EnemySpawn.mk (clamp (px plat + pw plat / 2) 0.05 0.95)
                (py plat - ENTITY_OFFSET_Y)
                "walker".

Definition isObjectOf (plat : PC) (o : SceneObject.t) : bool :=
  ObjectType_eqb (SceneObject.type o) platform
  && Ref_eqb (ref (SceneObject.bounds_normalized o))
             (ref (PlatformCandidate.bounds plat)).

Definition setAnchor (o : SceneObject.t) : SceneObject.t :=
  SceneObject.mk (SceneObject.id o) (SceneObject.type o)
                 (SceneObject.label o) (SceneObject.confidence o)
                 (SceneObject.bounds_normalized o)
                 (SceneObject.surface_type o) (SceneObject.category o)
                 (Some true).

Fixpoint markAnchor (plat : PC) (objects : list SceneObject.t)
  : list SceneObject.t :=
  match objects with
  | [] => []
  | o :: rest =>
      if isObjectOf plat o then setAnchor o :: rest
      else o :: markAnchor plat rest
  end.

Fixpoint enemyLoop (chosen : list PC)
         (enemies : list EnemySpawn.t) (objects : list SceneObject.t)
  : list EnemySpawn.t * list SceneObject.t :=
  match chosen with
  | [] => (enemies, objects)
  | plat :: rest =>
      enemyLoop rest (enemies ++ [enemyOn plat]) (markAnchor plat objects)
  end.

Definition assemble (image : Image.t) (plats : list PC) (ex : Extracted)
  : option SceneV1.t :=
  let objects := builtObjects plats ex in
  match findGroundPlat plats with
  | None => None
  | Some groundPlat =>
      match findHighestPlat plats with
      | None => None
      | Some highestPlat =>
          let pickups := placePickups plats groundPlat in
          let (enemies, objects') :=
            enemyLoop (enemyPlatforms plats) [] objects in
          Some (SceneV1.mk
                  1
                  (Image.mk (Image.w image) (Image.h image))
                  objects'
                  (Spawns.mk (playerSpawnOn groundPlat)
                             (exitSpawnOn highestPlat)
                             enemies
                             pickups)
                  [])
      end
  end.

Definition buildLevel (input : DetectionResponse.t) : option SceneV1.t :=
  let detections := DetectionResponse.detections input in
  assemble (DetectionResponse.image input)
           (finalPlatforms detections)
           (extractFrom 0 detections).

Definition repaired (detections : list Detection.t) : RepairState :=
  repair (initialPlatforms detections).

Definition image0 : Image.t := Image.mk 640 480.

Definition detection (l : string) (c : Category) (x y w h : float)
  : Detection.t :=
  Detection.mk l c 0.9 (Bounds.mk x y w h).

Definition zigzag : list Detection.t :=
  [detection "L1" furniture 0.0 0.29 0.08 0.1;
   detection "R1" furniture 0.95 0.26 0.08 0.1;
   detection "L2" furniture 0.0 0.23 0.08 0.1;
   detection "R2" furniture 0.95 0.20 0.08 0.1;
   detection "L3" furniture 0.0 0.17 0.08 0.1;
   detection "R3" furniture 0.95 0.14 0.08 0.1;
   detection "L4" furniture 0.0 0.11 0.08 0.1;
   detection "R4" furniture 0.95 0.08 0.08 0.1;
   detection "L5" furniture 0.0 0.05 0.08 0.1].
End Double.

(* ------------------------------------------------------------------ *)
(** ** Sample inputs                                                   *)
(* ------------------------------------------------------------------ *)

Definition image0 : Image.t := Image.mk 640 480.

Definition detection (l : string) (c : Category) (x y w h : Q) : Detection.t :=
  Detection.mk l c 0.9 (Bounds.mk x y w h).

(** One shelf whose top edge is at the top of the image. *)
Definition in_shelf_top : DetectionResponse.t :=
  DetectionResponse.mk image0 [detection "shelf" furniture 0.1 0.0 0.5 0.1].

(** The repair state at loop entry for the ground and that shelf. *)
Definition st_shelf_top : RepairState :=
  mkRepair true 0
           [groundCandidate;
            candidateOf 0 (detection "shelf" furniture 0.1 0.0 0.5 0.1)].

(** One narrow shelf on the left, within jumping height of the ground. *)
Definition in_low_shelf : DetectionResponse.t :=
  DetectionResponse.mk image0 [detection "shelf" furniture 0.1 0.7 0.2 0.1].

(** Six food items. *)
Definition in_six_foods : DetectionResponse.t :=
  DetectionResponse.mk image0
    [detection "f1" food 0.1 0.5 0.1 0.1; detection "f2" food 0.2 0.5 0.1 0.1;
     detection "f3" food 0.3 0.5 0.1 0.1; detection "f4" food 0.4 0.5 0.1 0.1;
     detection "f5" food 0.5 0.5 0.1 0.1; detection "f6" food 0.6 0.5 0.1 0.1].

(** Nine narrow ledges, alternately at the left and at the right edge. *)
Definition zigzag : list Detection.t :=
  [detection "L1" furniture 0.0 0.29 0.08 0.1;
   detection "R1" furniture 0.95 0.26 0.08 0.1;
   detection "L2" furniture 0.0 0.23 0.08 0.1;
   detection "R2" furniture 0.95 0.20 0.08 0.1;
   detection "L3" furniture 0.0 0.17 0.08 0.1;
   detection "R3" furniture 0.95 0.14 0.08 0.1;
   detection "L4" furniture 0.0 0.11 0.08 0.1;
   detection "R4" furniture 0.95 0.08 0.08 0.1;
   detection "L5" furniture 0.0 0.05 0.08 0.1].

(** A world of 640 x 480 with the coordinate conversion by scaling, and
    the scene objects of the ground and of a shelf. *)
Definition sampleImports : Imports.t :=
  Imports.mk
    (fun b worldW worldH =>
       Rect.mk (Bounds.x b * worldW) (Bounds.y b * worldH)
               (Bounds.w b * worldW) (Bounds.h b * worldH))
    (fun iconKey size => iconKey).

Definition samplePhys : ComputedPhysics.t := ComputedPhysics.mk 24 200 20 5.

Definition sampleObjects : list SceneObject.t :=
  [platformObject 0 groundCandidate;
   platformObject 1
     (candidateOf 0 (detection "shelf" furniture 0.1 0.7 0.2 0.1))].

(* ------------------------------------------------------------------ *)
(** ** Vocabulary of the statements                                    *)
(* ------------------------------------------------------------------ *)

(** *** Arrays *)

(** [a] may stay in front of [b] in an array sorted with [cmp]. *)
Definition inOrder {A : Type} (cmp : A -> A -> Q) (a b : A) : Prop :=
  cmp a b <= 0.

(** [R] holds of every two consecutive elements. *)
Definition Adjacent {A : Type} (R : A -> A -> Prop) (l : list A) : Prop :=
  forall i a b, nth_error l i = Some a -> nth_error l (S i) = Some b -> R a b.

(** *** Platforms *)

(** [p.bounds], the record and its name. *)
Definition pb (p : PC) : Bounds.t := val (PlatformCandidate.bounds p).
Definition pref (p : PC) : Ref := ref (PlatformCandidate.bounds p).

(** Horizontal centre of a platform. *)
Definition centerX (p : PC) : Q := px p + pw p / 2.

(** Bottom-to-top order on bounds: the upper one has the smaller [y]. *)
Definition below (lower upper : Bounds.t) : Prop :=
  Bounds.y upper <= Bounds.y lower.

(** The traversal constraints on a pair of platforms. *)
Definition reachable (lower upper : Bounds.t) : Prop :=
  Bounds.y lower - Bounds.y upper <= MAX_JUMP_HEIGHT
  /\ horizontalGap lower upper <= MAX_HORIZONTAL_REACH.

(** Geometry of a platform: all three coordinates in their sub-range. *)
Definition WellFormed (p : PC) : Prop :=
  (0 <= px p <= 0.95) /\ (0.05 <= py p <= 0.92) /\ (0.08 <= pw p <= 1).

(** Where a platform comes from, read off the name of its bounds object:
    a detection that is not food, the ground literal, or a platform
    synthesised in one of the first [n] repair iterations. *)
Definition Provenance (dets : list Detection.t) (n : nat) (p : PC) : Prop :=
  match pref p with
  | RefPlat k =>
      exists d, nth_error dets k = Some d
                /\ Detection.category d <> food
                /\ p = candidateOf k d
  | RefGround => p = groundCandidate
  | RefBridge j =>
      (j <= n)%nat
      /\ PlatformCandidate.isBridge p = true
      /\ PlatformCandidate.isGround p = false
      /\ PlatformCandidate.category p = other
  | RefInput _ => False
  end.

Definition Good (dets : list Detection.t) (n : nat) (p : PC) : Prop :=
  WellFormed p /\ Provenance dets n p.

(** The ground is the first platform and lies strictly below the rest. *)
Definition GroundFirst (l : list PC) : Prop :=
  exists tl, l = groundCandidate :: tl /\ Forall (fun p => py p < 0.92) tl.

(** The invariant of the platform list from de-duplication to the cap:
    ground first, every platform well formed and of known origin, no
    bounds record shared by two platforms. *)
Record Inv (dets : list Detection.t) (n : nat) (l : list PC) : Prop :=
  mkInv
    { inv_ground : GroundFirst l;
      inv_good : Forall (Good dets n) l;
      inv_nodup : NoDup (map pref l) }.

(** *** The repair loop *)

(** The state in which [buildLevel] leaves the repair loop. *)
Definition repaired (dets : list Detection.t) : RepairState :=
  repair (initialPlatforms dets).

(** The platform list is sorted; after a scan without violation every
    consecutive pair meets the traversal constraints. *)
Definition Settled (st : RepairState) : Prop :=
  Sorted (inOrder byYDesc) (platforms st)
  /\ (bridgesInserted st = false ->
      Adjacent (fun a c => reachable (pb a) (pb c)) (platforms st)).

(** *** Scenes *)

Definition isFood (d : Detection.t) : bool :=
  Category_eqb (Detection.category d) food.

Definition isPlatformObject (o : SceneObject.t) : bool :=
  ObjectType_eqb (SceneObject.type o) platform.

(** [o.bounds_normalized], the record. *)
Definition objBounds (o : SceneObject.t) : Bounds.t :=
  val (SceneObject.bounds_normalized o).

(** [objects.filter(o => o.type === 'platform')] *)
Definition emittedPlatforms (scene : SceneV1.t) : list SceneObject.t :=
  filter isPlatformObject (SceneV1.objects scene).

(** [o'] is [o], possibly with [enemy_spawn_anchor] set. *)
Definition anchored (o o' : SceneObject.t) : Prop :=
  o' = o \/ o' = setAnchor o.

(** The spawn [s] stands on the platform object [o]: the fixed clearance
    above it, and horizontally within its span. *)
Definition liesOn (s : SpawnPoint.t) (o : SceneObject.t) : Prop :=
  SceneObject.type o = platform
  /\ SpawnPoint.y s == Bounds.y (objBounds o) - ENTITY_OFFSET_Y
  /\ Bounds.x (objBounds o) <= SpawnPoint.x s
     <= Bounds.x (objBounds o) + Bounds.w (objBounds o).

(** The scene assembled when the ground is found and [highestPlat] is the
    highest platform. *)
Definition sceneOf (image : Image.t) (plats : list PC) (highestPlat : PC)
           (objects : list SceneObject.t) : SceneV1.t :=
  SceneV1.mk 1 (Image.mk (Image.w image) (Image.h image)) objects
             (Spawns.mk (playerSpawnOn groundCandidate)
                        (exitSpawnOn highestPlat)
                        (map enemyOn (enemyPlatforms plats))
                        (placePickups plats groundCandidate))
             [].

(** *** Further vocabulary *)

(** The test of the de-duplication scan on one pair. *)
Definition closePair (existing cand : PC) : bool :=
  (Qabs (py existing - py cand) <? 0.05)
  && horizontalOverlap (pb existing) (pb cand).

(** A detection that is not food and narrower than the minimum width. *)
Definition isNarrow (d : Detection.t) : bool :=
  negb (isFood d)
  && (Bounds.w (Detection.bounds_normalized d) <? MIN_PLATFORM_WIDTH).

(** A detection that becomes a platform candidate. *)
Definition isWalkable (d : Detection.t) : bool :=
  negb (isFood d)
  && negb (Bounds.w (Detection.bounds_normalized d) <? MIN_PLATFORM_WIDTH).

(** What the repair engine makes: a platform 0.15 wide and of the common
    thickness, marked as a bridge, of category other, with confidence 1.0,
    not an enemy anchor, and labelled as a bridge or a stepping stone. *)
Definition Synthesised (p : PC) : Prop :=
  PlatformCandidate.isBridge p = true
  /\ PlatformCandidate.isGround p = false
  /\ PlatformCandidate.enemyAnchor p = false
  /\ PlatformCandidate.category p = other
  /\ PlatformCandidate.confidence p == 1
  /\ pw p == 0.15
  /\ (PlatformCandidate.label p = "bridge"%string
      \/ PlatformCandidate.label p = "stepping stone"%string).

(** No two different platforms that are not synthesised are close in
    height and overlapping. *)
Definition Apart (l : list PC) : Prop :=
  forall p q, In p l -> In q l ->
              PlatformCandidate.isBridge p = false ->
              PlatformCandidate.isBridge q = false ->
              pref p <> pref q ->
              closePair p q = false.

(** The part of an id after its first underscore. *)
Fixpoint afterUnderscore (s : string) : string :=
  match s with
  | EmptyString => EmptyString
  | String c rest => if Ascii.eqb c "_" then rest else afterUnderscore rest
  end.

(** The five id prefixes. *)
Definition idPrefixes : list string :=
  ["ground"; "bridge"; "plat"; "obs"; "col"]%string.

(** The pickup pushed for [plat] at index [i] of [pickupPlatforms]. *)
Definition pickupOn (i : nat) (plat : PC) : PickupSpawn.t :=
  PickupSpawn.mk (clamp (px plat + pw plat / 2) 0.05 0.95)
                 (py plat - ENTITY_OFFSET_Y)
                 (if (i =? 0)%nat then "health" else "coin").

(** The pickups of consecutive platforms, the first at index [i]. *)
Fixpoint pickupsFrom (i : nat) (l : list PC) : list PickupSpawn.t :=
  match l with
  | [] => []
  | plat :: rest => pickupOn i plat :: pickupsFrom (S i) rest
  end.

(** The point where a spawn stands. *)
Definition pickupPoint (pk : PickupSpawn.t) : SpawnPoint.t :=
  SpawnPoint.mk (PickupSpawn.x pk) (PickupSpawn.y pk).

Definition enemyPoint (e : EnemySpawn.t) : SpawnPoint.t :=
  SpawnPoint.mk (EnemySpawn.x e) (EnemySpawn.y e).


(** *** The platform factory *)

(** The rectangle that the factory checks for the zone [z]. *)
Definition zoneRect (z : Zone.t) : Rect.t :=
  Rect.mk (Zone.x z - Zone.width z / 2) (Zone.y z - Zone.height z / 2)
          (Zone.width z) (Zone.height z).

(** The rectangle of a platform object passes the size filter. *)
Definition bigEnough (imp : Imports.t) (worldW worldH : Q)
           (phys : ComputedPhysics.t) (o : SceneObject.t) : bool :=
  let rect := Imports.normRectToWorldRect
                imp (val (SceneObject.bounds_normalized o)) worldW worldH in
  negb ((Rect.w rect <? ComputedPhysics.minPlatformWidth phys)
        || (Rect.h rect <? ComputedPhysics.minPlatformHeight phys)).

(* ================================================================== *)
(** * Facts                                                            *)
(* ================================================================== *)

(** ** Numbers *)

Lemma Qltb_true (a b : Q) : (a <? b) = true <-> a < b.
Proof.
  unfold Qltb. rewrite Qlt_alt. destruct (a ?= b); split; congruence.
Qed.

Lemma Qltb_false (a b : Q) : (a <? b) = false <-> b <= a.
Proof.
  split; intro H.
  - apply Qnot_lt_le. intro L. apply Qltb_true in L. congruence.
  - destruct (a <? b) eqn:E; [ | reflexivity ].
    apply Qltb_true in E. exfalso. apply (Qlt_not_le _ _ E H).
Qed.

Lemma clamp_bounds (v lo hi : Q) : lo <= hi -> lo <= clamp v lo hi <= hi.
Proof.
  intro H. unfold clamp. split.
  - apply Q.le_max_l.
  - apply Q.max_lub; [ exact H | apply Q.le_min_l ].
Qed.

Lemma clamp_inside (v lo hi : Q) : lo <= v -> v <= hi -> clamp v lo hi == v.
Proof.
  intros H1 H2. unfold clamp.
  rewrite (Q.min_r hi v H2). apply Q.max_r. exact H1.
Qed.

Lemma clamp_above (v lo hi : Q) : lo <= hi -> hi <= v -> clamp v lo hi == hi.
Proof.
  intros H1 H2. unfold clamp.
  rewrite (Q.min_l hi v H2). apply Q.max_r. exact H1.
Qed.

(** ** Lists *)

Lemma capLength_firstn {A : Type} (n : nat) (l : list A) :
  capLength n l = firstn n l.
Proof.
  unfold capLength.
  assert (G : forall fuel (l : list A),
             (length l <= n + fuel)%nat ->
             popWhileLonger n fuel l = firstn n l).
  { induction fuel as [ | fuel IH ]; intros l0 Hlen; simpl.
    - symmetry. apply firstn_all2. lia.
    - destruct (n <? length l0)%nat eqn:E.
      + apply Nat.ltb_lt in E.
        rewrite IH.
        * apply firstn_removelast. exact E.
        * rewrite removelast_firstn_len, length_firstn. lia.
      + apply Nat.ltb_ge in E. symmetry. apply firstn_all2. exact E. }
  apply G. lia.
Qed.

Lemma splice_cons {A : Type} (i : nat) (a b : A) (l : list A) :
  splice (S i) a (b :: l) = b :: splice i a l.
Proof. reflexivity. Qed.

Lemma splice_perm {A : Type} (i : nat) (a : A) (l : list A) :
  Permutation (splice i a l) (a :: l).
Proof.
  unfold splice. symmetry.
  rewrite <- (firstn_skipn i l) at 1. apply Permutation_middle.
Qed.

Lemma splice_length {A : Type} (i : nat) (a : A) (l : list A) :
  length (splice i a l) = S (length l).
Proof. apply (Permutation_length (splice_perm i a l)). Qed.

Lemma pushAll_length {A : Type} (mk : nat -> A -> SceneObject.t) (l : list A) :
  forall c, length (pushAll mk c l) = length l.
Proof. induction l; intro c; simpl; [ | rewrite IHl ]; reflexivity. Qed.

Lemma pushAll_nth {A : Type} (mk : nat -> A -> SceneObject.t) (l : list A) :
  forall c i a, nth_error l i = Some a ->
                nth_error (pushAll mk c l) i = Some (mk (c + i)%nat a).
Proof.
  induction l as [ | b l IH ]; intros c i a H.
  - destruct i; discriminate.
  - destruct i as [ | i ]; simpl in *.
    + injection H as ->. now rewrite Nat.add_0_r.
    + rewrite (IH (S c) i a H). f_equal. f_equal. lia.
Qed.

Lemma pushAll_In {A : Type} (mk : nat -> A -> SceneObject.t) (l : list A) :
  forall c o, In o (pushAll mk c l) ->
              exists i a, nth_error l i = Some a /\ o = mk (c + i)%nat a.
Proof.
  induction l as [ | b l IH ]; intros c o H; simpl in H.
  - contradiction.
  - destruct H as [ <- | H ].
    + exists 0%nat, b. split; [ reflexivity | now rewrite Nat.add_0_r ].
    + destruct (IH _ _ H) as (i & a & Hi & ->).
      exists (S i), a. split; [ exact Hi | f_equal; lia ].
Qed.

(** ** The stable sort *)

Section SortFacts.
Context {A : Type} (cmp : A -> A -> Q).

Hypothesis cmp_total : forall a b, 0 < cmp a b -> cmp b a <= 0.
Hypothesis cmp_trans :
  forall a b c, cmp a b <= 0 -> cmp b c <= 0 -> cmp a c <= 0.

Lemma insertBy_perm (a : A) (l : list A) :
  Permutation (insertBy cmp a l) (a :: l).
Proof.
  induction l as [ | b t IH ]; simpl.
  - reflexivity.
  - destruct (0 <? cmp a b).
    + rewrite IH. apply perm_swap.
    + reflexivity.
Qed.

Lemma sortBy_perm (l : list A) : Permutation (sortBy cmp l) l.
Proof.
  induction l as [ | a l IH ]; simpl.
  - reflexivity.
  - rewrite insertBy_perm. now apply perm_skip.
Qed.

Lemma insertBy_front (a : A) (l : list A) :
  HdRel (inOrder cmp) a l -> insertBy cmp a l = a :: l.
Proof.
  destruct l as [ | b t ]; simpl; intro H.
  - reflexivity.
  - apply HdRel_inv in H. unfold inOrder in H.
    apply Qltb_false in H. now rewrite H.
Qed.

Lemma insertBy_sorted (a : A) (l : list A) :
  Sorted (inOrder cmp) l -> Sorted (inOrder cmp) (insertBy cmp a l).
Proof.
  induction l as [ | b t IH ]; simpl; intro S.
  - repeat constructor.
  - destruct (0 <? cmp a b) eqn:E.
    + apply Sorted_inv in S. destruct S as [St Hd].
      constructor; [ now apply IH | ].
      apply Qltb_true in E.
      destruct t as [ | c t ]; simpl.
      * constructor. now apply cmp_total.
      * destruct (0 <? cmp a c).
        -- constructor. now apply HdRel_inv in Hd.
        -- constructor. now apply cmp_total.
    + apply Qltb_false in E. constructor; [ exact S | now constructor ].
Qed.

Lemma sortBy_sorted (l : list A) : Sorted (inOrder cmp) (sortBy cmp l).
Proof.
  induction l; simpl; [ constructor | now apply insertBy_sorted ].
Qed.

(** Sorting a sorted array leaves it as it is. *)
Lemma sortBy_id (l : list A) : Sorted (inOrder cmp) l -> sortBy cmp l = l.
Proof.
  induction l as [ | a l IH ]; simpl; intro S.
  - reflexivity.
  - apply Sorted_inv in S. destruct S as [St Hd].
    rewrite (IH St). now apply insertBy_front.
Qed.

Lemma sortBy_idem (l : list A) : sortBy cmp (sortBy cmp l) = sortBy cmp l.
Proof. apply sortBy_id, sortBy_sorted. Qed.

Lemma sortBy_head (l : list A) (hd : A) :
  nth_error (sortBy cmp l) 0 = Some hd ->
  In hd l /\ forall e, In e l -> inOrder cmp hd e.
Proof.
  intro H.
  pose proof (sortBy_sorted l) as S.
  pose proof (sortBy_perm l) as P.
  destruct (sortBy cmp l) as [ | b t ]; [ discriminate | ].
  injection H as ->.
  split.
  - apply (Permutation_in _ P). now left.
  - intros e He.
    apply Permutation_sym in P. apply (Permutation_in _ P) in He.
    destruct He as [ <- | He ].
    + unfold inOrder.
      destruct (Qlt_le_dec 0 (cmp hd hd)) as [L | L];
        [ now apply cmp_total | exact L ].
    + apply Sorted_StronglySorted in S.
      * apply StronglySorted_inv in S. destruct S as [_ F].
        rewrite Forall_forall in F. now apply F.
      * intros x y z. apply cmp_trans.
Qed.

Lemma sortBy_nonempty (l : list A) :
  l <> [] -> exists hd, nth_error (sortBy cmp l) 0 = Some hd.
Proof.
  intro H. pose proof (sortBy_perm l) as P.
  destruct (sortBy cmp l) as [ | b t ].
  - apply Permutation_nil in P. contradiction.
  - now exists b.
Qed.
End SortFacts.

Lemma Forall_firstn {A : Type} (P : A -> Prop) (n : nat) (l : list A) :
  Forall P l -> Forall P (firstn n l).
Proof.
  intro H. rewrite <- (firstn_skipn n l) in H.
  apply Forall_app in H. tauto.
Qed.

Lemma NoDup_map_firstn {A B : Type} (f : A -> B) (n : nat) (l : list A) :
  NoDup (map f l) -> NoDup (map f (firstn n l)).
Proof.
  intro H. rewrite <- (firstn_skipn n l), map_app in H.
  now apply NoDup_app_remove_r in H.
Qed.

(** ** The two comparators *)

Lemma byYDesc_total (a b : PC) : 0 < byYDesc a b -> byYDesc b a <= 0.
Proof. unfold byYDesc. lra. Qed.

Lemma byYDesc_trans (a b c : PC) :
  byYDesc a b <= 0 -> byYDesc b c <= 0 -> byYDesc a c <= 0.
Proof. unfold byYDesc. lra. Qed.

Lemma byYAsc_total (a b : PC) : 0 < byYAsc a b -> byYAsc b a <= 0.
Proof. unfold byYAsc. lra. Qed.

Lemma byYAsc_trans (a b c : PC) :
  byYAsc a b <= 0 -> byYAsc b c <= 0 -> byYAsc a c <= 0.
Proof. unfold byYAsc. lra. Qed.

(** ** Invariants of the platform list *)

Lemma Good_mono dets n m p : (n <= m)%nat -> Good dets n p -> Good dets m p.
Proof.
  intros Hnm [W P]. split; [ exact W | ].
  unfold Provenance in *. destruct (pref p); try exact P.
  destruct P as (Hj & P). split; [ lia | exact P ].
Qed.

Lemma ground_WellFormed : WellFormed groundCandidate.
Proof. unfold WellFormed, px, py, pw; simpl. lra. Qed.

Lemma ground_Good dets n : Good dets n groundCandidate.
Proof. split; [ apply ground_WellFormed | reflexivity ]. Qed.

Lemma candidate_WellFormed k d :
  0.08 <= Bounds.w (platBoundsOf d) -> WellFormed (candidateOf k d).
Proof.
  intro Hw. unfold WellFormed, px, py, pw. simpl in *.
  pose proof (clamp_bounds (Bounds.x (Detection.bounds_normalized d)) 0 0.95).
  pose proof (clamp_bounds (Bounds.y (Detection.bounds_normalized d)) 0.05 0.90).
  pose proof (clamp_bounds (Bounds.w (Detection.bounds_normalized d)) 0.05 0.9).
  lra.
Qed.

(** *** Extraction *)

Lemma extract_candidates (dets0 : list Detection.t) :
  forall dets k,
    (forall j d, nth_error dets j = Some d ->
                 nth_error dets0 (k + j) = Some d) ->
    Forall (fun p => Good dets0 0 p /\ py p <= 0.90
                     /\ exists j, pref p = RefPlat j /\ (k <= j)%nat)
           (candidates (extractFrom k dets))
    /\ NoDup (map pref (candidates (extractFrom k dets))).
Proof.
  induction dets as [ | d rest IH ]; intros k Hsub; cbn [extractFrom].
  - split; constructor.
  - assert (Hrest : forall j d', nth_error rest j = Some d' ->
                                 nth_error dets0 (S k + j) = Some d').
    { intros j d' Hj. replace (S k + j)%nat with (k + S j)%nat by lia.
      now apply Hsub. }
    destruct (IH (S k) Hrest) as [F N].
    destruct (Category_eqb (Detection.category d) food) eqn:Efood;
      cbn [candidates].
    + split; [ | exact N ].
      eapply Forall_impl; [ | exact F ].
      intros p (G & Y & j & Hj & Hk).
      split; [ exact G | split; [ exact Y | ] ].
      exists j. split; [ exact Hj | lia ].
    + destruct (Bounds.w (platBoundsOf d) <? MIN_PLATFORM_WIDTH) eqn:Ew;
        cbn [candidates map].
      * split; [ | exact N ].
        eapply Forall_impl; [ | exact F ].
        intros p (G & Y & j & Hj & Hk).
        split; [ exact G | split; [ exact Y | ] ].
        exists j. split; [ exact Hj | lia ].
      * apply Qltb_false in Ew. unfold MIN_PLATFORM_WIDTH in Ew.
        split.
        -- constructor.
           ++ split; [ split | split ].
              ** now apply candidate_WellFormed.
              ** unfold Provenance. simpl. exists d. split; [ | split ].
                 --- specialize (Hsub 0%nat d eq_refl).
                     now rewrite Nat.add_0_r in Hsub.
                 --- intro E. rewrite E in Efood. discriminate.
                 --- reflexivity.
              ** unfold py. simpl.
                 apply (clamp_bounds _ 0.05 0.90). lra.
              ** exists k. split; [ reflexivity | lia ].
           ++ eapply Forall_impl; [ | exact F ].
              intros p (G & Y & j & Hj & Hk).
              split; [ exact G | split; [ exact Y | ] ].
              exists j. split; [ exact Hj | lia ].
        -- constructor; [ | exact N ].
           intro Hin. apply in_map_iff in Hin.
           destruct Hin as (p & Hp & Hin).
           rewrite Forall_forall in F.
           destruct (F p Hin) as (_ & _ & j & Hj & Hk).
           unfold pref in Hp, Hj. simpl in Hp. rewrite Hp in Hj.
           injection Hj as Hj. lia.
Qed.

(** *** Sorting, de-duplication, limit *)

Lemma sortDesc_tail_below (l : list PC) :
  Forall (fun p => py p < 0.92) l ->
  sortBy byYDesc (groundCandidate :: l) = groundCandidate :: sortBy byYDesc l.
Proof.
  intro F. simpl. apply insertBy_front.
  assert (F' : Forall (fun p => py p < 0.92) (sortBy byYDesc l)).
  { eapply Permutation_Forall; [ | exact F ].
    symmetry. apply sortBy_perm. }
  destruct (sortBy byYDesc l) as [ | b t ]; constructor.
  apply Forall_inv in F'. unfold inOrder, byYDesc, py at 2. simpl. lra.
Qed.

Lemma sortDesc_GroundFirst (l : list PC) :
  GroundFirst l -> GroundFirst (sortBy byYDesc l).
Proof.
  intros (tl & -> & F). exists (sortBy byYDesc tl). split.
  - now apply sortDesc_tail_below.
  - eapply Permutation_Forall; [ | exact F ]. symmetry. apply sortBy_perm.
Qed.

Lemma sortDesc_Inv dets n (l : list PC) :
  Inv dets n l -> Inv dets n (sortBy byYDesc l).
Proof.
  intros [G F N]. split.
  - now apply sortDesc_GroundFirst.
  - eapply Permutation_Forall; [ | exact F ]. symmetry. apply sortBy_perm.
  - eapply Permutation_NoDup; [ | exact N ].
    apply Permutation_map. symmetry. apply sortBy_perm.
Qed.

(** The ground, strictly lowest of the candidates, is sorted to the front. *)
Lemma sortDesc_ground_last (cands : list PC) :
  Forall (fun p => py p <= 0.90) cands ->
  exists tl, sortBy byYDesc (cands ++ [groundCandidate]) = groundCandidate :: tl
             /\ Permutation tl cands.
Proof.
  intro F.
  pose proof (sortBy_perm byYDesc (cands ++ [groundCandidate])) as P.
  destruct (sortBy_nonempty byYDesc (cands ++ [groundCandidate])) as [hd Hhd].
  { destruct cands; discriminate. }
  destruct (sortBy_head byYDesc byYDesc_total byYDesc_trans _ _ Hhd)
    as [Hin Hmin].
  assert (Hg : hd = groundCandidate).
  { apply in_app_or in Hin. destruct Hin as [Hin | [<- | []]]; [ | reflexivity ].
    exfalso.
    rewrite Forall_forall in F. specialize (F _ Hin).
    specialize (Hmin groundCandidate).
    unfold inOrder, byYDesc in Hmin. unfold py at 1 in Hmin. simpl in Hmin.
    assert (0.92 - py hd <= 0) by (apply Hmin, in_or_app; right; now left).
    lra. }
  subst hd.
  destruct (sortBy byYDesc (cands ++ [groundCandidate])) as [ | b tl ];
    [ discriminate | ].
  injection Hhd as ->. exists tl. split; [ reflexivity | ].
  apply Permutation_cons_app_inv in P. now rewrite app_nil_r in P.
Qed.

Lemma dedupInto_spec (cands : list PC) :
  forall filtered,
  exists kept,
    dedupInto filtered cands = filtered ++ kept
    /\ (forall P : PC -> Prop, Forall P cands -> Forall P kept)
    /\ (forall (B : Type) (g : PC -> B),
           NoDup (map g (filtered ++ cands)) ->
           NoDup (map g (filtered ++ kept))).
Proof.
  induction cands as [ | cand rest IH ]; intro filtered; simpl.
  - exists []. rewrite app_nil_r. repeat split; auto.
  - destruct (tooClose filtered cand).
    + destruct (IH filtered) as (kept & E & F & N).
      exists kept. split; [ exact E | split ].
      * intros P HP. apply F. now inversion HP.
      * intros B g HN. apply N.
        rewrite map_app in *. simpl in HN. now apply NoDup_remove_1 in HN.
    + destruct (IH (filtered ++ [cand])) as (kept & E & F & N).
      exists (cand :: kept). split; [ | split ].
      * rewrite E, <- app_assoc. reflexivity.
      * intros P HP. inversion HP; subst. constructor; auto.
      * intros B g HN.
        replace (filtered ++ cand :: kept) with ((filtered ++ [cand]) ++ kept)
          by (rewrite <- app_assoc; reflexivity).
        apply N. rewrite <- app_assoc. exact HN.
Qed.

Lemma initialPlatforms_Inv (dets : list Detection.t) :
  Inv dets 0 (initialPlatforms dets).
Proof.
  unfold initialPlatforms.
  destruct (extract_candidates dets dets 0%nat) as [F N].
  { intros j d H. exact H. }
  set (cands := candidates (extractFrom 0 dets)) in *.
  destruct (sortDesc_ground_last cands) as (tl & E & P).
  { eapply Forall_impl; [ | exact F ]. intros p (_ & H & _). exact H. }
  rewrite E.
  assert (Ftl : Forall (fun p => Good dets 0 p /\ py p <= 0.90
                         /\ exists j, pref p = RefPlat j /\ (0 <= j)%nat) tl).
  { eapply Permutation_Forall; [ | exact F ]. now symmetry. }
  assert (Ntl : NoDup (map pref (groundCandidate :: tl))).
  { simpl. constructor.
    - intro Hin. apply in_map_iff in Hin. destruct Hin as (p & Hp & Hin).
      rewrite Forall_forall in Ftl.
      destruct (Ftl p Hin) as (_ & _ & j & Hj & _).
      rewrite Hj in Hp. discriminate.
    - eapply Permutation_NoDup; [ | exact N ].
      apply Permutation_map. now symmetry. }
  simpl dedupInto.
  destruct (dedupInto_spec tl [groundCandidate]) as (kept & Ed & Fd & Nd).
  rewrite Ed.
  change (firstn MAX_PLATFORMS ([groundCandidate] ++ kept))
    with (groundCandidate :: firstn 9 kept).
  split.
  - exists (firstn 9 kept). split; [ reflexivity | ].
    apply Forall_firstn, Fd.
    eapply Forall_impl; [ | exact Ftl ]. intros p (_ & H & _). lra.
  - constructor; [ apply ground_Good | ].
    apply Forall_firstn, Fd.
    eapply Forall_impl; [ | exact Ftl ]. intros p (H & _). exact H.
  - change (NoDup (map pref (firstn 10 ([groundCandidate] ++ kept)))).
    apply NoDup_map_firstn, Nd. exact Ntl.
Qed.

(** *** The scan for a violating pair *)

Lemma Adjacent_firstn {A : Type} (R : A -> A -> Prop) (n : nat) (l : list A) :
  Adjacent R l -> Adjacent R (firstn n l).
Proof.
  intros H i a b Ha Hb. rewrite nth_error_firstn in Ha, Hb.
  destruct (i <? n)%nat; [ | discriminate ].
  destruct (S i <? n)%nat; [ | discriminate ].
  exact (H i a b Ha Hb).
Qed.

Lemma Adjacent_map {A B : Type} (f : A -> B) (R : B -> B -> Prop) (l : list A) :
  Adjacent (fun a b => R (f a) (f b)) l -> Adjacent R (map f l).
Proof.
  intros H i a b Ha Hb. rewrite nth_error_map in Ha, Hb.
  destruct (nth_error l i) as [a' | ] eqn:Ea; [ | discriminate ].
  destruct (nth_error l (S i)) as [b' | ] eqn:Eb; [ | discriminate ].
  injection Ha as <-. injection Hb as <-. exact (H i a' b' Ea Eb).
Qed.

Lemma Adjacent_Sorted {A : Type} (R : A -> A -> Prop) (l : list A) :
  Sorted R l -> Adjacent R l.
Proof.
  induction 1 as [ | a l S IH Hd ]; intros i x z Hx Hz.
  - destruct i; discriminate.
  - destruct i as [ | i ]; simpl in Hx, Hz.
    + injection Hx as <-. destruct l as [ | c l ]; [ discriminate | ].
      injection Hz as <-. now apply HdRel_inv in Hd.
    + exact (IH i x z Hx Hz).
Qed.

Lemma findViolation_none (it : nat) (l : list PC) :
  forall i0, findViolation it i0 l = None ->
             Adjacent (fun a c => reachable (pb a) (pb c)) l.
Proof.
  induction l as [ | lower rest IH ]; intros i0 H i a c Ha Hc.
  - destruct i; discriminate.
  - destruct rest as [ | upper rest' ].
    + destruct i as [ | [ | i ] ]; discriminate.
    + cbn [findViolation] in H.
      destruct (MAX_JUMP_HEIGHT <? py lower - py upper) eqn:EV;
        [ discriminate | ].
      destruct (MAX_HORIZONTAL_REACH <?
                horizontalGap (val (PlatformCandidate.bounds lower))
                              (val (PlatformCandidate.bounds upper))) eqn:EH;
        [ discriminate | ].
      destruct i as [ | i ].
      * simpl in Ha, Hc. injection Ha as <-. injection Hc as <-.
        apply Qltb_false in EV, EH. split; [ exact EV | exact EH ].
      * exact (IH _ H i a c Ha Hc).
Qed.

Lemma findViolation_some (it : nat) (l : list PC) :
  forall i0 i b,
    findViolation it i0 l = Some (i, b) ->
    exists j lower upper,
      i = (i0 + j)%nat
      /\ nth_error l j = Some lower
      /\ nth_error l (S j) = Some upper
      /\ ((MAX_JUMP_HEIGHT < py lower - py upper
           /\ b = mkBridge it lower upper)
          \/ (py lower - py upper <= MAX_JUMP_HEIGHT
              /\ MAX_HORIZONTAL_REACH < horizontalGap (pb lower) (pb upper)
              /\ b = mkSteppingStone it lower upper))
      /\ Adjacent (fun a c => reachable (pb a) (pb c)) (firstn (S j) l).
Proof.
  induction l as [ | lower rest IH ]; intros i0 i b H.
  - discriminate.
  - destruct rest as [ | upper rest' ]; [ discriminate | ].
    cbn [findViolation] in H.
    destruct (MAX_JUMP_HEIGHT <? py lower - py upper) eqn:EV.
    + injection H as <- <-. apply Qltb_true in EV.
      exists 0%nat, lower, upper. rewrite Nat.add_0_r.
      split; [ reflexivity | ]. split; [ reflexivity | ].
      split; [ reflexivity | ]. split; [ left; auto | ].
      intros [ | k ] a c Ha Hc; simpl in Hc; [ discriminate | ].
      destruct k; discriminate.
    + destruct (MAX_HORIZONTAL_REACH <?
                horizontalGap (val (PlatformCandidate.bounds lower))
                              (val (PlatformCandidate.bounds upper))) eqn:EH.
      * injection H as <- <-. apply Qltb_true in EH. apply Qltb_false in EV.
        exists 0%nat, lower, upper. rewrite Nat.add_0_r.
        split; [ reflexivity | ]. split; [ reflexivity | ].
        split; [ reflexivity | ]. split; [ right; auto | ].
        intros [ | k ] a c Ha Hc; simpl in Hc; [ discriminate | ].
        destruct k; discriminate.
      * destruct (IH _ _ _ H) as (j & lo & up & Hi & Hlo & Hup & Hb & Hadj).
        exists (S j), lo, up.
        split; [ lia | ]. split; [ exact Hlo | ]. split; [ exact Hup | ].
        split; [ exact Hb | ].
        intros [ | k ] a c Ha Hc.
        -- simpl in Ha, Hc. injection Ha as <-. injection Hc as <-.
           apply Qltb_false in EV, EH. split; [ exact EV | exact EH ].
        -- exact (Hadj k a c Ha Hc).
Qed.

(** *** The repair loop *)

Lemma synth_WellFormed (b lower upper : PC) :
  WellFormed lower -> WellFormed upper ->
  py b == midY lower upper ->
  0.02 <= px b <= 0.85 ->
  pw b == 0.15 ->
  WellFormed b.
Proof.
  unfold WellFormed, midY. intros (_ & Hl & _) (_ & Hu & _) Hy Hx Hw.
  rewrite Hy, Hw.
  assert (E : (py lower + py upper) / 2 == (1 # 2) * (py lower + py upper))
    by field.
  rewrite E. lra.
Qed.

Lemma mkBridge_Good dets it lower upper :
  WellFormed lower -> WellFormed upper -> Good dets it (mkBridge it lower upper).
Proof.
  intros Wl Wu. split.
  - apply (synth_WellFormed _ lower upper Wl Wu); unfold px, py, pw; simpl;
      try reflexivity.
    apply (clamp_bounds _ 0.02 0.85). lra.
  - unfold Provenance. simpl. auto.
Qed.

Lemma mkSteppingStone_Good dets it lower upper :
  WellFormed lower -> WellFormed upper ->
  Good dets it (mkSteppingStone it lower upper).
Proof.
  intros Wl Wu. split.
  - apply (synth_WellFormed _ lower upper Wl Wu); unfold px, py, pw; simpl;
      try reflexivity.
    apply (clamp_bounds _ 0.02 0.85). lra.
  - unfold Provenance. simpl. auto.
Qed.

Lemma repairBody_iterations (st : RepairState) :
  iterations (repairBody st) = S (iterations st).
Proof.
  unfold repairBody.
  destruct (findViolation (S (iterations st)) 0 (platforms st)) as [[i b] | ];
    reflexivity.
Qed.

Lemma repairBody_Inv dets (st : RepairState) :
  Inv dets (iterations st) (platforms st) ->
  Inv dets (iterations (repairBody st)) (platforms (repairBody st)).
Proof.
  intro I. rewrite repairBody_iterations. unfold repairBody.
  destruct (findViolation (S (iterations st)) 0 (platforms st))
    as [[i b] | ] eqn:E; cbn [platforms].
  - apply sortDesc_Inv.
    destruct (findViolation_some _ _ _ _ _ E)
      as (j & lower & upper & Hi & Hlo & Hup & Hb & _).
    simpl in Hi. subst j.
    destruct I as [(tl & Etl & Ftl) F N].
    assert (Wl : WellFormed lower).
    { rewrite Forall_forall in F. apply (F lower).
      eapply nth_error_In; eassumption. }
    assert (Wu : WellFormed upper).
    { rewrite Forall_forall in F. apply (F upper).
      eapply nth_error_In; eassumption. }
    assert (Gb : Good dets (S (iterations st)) b).
    { destruct Hb as [[_ ->] | (_ & _ & ->)];
        [ now apply mkBridge_Good | now apply mkSteppingStone_Good ]. }
    assert (Rb : pref b = RefBridge (S (iterations st))).
    { destruct Hb as [[_ ->] | (_ & _ & ->)]; reflexivity. }
    assert (Yb : py b == midY lower upper).
    { destruct Hb as [[_ ->] | (_ & _ & ->)]; reflexivity. }
    assert (Yu : py upper < 0.92).
    { rewrite Etl in Hup. simpl in Hup.
      rewrite Forall_forall in Ftl. apply Ftl.
      eapply nth_error_In; eassumption. }
    split.
    + rewrite Etl, Nat.add_1_r, splice_cons.
      exists (splice i b tl). split; [ reflexivity | ].
      eapply Permutation_Forall; [ symmetry; apply splice_perm | ].
      constructor; [ | exact Ftl ].
      rewrite Yb. unfold midY.
      destruct Wl as (_ & Hl & _).
      assert (Eh : (py lower + py upper) / 2
                   == (1 # 2) * (py lower + py upper)) by field.
      rewrite Eh. lra.
    + eapply Permutation_Forall; [ symmetry; apply splice_perm | ].
      constructor; [ exact Gb | ].
      eapply Forall_impl; [ | exact F ].
      intros p. apply Good_mono. lia.
    + eapply Permutation_NoDup;
        [ apply Permutation_map; symmetry; apply splice_perm | ].
      simpl. constructor; [ | exact N ].
      intro Hin. apply in_map_iff in Hin. destruct Hin as (p & Hp & Hin).
      rewrite Forall_forall in F. destruct (F p Hin) as [_ Pp].
      unfold Provenance in Pp. rewrite Hp, Rb in Pp.
      destruct Pp as [Hle _]. lia.
  - apply sortDesc_Inv. destruct I as [G F N]. split; auto.
    eapply Forall_impl; [ | exact F ]. intros p. apply Good_mono. lia.
Qed.

Lemma repairLoop_Inv dets (fuel : nat) :
  forall st,
    Inv dets (iterations st) (platforms st) ->
    Inv dets (iterations (repairLoop fuel st)) (platforms (repairLoop fuel st)).
Proof.
  induction fuel as [ | fuel IH ]; intros st I; simpl.
  - exact I.
  - destruct (repairCond st); [ | exact I ].
    apply IH. now apply repairBody_Inv.
Qed.

(** The loop stops because its condition is false, never for lack of fuel. *)
Lemma repairLoop_exits (fuel : nat) :
  forall st, (10 <= iterations st + fuel)%nat ->
             repairCond (repairLoop fuel st) = false.
Proof.
  induction fuel as [ | fuel IH ]; intros st H; simpl.
  - unfold repairCond.
    assert (E : (iterations st <? 10)%nat = false) by (apply Nat.ltb_ge; lia).
    rewrite E. apply andb_false_r.
  - destruct (repairCond st) eqn:C; [ | exact C ].
    apply IH. rewrite repairBody_iterations. lia.
Qed.

Lemma repair_exits (initial : list PC) : repairCond (repair initial) = false.
Proof. unfold repair. apply repairLoop_exits. simpl. lia. Qed.

Lemma repairLoop_iterations (fuel : nat) :
  forall st, (iterations st <= 10)%nat ->
             (iterations (repairLoop fuel st) <= 10)%nat.
Proof.
  induction fuel as [ | fuel IH ]; intros st H; simpl.
  - exact H.
  - destruct (repairCond st) eqn:C; [ | exact H ].
    apply IH. rewrite repairBody_iterations.
    unfold repairCond in C. apply andb_prop in C. destruct C as [_ C].
    apply Nat.ltb_lt in C. lia.
Qed.

(** Either the last scan found nothing, or the cap of 10 was reached. *)
Lemma repair_exit_cases (initial : list PC) :
  bridgesInserted (repair initial) = false
  \/ (bridgesInserted (repair initial) = true
      /\ iterations (repair initial) = 10%nat).
Proof.
  pose proof (repair_exits initial) as C.
  assert (L : (iterations (repair initial) <= 10)%nat).
  { unfold repair. apply repairLoop_iterations. simpl. lia. }
  unfold repairCond in C.
  destruct (bridgesInserted (repair initial)); [ right | now left ].
  simpl in C. apply Nat.ltb_ge in C. split; [ reflexivity | lia ].
Qed.

Lemma repairBody_Settled (st : RepairState) :
  Settled st -> Settled (repairBody st).
Proof.
  intros [Hs _]. unfold repairBody.
  destruct (findViolation (S (iterations st)) 0 (platforms st))
    as [[i b] | ] eqn:E; split; cbn [platforms bridgesInserted].
  - apply (sortBy_sorted byYDesc byYDesc_total).
  - discriminate.
  - apply (sortBy_sorted byYDesc byYDesc_total).
  - intros _. rewrite (sortBy_id _ _ Hs).
    exact (findViolation_none _ _ _ E).
Qed.

Lemma repairLoop_Settled (fuel : nat) :
  forall st, Settled st -> Settled (repairLoop fuel st).
Proof.
  induction fuel as [ | fuel IH ]; intros st H; simpl.
  - exact H.
  - destruct (repairCond st); [ | exact H ].
    apply IH. now apply repairBody_Settled.
Qed.

Lemma repair_Settled (initial : list PC) : Settled (repair initial).
Proof.
  unfold repair. apply repairLoop_Settled. split; cbn [platforms bridgesInserted].
  - apply (sortBy_sorted byYDesc byYDesc_total).
  - discriminate.
Qed.

(** *** The final platform list *)

Lemma finalPlatforms_firstn dets :
  finalPlatforms dets = firstn 12 (platforms (repaired dets)).
Proof. apply capLength_firstn. Qed.

Lemma repaired_Inv dets :
  Inv dets (iterations (repaired dets)) (platforms (repaired dets)).
Proof.
  unfold repaired, repair. apply repairLoop_Inv. cbn [iterations platforms].
  apply sortDesc_Inv, initialPlatforms_Inv.
Qed.

Lemma finalPlatforms_Inv dets :
  Inv dets (iterations (repaired dets)) (finalPlatforms dets).
Proof.
  rewrite finalPlatforms_firstn.
  destruct (repaired_Inv dets) as [(tl & E & Ftl) F N]. split.
  - rewrite E. exists (firstn 11 tl). split; [ reflexivity | ].
    now apply Forall_firstn.
  - now apply Forall_firstn.
  - now apply NoDup_map_firstn.
Qed.

Lemma finalPlatforms_ground dets :
  exists tl, finalPlatforms dets = groundCandidate :: tl.
Proof.
  destruct (finalPlatforms_Inv dets) as [(tl & E & _) _ _]. now exists tl.
Qed.

Lemma finalPlatforms_length dets :
  (1 <= length (finalPlatforms dets) <= 12)%nat.
Proof.
  split.
  - destruct (finalPlatforms_ground dets) as (tl & ->). simpl. lia.
  - rewrite finalPlatforms_firstn. apply firstn_le_length.
Qed.

(** ** Scene objects and the enemy loop *)

Lemma anchored_refl o : anchored o o.
Proof. now left. Qed.

Lemma anchored_trans o1 o2 o3 :
  anchored o1 o2 -> anchored o2 o3 -> anchored o1 o3.
Proof.
  intros [-> | ->] [-> | ->]; [ now left | now right | now right | now right ].
Qed.

Lemma Forall2_anchored_refl l : Forall2 anchored l l.
Proof. induction l; constructor; auto using anchored_refl. Qed.

Lemma Forall2_anchored_trans l1 l2 l3 :
  Forall2 anchored l1 l2 -> Forall2 anchored l2 l3 -> Forall2 anchored l1 l3.
Proof.
  intro H. revert l3. induction H; intros l3 H3; inversion H3; subst;
    constructor; eauto using anchored_trans.
Qed.

Lemma markAnchor_anchored plat objs : Forall2 anchored objs (markAnchor plat objs).
Proof.
  induction objs as [ | o rest IH ]; simpl.
  - constructor.
  - destruct (isObjectOf plat o).
    + constructor; [ now right | apply Forall2_anchored_refl ].
    + constructor; [ now left | exact IH ].
Qed.

Lemma enemyLoop_anchored chosen :
  forall enemies objs,
    Forall2 anchored objs (snd (enemyLoop chosen enemies objs)).
Proof.
  induction chosen as [ | plat rest IH ]; intros enemies objs; simpl.
  - apply Forall2_anchored_refl.
  - eapply Forall2_anchored_trans; [ apply markAnchor_anchored | apply IH ].
Qed.

Lemma enemyLoop_enemies chosen :
  forall enemies objs,
    fst (enemyLoop chosen enemies objs) = enemies ++ map enemyOn chosen.
Proof.
  induction chosen as [ | plat rest IH ]; intros enemies objs; simpl.
  - now rewrite app_nil_r.
  - rewrite IH, <- app_assoc. reflexivity.
Qed.

(** Whatever does not read [enemy_spawn_anchor] is left as built. *)
Lemma anchored_map {B : Type} (f : SceneObject.t -> B) l l' :
  (forall o, f (setAnchor o) = f o) ->
  Forall2 anchored l l' -> map f l' = map f l.
Proof.
  intros Hf H. induction H as [ | o o' l l' [-> | ->] _ IH ]; simpl.
  - reflexivity.
  - now rewrite IH.
  - now rewrite IH, Hf.
Qed.

Lemma anchored_filter_platform l l' :
  Forall2 anchored l l' ->
  Forall2 anchored (filter isPlatformObject l) (filter isPlatformObject l').
Proof.
  intro H. induction H as [ | o o' l l' [-> | ->] _ IH ]; simpl.
  - constructor.
  - destruct (isPlatformObject o); [ constructor; auto using anchored_refl | auto ].
  - change (isPlatformObject (setAnchor o)) with (isPlatformObject o).
    destruct (isPlatformObject o); [ constructor; [ now right | auto ] | auto ].
Qed.

Lemma anchored_In l l' o' :
  Forall2 anchored l l' -> In o' l' -> exists o, In o l /\ anchored o o'.
Proof.
  intro H. induction H as [ | o o1 l l' Ho _ IH ]; intro Hin.
  - contradiction.
  - destruct Hin as [<- | Hin].
    + exists o. split; [ now left | exact Ho ].
    + destruct (IH Hin) as (o2 & Hin2 & Ha). exists o2. split; [ now right | exact Ha ].
Qed.

Lemma anchored_nth l l' :
  Forall2 anchored l l' ->
  forall i o, nth_error l i = Some o ->
              exists o', nth_error l' i = Some o' /\ anchored o o'.
Proof.
  intro H. induction H as [ | o1 o2 l l' Ho _ IH ]; intros i o Hi.
  - destruct i; discriminate.
  - destruct i as [ | i ]; simpl in *.
    + injection Hi as <-. exists o2. split; [ reflexivity | exact Ho ].
    + exact (IH i o Hi).
Qed.

Lemma filter_pushAll_platform plats c :
  filter isPlatformObject (pushAll platformObject c plats)
  = pushAll platformObject c plats.
Proof.
  revert c. induction plats as [ | p rest IH ]; intro c; simpl.
  - reflexivity.
  - now rewrite IH.
Qed.

Lemma filter_pushAll_obstacle l c :
  filter isPlatformObject (pushAll obstacleObject c l) = [].
Proof.
  revert c. induction l as [ | [k d] rest IH ]; intro c; simpl; auto.
Qed.

Lemma filter_pushAll_collectible l c :
  filter isPlatformObject (pushAll collectibleObject c l) = [].
Proof.
  revert c. induction l as [ | [k d] rest IH ]; intro c; simpl; auto.
Qed.

Lemma builtObjects_platforms plats ex :
  filter isPlatformObject (builtObjects plats ex)
  = pushAll platformObject 0 plats.
Proof.
  unfold builtObjects. rewrite !filter_app.
  rewrite filter_pushAll_platform, filter_pushAll_obstacle,
    filter_pushAll_collectible, !app_nil_r.
  reflexivity.
Qed.

(** ** The shape of the result *)

(** [buildLevel] never throws, and its result is assembled from the final
    platform list as follows. *)
Lemma buildLevel_shape (input : DetectionResponse.t) :
  let dets := DetectionResponse.detections input in
  let plats := finalPlatforms dets in
  exists highestPlat objects,
    findHighestPlat plats = Some highestPlat
    /\ objects = snd (enemyLoop (enemyPlatforms plats) []
                                (builtObjects plats (extractFrom 0 dets)))
    /\ buildLevel input
       = Some (sceneOf (DetectionResponse.image input) plats highestPlat objects).
Proof.
  intros dets plats. unfold buildLevel, assemble. fold dets. fold plats.
  destruct (finalPlatforms_ground dets) as (tl & E). fold plats in E.
  destruct (sortBy_nonempty byYAsc plats) as (hp & Hhp).
  { rewrite E. discriminate. }
  exists hp, (snd (enemyLoop (enemyPlatforms plats) []
                             (builtObjects plats (extractFrom 0 dets)))).
  split; [ exact Hhp | ]. split; [ reflexivity | ].
  assert (G : findGroundPlat plats = Some groundCandidate)
    by (rewrite E; reflexivity).
  rewrite G. unfold findHighestPlat in *. rewrite Hhp.
  pose proof (enemyLoop_enemies (enemyPlatforms plats) []
                (builtObjects plats (extractFrom 0 dets))) as He.
  destruct (enemyLoop (enemyPlatforms plats) []
                      (builtObjects plats (extractFrom 0 dets))) as [en ob].
  simpl in He. subst en. reflexivity.
Qed.

(** ** Platform objects of the emitted scene *)

Lemma emitted_anchored image plats hp ex :
  Forall2 anchored
    (pushAll platformObject 0 plats)
    (emittedPlatforms
       (sceneOf image plats hp
          (snd (enemyLoop (enemyPlatforms plats) [] (builtObjects plats ex))))).
Proof.
  unfold emittedPlatforms, sceneOf. cbn [SceneV1.objects].
  rewrite <- (builtObjects_platforms plats ex).
  apply anchored_filter_platform, enemyLoop_anchored.
Qed.

Lemma pushAll_platform_bounds plats c :
  map objBounds (pushAll platformObject c plats) = map pb plats.
Proof.
  revert c. induction plats as [ | p rest IH ]; intro c; simpl.
  - reflexivity.
  - now rewrite IH.
Qed.

Lemma emitted_bounds image plats hp ex :
  map objBounds
      (emittedPlatforms
         (sceneOf image plats hp
            (snd (enemyLoop (enemyPlatforms plats) [] (builtObjects plats ex)))))
  = map pb plats.
Proof.
  rewrite (anchored_map objBounds _ _ (fun o => eq_refl)
             (emitted_anchored image plats hp ex)).
  apply pushAll_platform_bounds.
Qed.

Lemma finalPlatforms_sorted dets :
  Adjacent below (map pb (finalPlatforms dets)).
Proof.
  rewrite finalPlatforms_firstn.
  apply Adjacent_map, Adjacent_firstn.
  destruct (repair_Settled (initialPlatforms dets)) as [Hs _].
  apply Adjacent_Sorted in Hs.
  intros i a c Ha Hc. specialize (Hs i a c Ha Hc).
  unfold inOrder, byYDesc, py in Hs. unfold below, pb. lra.
Qed.

Lemma finalPlatforms_reachable dets :
  bridgesInserted (repaired dets) = false ->
  Adjacent reachable (map pb (finalPlatforms dets)).
Proof.
  intro H. rewrite finalPlatforms_firstn.
  apply Adjacent_map, Adjacent_firstn.
  destruct (repair_Settled (initialPlatforms dets)) as [_ Hr].
  exact (Hr H).
Qed.

(** A violation left in the final list means that the loop was stopped by
    its cap of 10 iterations. *)
Lemma violation_only_at_cap dets :
  ~ Adjacent reachable (map pb (finalPlatforms dets)) ->
  bridgesInserted (repaired dets) = true
  /\ iterations (repaired dets) = 10%nat.
Proof.
  intro V.
  destruct (repair_exit_cases (initialPlatforms dets)) as [E | E];
    [ | exact E ].
  exfalso. apply V. now apply finalPlatforms_reachable.
Qed.

(** The object built for the ground is the first platform object. *)
Lemma ground_object image plats hp ex :
  nth_error plats 0 = Some groundCandidate ->
  exists g,
    In g (emittedPlatforms
            (sceneOf image plats hp
               (snd (enemyLoop (enemyPlatforms plats) []
                               (builtObjects plats ex)))))
    /\ anchored (platformObject 0 groundCandidate) g.
Proof.
  intro H.
  destruct (anchored_nth _ _ (emitted_anchored image plats hp ex) 0%nat
              (platformObject 0 groundCandidate)) as (g & Hg & Ha).
  { now rewrite (pushAll_nth platformObject plats 0 0 groundCandidate H). }
  exists g. split; [ eapply nth_error_In; exact Hg | exact Ha ].
Qed.

(** ** Auxiliary facts for the statements *)

Lemma placePickups_length plats groundPlat :
  (2 <= length (placePickups plats groundPlat))%nat.
Proof.
  unfold placePickups.
  set (p1 := pickupLoop 0 (filter isPickupPlatform plats) []).
  set (p2 := if (length p1 <? 3)%nat
             then bridgePickupLoop (filter PlatformCandidate.isBridge plats) p1
             else p1).
  destruct (length p2 <? 3)%nat eqn:E.
  - rewrite length_app. simpl. lia.
  - apply Nat.ltb_ge in E. lia.
Qed.

Lemma clamp_compat (v v' lo hi : Q) :
  v == v' -> clamp v lo hi == clamp v' lo hi.
Proof. intro H. unfold clamp. now rewrite H. Qed.

Lemma In_map_pb_emitted image plats hp ex (p : PC) :
  In p plats ->
  exists o,
    In o (SceneV1.objects
            (sceneOf image plats hp
               (snd (enemyLoop (enemyPlatforms plats) []
                               (builtObjects plats ex)))))
    /\ SceneObject.type o = platform
    /\ objBounds o = pb p.
Proof.
  intro Hin.
  pose proof (emitted_bounds image plats hp ex) as E.
  apply (in_map pb) in Hin. rewrite <- E in Hin.
  apply in_map_iff in Hin. destruct Hin as (o & Ho & Hin).
  apply filter_In in Hin. destruct Hin as [Hin Hty].
  exists o. split; [ exact Hin | split; [ | exact Ho ] ].
  unfold isPlatformObject in Hty.
  destruct (SceneObject.type o); simpl in Hty; congruence.
Qed.

Lemma platform_object_source image plats hp ex (o : SceneObject.t) :
  In o (SceneV1.objects
          (sceneOf image plats hp
             (snd (enemyLoop (enemyPlatforms plats) []
                             (builtObjects plats ex))))) ->
  SceneObject.type o = platform ->
  exists i p, nth_error plats i = Some p
              /\ anchored (platformObject i p) o.
Proof.
  intros Hin Hty.
  assert (Hp : In o (emittedPlatforms
                       (sceneOf image plats hp
                          (snd (enemyLoop (enemyPlatforms plats) []
                                          (builtObjects plats ex)))))).
  { apply filter_In. split; [ exact Hin | ].
    unfold isPlatformObject. now rewrite Hty. }
  destruct (anchored_In _ _ _ (emitted_anchored _ _ _ _) Hp) as (o0 & Hin0 & Ha).
  apply pushAll_In in Hin0. destruct Hin0 as (i & p & Hi & ->).
  exists i, p. split; [ exact Hi | exact Ha ].
Qed.

Lemma Category_eqb_eq (a b : Category) : Category_eqb a b = true <-> a = b.
Proof. destruct a, b; simpl; split; congruence. Qed.

(** The [n]-th food detection of the input is the [n]-th element of
    [collectibleDetections]. *)
Lemma collectibleDetections_nth (dets : list Detection.t) :
  forall k0 k d,
    nth_error dets k = Some d ->
    Detection.category d = food ->
    nth_error (collectibleDetections (extractFrom k0 dets))
              (length (filter isFood (firstn k dets)))
    = Some ((k0 + k)%nat, d).
Proof.
  induction dets as [ | d0 rest IH ]; intros k0 k d Hk Hf.
  - destruct k; discriminate.
  - destruct k as [ | k ].
    + simpl in Hk. injection Hk as ->.
      cbn [firstn filter length extractFrom].
      apply Category_eqb_eq in Hf. rewrite Hf.
      cbn [collectibleDetections nth_error]. now rewrite Nat.add_0_r.
    + simpl in Hk. cbn [firstn filter extractFrom]. unfold isFood at 1.
      specialize (IH (S k0) k d Hk Hf).
      replace (k0 + S k)%nat with (S k0 + k)%nat by lia.
      destruct (Category_eqb (Detection.category d0) food).
      * cbn [collectibleDetections length nth_error]. exact IH.
      * destruct (Bounds.w (platBoundsOf d0) <? MIN_PLATFORM_WIDTH);
          cbn [collectibleDetections]; exact IH.
Qed.

(** Conversely, what the extraction loop remembers: the [n]-th element
    of [collectibleDetections] is the [n]-th food detection of the input,
    with its position; an element of [obstacleDetections] is a detection
    that is not food, with its position. *)
Lemma extracted_positions (dets : list Detection.t) :
  forall k0,
    (forall n j d,
        nth_error (collectibleDetections (extractFrom k0 dets)) n
        = Some (j, d) ->
        (k0 <= j)%nat
        /\ nth_error dets (j - k0) = Some d
        /\ Detection.category d = food
        /\ n = length (filter isFood (firstn (j - k0) dets)))
    /\ (forall n j d,
           nth_error (obstacleDetections (extractFrom k0 dets)) n
           = Some (j, d) ->
           (k0 <= j)%nat
           /\ nth_error dets (j - k0) = Some d
           /\ Detection.category d <> food).
Proof.
  induction dets as [ | d0 rest IH ]; intro k0.
  - split; intros n j d H; destruct n; discriminate H.
  - destruct (IH (S k0)) as [Hc Ho].
    assert (Sc : forall n j d,
               nth_error (collectibleDetections (extractFrom (S k0) rest)) n
               = Some (j, d) ->
               (k0 <= j)%nat
               /\ nth_error (d0 :: rest) (j - k0) = Some d
               /\ Detection.category d = food
               /\ (if isFood d0 then S n else n)
                  = length (filter isFood (firstn (j - k0) (d0 :: rest)))).
    { intros n j d H. destruct (Hc n j d H) as (Hle & Hn & Hf & Hcount).
      replace (j - k0)%nat with (S (j - S k0)) by lia.
      cbn [nth_error firstn filter].
      split; [ lia | ]. split; [ exact Hn | ]. split; [ exact Hf | ].
      destruct (isFood d0); cbn [length]; now rewrite <- Hcount. }
    assert (So : forall n j d,
               nth_error (obstacleDetections (extractFrom (S k0) rest)) n
               = Some (j, d) ->
               (k0 <= j)%nat
               /\ nth_error (d0 :: rest) (j - k0) = Some d
               /\ Detection.category d <> food).
    { intros n j d H. destruct (Ho n j d H) as (Hle & Hn & Hf).
      replace (j - k0)%nat with (S (j - S k0)) by lia.
      split; [ lia | ]. split; [ exact Hn | exact Hf ]. }
    cbn [extractFrom]. unfold isFood in Sc at 1.
    destruct (Category_eqb (Detection.category d0) food) eqn:Ef;
      [ | destruct (Bounds.w (platBoundsOf d0) <? MIN_PLATFORM_WIDTH) ];
      cbn [collectibleDetections obstacleDetections]; split;
      intros n j d H; eauto.
    + destruct n as [ | n ].
      * injection H as <- <-. rewrite Nat.sub_diag.
        split; [ lia | ]. split; [ reflexivity | ].
        split; [ now apply Category_eqb_eq | reflexivity ].
      * exact (Sc n j d H).
    + destruct n as [ | n ].
      * injection H as <- <-. rewrite Nat.sub_diag.
        split; [ lia | ]. split; [ reflexivity | ].
        intro Hf. apply Category_eqb_eq in Hf. congruence.
      * exact (So n j d H).
Qed.

(** Where an object of the array [objects] comes from: a platform of the
    final list, one of the first four narrow detections, or one of the
    first five food detections. *)
Lemma built_object_source (dets : list Detection.t) (o : SceneObject.t) :
  In o (snd (enemyLoop (enemyPlatforms (finalPlatforms dets)) []
                       (builtObjects (finalPlatforms dets)
                                     (extractFrom 0 dets)))) ->
  (exists p, In p (finalPlatforms dets)
             /\ SceneObject.type o = platform
             /\ ref (SceneObject.bounds_normalized o) = pref p)
  \/ (exists k d, nth_error dets k = Some d
                  /\ Detection.category d <> food
                  /\ SceneObject.type o = obstacle
                  /\ SceneObject.bounds_normalized o
                     = At (RefInput k) (Detection.bounds_normalized d))
  \/ (exists k d, nth_error dets k = Some d
                  /\ Detection.category d = food
                  /\ (length (filter isFood (firstn k dets)) < 5)%nat
                  /\ SceneObject.type o = collectible
                  /\ SceneObject.label o = Detection.label d
                  /\ SceneObject.bounds_normalized o
                     = At (RefInput k) (Detection.bounds_normalized d)).
Proof.
  intro Hin.
  destruct (anchored_In _ _ _ (enemyLoop_anchored _ [] _) Hin)
    as (o0 & Hin0 & Ha).
  assert (Et : SceneObject.type o = SceneObject.type o0)
    by (destruct Ha as [-> | ->]; reflexivity).
  assert (El : SceneObject.label o = SceneObject.label o0)
    by (destruct Ha as [-> | ->]; reflexivity).
  assert (Eb : SceneObject.bounds_normalized o
               = SceneObject.bounds_normalized o0)
    by (destruct Ha as [-> | ->]; reflexivity).
  rewrite Et, El, Eb. clear Et El Eb Ha Hin.
  destruct (extracted_positions dets 0) as [Hc Ho].
  unfold builtObjects in Hin0.
  apply in_app_or in Hin0. destruct Hin0 as [H | H].
  - left. destruct (pushAll_In _ _ _ _ H) as (i & p & Hi & ->).
    exists p. split; [ exact (nth_error_In _ _ Hi) | ].
    split; reflexivity.
  - apply in_app_or in H. destruct H as [H | H].
    + right. left. destruct (pushAll_In _ _ _ _ H) as (i & [k d] & Hi & ->).
      rewrite nth_error_firstn in Hi.
      destruct (i <? 4)%nat; [ | discriminate ].
      destruct (Ho i k d Hi) as (_ & Hk & Hnf).
      rewrite Nat.sub_0_r in Hk.
      exists k, d. repeat split; assumption.
    + right. right.
      destruct (pushAll_In _ _ _ _ H) as (i & [k d] & Hi & ->).
      rewrite nth_error_firstn in Hi.
      destruct (i <? 5)%nat eqn:Hlt; [ | discriminate ].
      apply Nat.ltb_lt in Hlt.
      destruct (Hc i k d Hi) as (_ & Hk & Hf & Hn).
      rewrite Nat.sub_0_r in Hk, Hn.
      exists k, d. repeat split; try assumption. now rewrite <- Hn.
Qed.

Lemma anchored_In_l l l' o :
  Forall2 anchored l l' -> In o l -> exists o', In o' l' /\ anchored o o'.
Proof.
  intros H Hin. apply In_nth_error in Hin. destruct Hin as (i & Hi).
  destruct (anchored_nth _ _ H i o Hi) as (o' & Hi' & Ha).
  exists o'. split; [ eapply nth_error_In; exact Hi' | exact Ha ].
Qed.

Lemma Ref_eqb_eq (a b : Ref) : Ref_eqb a b = true <-> a = b.
Proof.
  destruct a, b; simpl; split; intro H;
    try discriminate; try reflexivity;
    try (apply Nat.eqb_eq in H; now subst);
    try (injection H as ->; apply Nat.eqb_refl).
Qed.

Lemma markAnchor_hit plat objs :
  forall i o,
    nth_error objs i = Some o ->
    isObjectOf plat o = true ->
    (forall j o', (j < i)%nat -> nth_error objs j = Some o' ->
                  isObjectOf plat o' = false) ->
    nth_error (markAnchor plat objs) i = Some (setAnchor o).
Proof.
  induction objs as [ | o0 rest IH ]; intros i o Hi Ho Hbefore.
  - destruct i; discriminate.
  - destruct i as [ | i ]; simpl in Hi |- *.
    + injection Hi as ->. now rewrite Ho.
    + rewrite (Hbefore 0%nat o0); [ | lia | reflexivity ].
      simpl. apply IH; [ exact Hi | exact Ho | ].
      intros j o' Hj Hn. apply (Hbefore (S j) o'); [ lia | exact Hn ].
Qed.

Lemma isObjectOf_anchored plat o o' :
  anchored o o' -> isObjectOf plat o' = isObjectOf plat o.
Proof. intros [-> | ->]; reflexivity. Qed.

Lemma setAnchor_anchored o o' : anchored o o' -> setAnchor o' = setAnchor o.
Proof. intros [-> | ->]; reflexivity. Qed.

(** Every platform chosen by the loop ends with its object marked: the
    first object that shares its bounds record. *)
Lemma enemyLoop_marks chosen :
  forall enemies objs plat i o,
    In plat chosen ->
    nth_error objs i = Some o ->
    isObjectOf plat o = true ->
    (forall j o', (j < i)%nat -> nth_error objs j = Some o' ->
                  isObjectOf plat o' = false) ->
    nth_error (snd (enemyLoop chosen enemies objs)) i = Some (setAnchor o).
Proof.
  induction chosen as [ | plat0 rest IH ];
    intros enemies objs plat i o Hin Hi Ho Hbefore.
  - contradiction.
  - cbn [enemyLoop].
    destruct Hin as [-> | Hin].
    + pose proof (markAnchor_hit plat objs i o Hi Ho Hbefore) as Hm.
      destruct (anchored_nth _ _
                  (enemyLoop_anchored rest (enemies ++ [enemyOn plat])
                     (markAnchor plat objs)) i _ Hm) as (o' & Hi' & Ha).
      rewrite Hi'. f_equal.
      destruct Ha as [-> | ->]; reflexivity.
    + pose proof (markAnchor_anchored plat0 objs) as A.
      destruct (anchored_nth _ _ A i o Hi) as (o1 & Hi1 & Ha1).
      rewrite <- (setAnchor_anchored _ _ Ha1).
      apply (IH _ _ plat); [ exact Hin | exact Hi1 | | ].
      * now rewrite (isObjectOf_anchored plat _ _ Ha1).
      * intros j o' Hj Hn.
        destruct (nth_error objs j) as [oj | ] eqn:Ej.
        -- destruct (anchored_nth _ _ A j oj Ej) as (oj' & Hj' & Haj).
           rewrite Hn in Hj'. injection Hj' as <-.
           rewrite (isObjectOf_anchored plat _ _ Haj).
           now apply (Hbefore j).
        -- exfalso. apply nth_error_None in Ej.
           assert (nth_error (markAnchor plat0 objs) j <> None)
             by (rewrite Hn; discriminate).
           apply nth_error_Some in H.
           rewrite <- (Forall2_length A) in H. lia.
Qed.

Lemma builtObjects_nth plats ex i p :
  nth_error plats i = Some p ->
  nth_error (builtObjects plats ex) i = Some (platformObject i p).
Proof.
  intro H. unfold builtObjects.
  rewrite nth_error_app1.
  - exact (pushAll_nth platformObject plats 0 i p H).
  - rewrite pushAll_length. apply nth_error_Some. rewrite H. discriminate.
Qed.

(** ** Evaluation on sample inputs *)

(** Two wide platforms at y = 0.10 and y = 0.80: the engine inserts a
    bridge at y = 0.45 (and two more), and leaves after four passes. *)
Example two_shelves_bridged :
  let st := repaired [detection "high" furniture 0.1 0.10 0.8 0.1;
                      detection "low" furniture 0.1 0.80 0.8 0.1] in
  bridgesInserted st = false
  /\ iterations st = 4%nat
  /\ map PlatformCandidate.label (platforms st)
     = ["ground"; "low"; "bridge"; "bridge"; "bridge"; "high"]%string
  /\ exists b, In b (platforms st)
               /\ PlatformCandidate.isBridge b = true /\ py b == 0.45.
Proof.
  split; [ vm_compute; reflexivity | ].
  split; [ vm_compute; reflexivity | ].
  split; [ vm_compute; reflexivity | ].
  eexists. split.
  - vm_compute. right. right. right. left. reflexivity.
  - split; reflexivity.
Qed.

(** Nine ledges in zigzag need eleven insertions: the loop is stopped by
    its cap, the pair (R4, L5) is still too far apart, and the cap at 12
    drops the upper eight platforms. *)
Example zigzag_reaches_cap :
  let st := repaired zigzag in
  bridgesInserted st = true
  /\ iterations st = 10%nat
  /\ length (platforms st) = 20%nat
  /\ (exists b, findViolation 11 0 (platforms st) = Some (18%nat, b))
  /\ map PlatformCandidate.label (finalPlatforms zigzag)
     = ["ground"; "bridge"; "bridge"; "bridge"; "L1"; "stepping stone"; "R1";
        "stepping stone"; "L2"; "stepping stone"; "R2";
        "stepping stone"]%string.
Proof.
  split; [ vm_compute; reflexivity | ].
  split; [ vm_compute; reflexivity | ].
  split; [ vm_compute; reflexivity | ].
  split; [ eexists; vm_compute; reflexivity | ].
  vm_compute. reflexivity.
Qed.

(** The same in binary64 arithmetic. *)
Example zigzag_reaches_cap_binary64 :
  let st := Double.repaired Double.zigzag in
  Double.bridgesInserted st = true
  /\ Double.iterations st = 10%nat
  /\ length (Double.platforms st) = 20%nat
  /\ (exists b, Double.findViolation 11 0 (Double.platforms st)
                = Some (18%nat, b))
  /\ map Double.PlatformCandidate.label (Double.finalPlatforms Double.zigzag)
     = ["ground"; "bridge"; "bridge"; "bridge"; "L1"; "stepping stone"; "R1";
        "stepping stone"; "L2"; "stepping stone"; "R2";
        "stepping stone"]%string.
Proof.
  split; [ vm_compute; reflexivity | ].
  split; [ vm_compute; reflexivity | ].
  split; [ vm_compute; reflexivity | ].
  split; [ eexists; vm_compute; reflexivity | ].
  vm_compute. reflexivity.
Qed.

(** Elements that compare equal keep their order. *)
Example sort_is_stable :
  map PlatformCandidate.label
      (sortBy byYDesc
         [candidateOf 0 (detection "a" furniture 0.0 0.5 0.2 0.1);
          candidateOf 1 (detection "b" furniture 0.6 0.7 0.2 0.1);
          candidateOf 2 (detection "c" furniture 0.3 0.5 0.2 0.1)])
  = ["b"; "a"; "c"]%string.
Proof. vm_compute. reflexivity. Qed.

(* ================================================================== *)
(** * Claims                                                           *)
(* ================================================================== *)

(** C1. If the repair loop stops before its cap of 10 iterations, that is,
    if its last scan found no violation, then the platform objects of the
    emitted scene are in bottom-to-top order (descending y) and every
    consecutive pair (lower, upper) has lower.y - upper.y <= 0.25 and
    horizontalGap(lower, upper) <= 0.40.  (Contrapositive, with
    [repair_exit_cases]: a violation remains only at the cap.) *)
Theorem reachability_after_repair (input : DetectionResponse.t) :
  (iterations (repaired (DetectionResponse.detections input)) < 10)%nat
  \/ bridgesInserted (repaired (DetectionResponse.detections input)) = false ->
  exists scene,
    buildLevel input = Some scene
    /\ Adjacent below (map objBounds (emittedPlatforms scene))
    /\ Adjacent reachable (map objBounds (emittedPlatforms scene)).
Proof.
  intro H.
  assert (Hb : bridgesInserted (repaired (DetectionResponse.detections input))
               = false).
  { destruct H as [H | H]; [ | exact H ].
    destruct (repair_exit_cases
                (initialPlatforms (DetectionResponse.detections input)))
      as [E | [_ E]]; [ exact E | ].
    unfold repaired in H. lia. }
  destruct (buildLevel_shape input) as (hp & objs & _ & -> & E).
  eexists. split; [ exact E | ].
  rewrite emitted_bounds. split.
  - apply finalPlatforms_sorted.
  - now apply finalPlatforms_reachable.
Qed.

Lemma reachability_after_repair_witness :
  bridgesInserted (repaired (DetectionResponse.detections in_shelf_top)) = false
  /\ exists scene,
       buildLevel in_shelf_top = Some scene
       /\ Adjacent below (map objBounds (emittedPlatforms scene))
       /\ Adjacent reachable (map objBounds (emittedPlatforms scene)).
Proof.
  split.
  - vm_compute. reflexivity.
  - apply (reachability_after_repair in_shelf_top).
    right. vm_compute. reflexivity.
Defined.

(** C2. For every input the emitted scene has at least 1 and at most 12
    objects of type platform, and the synthetic ground platform is among
    them. *)
Theorem platform_count_bounds (input : DetectionResponse.t) :
  exists scene,
    buildLevel input = Some scene
    /\ (1 <= length (emittedPlatforms scene) <= 12)%nat
    /\ exists g,
         In g (emittedPlatforms scene)
         /\ SceneObject.id g = "ground_0"%string
         /\ SceneObject.label g = "ground"%string
         /\ SceneObject.bounds_normalized g
            = At RefGround (Bounds.mk 0.0 0.92 1.0 PLATFORM_THICKNESS).
Proof.
  destruct (buildLevel_shape input) as (hp & objs & _ & -> & E).
  eexists. split; [ exact E | ].
  pose proof (emitted_anchored
                (DetectionResponse.image input)
                (finalPlatforms (DetectionResponse.detections input)) hp
                (extractFrom 0 (DetectionResponse.detections input))) as A.
  split.
  - rewrite <- (Forall2_length A), pushAll_length.
    apply finalPlatforms_length.
  - destruct (finalPlatforms_ground (DetectionResponse.detections input))
      as (tl & Eg).
    destruct (ground_object
                (DetectionResponse.image input)
                (finalPlatforms (DetectionResponse.detections input)) hp
                (extractFrom 0 (DetectionResponse.detections input)))
      as (g & Hin & Hg).
    { now rewrite Eg. }
    exists g. split; [ exact Hin | ].
    destruct Hg as [-> | ->]; repeat split; reflexivity.
Qed.

(** C3, as stated, fails: with one narrow shelf on the left, at (0.1, 0.7)
    and 0.2 wide, the exit is put at (0.7, 0.64), to the right of the
    shelf, and no platform object carries it. *)
Lemma spawns_on_platform_counterexample :
  exists scene,
    buildLevel in_low_shelf = Some scene
    /\ ~ exists o, In o (SceneV1.objects scene)
                   /\ liesOn (Spawns.exit (SceneV1.spawns scene)) o.
Proof.
  eexists. split; [ vm_compute; reflexivity | ].
  intros (o & Hin & _ & Hy & _ & Hx).
  cbn [SceneV1.objects] in Hin.
  destruct Hin as [<- | [<- | []]].
  - vm_compute in Hy. discriminate.
  - vm_compute in Hx. apply Hx. reflexivity.
Qed.

(** C3, amended.  The player spawn lies on the ground platform object.
    The exit spawn has y = p.y - 0.06 for a platform object p of smallest
    y, and x = clamp(p.x + p.w - 0.05, 0.7, 0.95), a value in [0.7, 0.95];
    that x is within the span of p whenever p.x + p.w - 0.05 >= 0.7. *)
Theorem spawns_on_platforms (input : DetectionResponse.t) :
  exists scene,
    buildLevel input = Some scene
    /\ (exists g,
           In g (SceneV1.objects scene)
           /\ SceneObject.label g = "ground"%string
           /\ liesOn (Spawns.player (SceneV1.spawns scene)) g)
    /\ (exists p,
           In p (SceneV1.objects scene)
           /\ SceneObject.type p = platform
           /\ (forall o, In o (SceneV1.objects scene) ->
                         SceneObject.type o = platform ->
                         Bounds.y (objBounds p) <= Bounds.y (objBounds o))
           /\ SpawnPoint.y (Spawns.exit (SceneV1.spawns scene))
              == Bounds.y (objBounds p) - ENTITY_OFFSET_Y
           /\ SpawnPoint.x (Spawns.exit (SceneV1.spawns scene))
              == clamp (Bounds.x (objBounds p) + Bounds.w (objBounds p) - 0.05)
                       0.7 0.95
           /\ 0.7 <= SpawnPoint.x (Spawns.exit (SceneV1.spawns scene)) <= 0.95
           /\ (0.7 <= Bounds.x (objBounds p) + Bounds.w (objBounds p) - 0.05 ->
               liesOn (Spawns.exit (SceneV1.spawns scene)) p)).
Proof.
  destruct (buildLevel_shape input) as (hp & objs & Hhp & -> & E).
  set (dets := DetectionResponse.detections input) in *.
  set (plats := finalPlatforms dets) in *.
  eexists. split; [ exact E | ].
  destruct (finalPlatforms_Inv dets) as [(tl & Eg & _) F _]. fold plats in Eg, F.
  destruct (sortBy_head byYAsc byYAsc_total byYAsc_trans _ _ Hhp)
    as [Hin Hmin].
  split.
  - destruct (ground_object (DetectionResponse.image input) plats hp
                (extractFrom 0 dets)) as (g & Hing & Hg).
    { now rewrite Eg. }
    apply filter_In in Hing. destruct Hing as [Hing _].
    exists g. split; [ exact Hing | ].
    destruct Hg as [-> | ->]; (split; [ reflexivity | ]);
      (split; [ reflexivity | ]);
      (split; [ reflexivity | ]);
      split; vm_compute; discriminate.
  - destruct (In_map_pb_emitted (DetectionResponse.image input) plats hp
                (extractFrom 0 dets) hp Hin) as (o & Ho & Hty & Hb).
    exists o. split; [ exact Ho | ]. split; [ exact Hty | ].
    assert (W : WellFormed hp).
    { rewrite Forall_forall in F. now apply (F hp). }
    destruct W as ((Hx0 & Hx1) & _ & (Hw0 & Hw1)).
    unfold px, pw in *. fold (pb hp) in *.
    rewrite Hb.
    assert (Hc : 0.7 <= clamp (Bounds.x (pb hp) + Bounds.w (pb hp) - 0.05)
                              0.7 0.95 <= 0.95)
      by (apply clamp_bounds; lra).
    split.
    { intros o' Hin' Hty'.
      destruct (platform_object_source _ _ _ _ _ Hin' Hty')
        as (i & p & Hi & Ha).
      assert (Eb : objBounds o' = pb p) by (destruct Ha as [-> | ->]; reflexivity).
      rewrite Eb.
      specialize (Hmin p (nth_error_In _ _ Hi)).
      unfold inOrder, byYAsc, py in Hmin. unfold pb. lra. }
    cbn [SceneV1.spawns sceneOf Spawns.exit exitSpawnOn SpawnPoint.x
         SpawnPoint.y].
    unfold px, py, pw. fold (pb hp).
    split; [ reflexivity | ]. split; [ reflexivity | ].
    split; [ exact Hc | ].
    intro Hr. split; [ exact Hty | ]. rewrite Hb.
    split; [ reflexivity | ].
    unfold exitSpawnOn, px, pw. fold (pb hp). cbn [SpawnPoint.x].
    destruct (Qlt_le_dec 0.95 (Bounds.x (pb hp) + Bounds.w (pb hp) - 0.05))
      as [Hgt | Hle].
    + assert (Hcl : clamp (Bounds.x (pb hp) + Bounds.w (pb hp) - 0.05)
                          0.7 0.95 == 0.95) by (apply clamp_above; lra).
      split; lra.
    + assert (Hcl : clamp (Bounds.x (pb hp) + Bounds.w (pb hp) - 0.05)
                          0.7 0.95
                    == Bounds.x (pb hp) + Bounds.w (pb hp) - 0.05)
        by (apply clamp_inside; lra).
      split; lra.
Qed.

(** C4, as stated, fails: of six food detections the sixth yields no
    object at all. *)
Lemma food_collectible_counterexample :
  exists scene d,
    buildLevel in_six_foods = Some scene
    /\ nth_error (DetectionResponse.detections in_six_foods) 5 = Some d
    /\ Detection.category d = food
    /\ ~ exists o, In o (SceneV1.objects scene)
                   /\ SceneObject.label o = Detection.label d.
Proof.
  do 2 eexists. split; [ vm_compute; reflexivity | ].
  split; [ reflexivity | ]. split; [ reflexivity | ].
  intros (o & Hin & Hl). cbn [SceneV1.objects] in Hin.
  repeat (destruct Hin as [<- | Hin]; [ discriminate Hl | ]).
  contradiction.
Qed.

(** C4, amended.  Each of the first five food detections yields a
    collectible object, and these are all the collectible objects there
    are; a food detection after the fifth yields no object at all (no
    object of the scene holds its bounds); and no food detection
    contributes a platform: every platform object is the ground, a
    synthesised platform, or built from a detection that is not food. *)
Theorem food_routing (input : DetectionResponse.t) :
  exists scene,
    buildLevel input = Some scene
    /\ (forall k d,
           nth_error (DetectionResponse.detections input) k = Some d ->
           Detection.category d = food ->
           (length (filter isFood
                      (firstn k (DetectionResponse.detections input))) < 5)%nat ->
           exists o,
             In o (SceneV1.objects scene)
             /\ SceneObject.type o = collectible
             /\ SceneObject.label o = Detection.label d
             /\ SceneObject.confidence o = Detection.confidence d
             /\ SceneObject.bounds_normalized o
                = At (RefInput k) (Detection.bounds_normalized d)
             /\ SceneObject.category o = Some food)
    /\ (forall o,
           In o (SceneV1.objects scene) ->
           SceneObject.type o = collectible ->
           exists k d,
             nth_error (DetectionResponse.detections input) k = Some d
             /\ Detection.category d = food
             /\ (length (filter isFood
                           (firstn k (DetectionResponse.detections input)))
                 < 5)%nat
             /\ SceneObject.label o = Detection.label d
             /\ SceneObject.bounds_normalized o
                = At (RefInput k) (Detection.bounds_normalized d))
    /\ (forall k d,
           nth_error (DetectionResponse.detections input) k = Some d ->
           Detection.category d = food ->
           (5 <= length (filter isFood
                           (firstn k (DetectionResponse.detections input))))%nat ->
           forall o,
             In o (SceneV1.objects scene) ->
             ref (SceneObject.bounds_normalized o) <> RefInput k)
    /\ (forall o,
           In o (SceneV1.objects scene) ->
           SceneObject.type o = platform ->
           SceneObject.category o <> Some food
           /\ match ref (SceneObject.bounds_normalized o) with
              | RefPlat k =>
                  exists d,
                    nth_error (DetectionResponse.detections input) k = Some d
                    /\ Detection.category d <> food
                    /\ SceneObject.label o = Detection.label d
                    /\ objBounds o = platBoundsOf d
              | RefGround => SceneObject.label o = "ground"%string
              | RefBridge _ => SceneObject.category o = Some other
              | RefInput _ => False
              end).
Proof.
  destruct (buildLevel_shape input) as (hp & objs & _ & -> & E).
  set (dets := DetectionResponse.detections input) in *.
  set (plats := finalPlatforms dets) in *.
  eexists. split; [ exact E | ]. split; [ | split; [ | split ] ].
  - intros k d Hk Hf Hlt.
    pose proof (collectibleDetections_nth dets 0 k d Hk Hf) as Hn.
    simpl in Hn.
    set (n := length (filter isFood (firstn k dets))) in *.
    assert (Hn5 : nth_error (firstn 5 (collectibleDetections
                                         (extractFrom 0 dets))) n
                  = Some (k, d)).
    { rewrite nth_error_firstn.
      apply Nat.ltb_lt in Hlt. now rewrite Hlt. }
    set (n2 := (length plats
                + length (firstn 4 (obstacleDetections (extractFrom 0 dets))))%nat).
    pose proof (pushAll_nth collectibleObject _ n2 n (k, d) Hn5) as Ho.
    apply nth_error_In in Ho.
    assert (Hb : In (collectibleObject (n2 + n) (k, d))
                    (builtObjects plats (extractFrom 0 dets))).
    { unfold builtObjects. apply in_or_app. right. apply in_or_app. right.
      exact Ho. }
    destruct (anchored_In_l _ _ _
                (enemyLoop_anchored (enemyPlatforms plats) []
                   (builtObjects plats (extractFrom 0 dets))) Hb)
      as (o' & Hin' & Ha).
    exists o'. split; [ exact Hin' | ].
    destruct Ha as [-> | ->]; repeat split; reflexivity.
  - intros o Hin Hty. cbn [SceneV1.objects sceneOf] in Hin.
    destruct (built_object_source dets o Hin) as [Hp | [Ho | Hc]].
    + destruct Hp as (p & _ & Hty' & _). congruence.
    + destruct Ho as (k & d & _ & _ & Hty' & _). congruence.
    + destruct Hc as (k & d & Hk & Hf & Hlt & _ & Hl & Hb).
      exists k, d. auto.
  - intros k d Hk Hf Hge o Hin Hr. cbn [SceneV1.objects sceneOf] in Hin.
    destruct (built_object_source dets o Hin) as [Hp | [Ho | Hc]].
    + destruct Hp as (p & Hp & _ & Er).
      destruct (finalPlatforms_Inv dets) as [_ F _].
      rewrite Forall_forall in F. destruct (F p Hp) as [_ Pp].
      unfold Provenance in Pp. rewrite <- Er, Hr in Pp. exact Pp.
    + destruct Ho as (k' & d' & Hk' & Hnf & _ & Eb).
      rewrite Eb in Hr. cbn [ref] in Hr. injection Hr as ->. congruence.
    + destruct Hc as (k' & d' & Hk' & _ & Hlt & _ & _ & Eb).
      rewrite Eb in Hr. cbn [ref] in Hr. injection Hr as ->. lia.
  - intros o Hin Hty.
    destruct (platform_object_source _ _ _ _ _ Hin Hty) as (i & p & Hi & Ha).
    destruct (finalPlatforms_Inv dets) as [_ F _]. fold plats in F.
    rewrite Forall_forall in F.
    destruct (F p (nth_error_In _ _ Hi)) as [_ Pp].
    assert (Er : ref (SceneObject.bounds_normalized o) = pref p)
      by (destruct Ha as [-> | ->]; reflexivity).
    assert (Ec : SceneObject.category o
                 = Some (if Category_eqb (PlatformCandidate.category p) other
                         then other else PlatformCandidate.category p))
      by (destruct Ha as [-> | ->]; reflexivity).
    assert (El : SceneObject.label o = PlatformCandidate.label p)
      by (destruct Ha as [-> | ->]; reflexivity).
    assert (Eb : objBounds o = pb p)
      by (destruct Ha as [-> | ->]; reflexivity).
    rewrite Er, Ec, El, Eb. unfold Provenance in Pp.
    destruct (pref p) as [k | k | | j].
    + contradiction.
    + destruct Pp as (d & Hd & Hnf & ->). split.
      * cbn [candidateOf PlatformCandidate.category].
        destruct (Detection.category d); simpl; congruence.
      * exists d. repeat split; auto.
    + subst p. split; [ discriminate | reflexivity ].
    + destruct Pp as (_ & _ & _ & Hc). rewrite Hc. split;
        [ discriminate | reflexivity ].
Qed.

(** C5.  Spawn positions are not all within [0, 1]: a platform made from
    a detection at the top of the image is clamped to y = 0.05, and what
    is placed on it gets y = 0.05 - 0.06 = -0.01.  Evaluation of the
    builder on one shelf at y = 0. *)
Theorem spawn_above_image_at_top_shelf :
  exists scene,
    buildLevel in_shelf_top = Some scene
    /\ SpawnPoint.y (Spawns.exit (SceneV1.spawns scene)) == -0.01
    /\ (exists p, In p (Spawns.pickups (SceneV1.spawns scene))
                  /\ PickupSpawn.y p < 0)
    /\ (exists e, In e (Spawns.enemies (SceneV1.spawns scene))
                  /\ EnemySpawn.y e < 0).
Proof.
  eexists. split; [ vm_compute; reflexivity | ].
  cbn [SceneV1.spawns Spawns.exit Spawns.pickups Spawns.enemies SpawnPoint.y].
  split; [ reflexivity | ].
  split.
  - eexists. split; [ left; reflexivity | reflexivity ].
  - eexists. split; [ left; reflexivity | reflexivity ].
Qed.

(** C6. For each platform chosen by enemy placement (not ground, not
    bridge, width > 0.15, the first two in list order), the object that carries
    the identifier generated for that platform (its position [i] in the
    final platform list, hence the id [plat_i]) is of type platform, holds
    the bounds of that platform, and has enemy_spawn_anchor = true. *)
Theorem enemy_anchor_marked (input : DetectionResponse.t) :
  exists scene,
    buildLevel input = Some scene
    /\ forall i plat,
         nth_error (finalPlatforms (DetectionResponse.detections input)) i
         = Some plat ->
         In plat (enemyPlatforms
                    (finalPlatforms (DetectionResponse.detections input))) ->
         exists o,
           nth_error (SceneV1.objects scene) i = Some o
           /\ SceneObject.id o = mkId "plat" i
           /\ SceneObject.type o = platform
           /\ SceneObject.bounds_normalized o = PlatformCandidate.bounds plat
           /\ SceneObject.enemy_spawn_anchor o = Some true.
Proof.
  destruct (buildLevel_shape input) as (hp & objs & _ & -> & E).
  set (dets := DetectionResponse.detections input) in *.
  set (plats := finalPlatforms dets) in *.
  eexists. split; [ exact E | ].
  intros i plat Hi Hch.
  cbn [SceneV1.objects sceneOf].
  destruct (finalPlatforms_Inv dets) as [_ _ N]. fold plats in N.
  rewrite (enemyLoop_marks (enemyPlatforms plats) [] _ plat i
             (platformObject i plat) Hch (builtObjects_nth _ _ _ _ Hi)).
  - eexists. split; [ reflexivity | ].
    assert (Hf : isEnemyPlatform plat = true).
    { unfold enemyPlatforms in Hch.
      assert (Hin : In plat (filter isEnemyPlatform plats)).
      { rewrite <- (firstn_skipn 2 (filter isEnemyPlatform plats)).
        apply in_or_app. now left. }
      apply filter_In in Hin. tauto. }
    unfold isEnemyPlatform in Hf.
    apply andb_prop in Hf. destruct Hf as [Hf _].
    apply andb_prop in Hf. destruct Hf as [Hg Hb].
    apply negb_true_iff in Hg, Hb.
    cbn [setAnchor platformObject SceneObject.id SceneObject.type
         SceneObject.bounds_normalized SceneObject.enemy_spawn_anchor].
    rewrite Hg, Hb. repeat split; reflexivity.
  - unfold isObjectOf. cbn [platformObject SceneObject.type
                            SceneObject.bounds_normalized ObjectType_eqb andb].
    apply Ref_eqb_eq. reflexivity.
  - intros j o' Hj Hn.
    destruct (nth_error plats j) as [pj | ] eqn:Ej.
    + rewrite (builtObjects_nth _ _ _ _ Ej) in Hn. injection Hn as <-.
      unfold isObjectOf. cbn [platformObject SceneObject.type
                              SceneObject.bounds_normalized ObjectType_eqb andb].
      destruct (Ref_eqb (ref (PlatformCandidate.bounds pj))
                        (ref (PlatformCandidate.bounds plat))) eqn:Er;
        [ | reflexivity ].
      exfalso. apply Ref_eqb_eq in Er.
      assert (Hij : j = i).
      { apply (proj1 (NoDup_nth_error (map pref plats)) N).
        - rewrite length_map. apply nth_error_Some. rewrite Ej. discriminate.
        - rewrite !nth_error_map, Ej, Hi. simpl. unfold pref. now rewrite Er. }
      lia.
    + exfalso. apply nth_error_None in Ej.
      assert (Hlt : (i < length plats)%nat)
        by (apply nth_error_Some; rewrite Hi; discriminate).
      lia.
Qed.

(** C7. When the repair engine fires on a violating consecutive pair
    (lower, upper), the platform it inserts has width 0.15, lies at the
    vertical midpoint of the pair, and is centred on the midpoint between
    the two centres, its left edge clamped to [0.02, 0.85].  A vertical
    violation yields a bridge; a stepping stone is produced only when the
    pair has no vertical violation and a horizontal gap above 0.40, with
    the same sizing rule. *)
Theorem repair_synthesis (st : RepairState) (i : nat) (b : PC) :
  findViolation (S (iterations st)) 0 (platforms st) = Some (i, b) ->
  exists lower upper,
    nth_error (platforms st) i = Some lower
    /\ nth_error (platforms st) (S i) = Some upper
    /\ platforms (repairBody st)
       = sortBy byYDesc (splice (i + 1) b (platforms st))
    /\ bridgesInserted (repairBody st) = true
    /\ pw b == 0.15
    /\ py b == (py lower + py upper) / 2
    /\ px b == clamp ((centerX lower + centerX upper) / 2 - 0.075) 0.02 0.85
    /\ 0.02 <= px b <= 0.85
    /\ (0.02 <= (centerX lower + centerX upper) / 2 - 0.075 <= 0.85 ->
        centerX b == (centerX lower + centerX upper) / 2)
    /\ PlatformCandidate.isBridge b = true
    /\ (PlatformCandidate.label b = "bridge"%string
        \/ PlatformCandidate.label b = "stepping stone"%string)
    /\ (MAX_JUMP_HEIGHT < py lower - py upper ->
        PlatformCandidate.label b = "bridge"%string)
    /\ (PlatformCandidate.label b = "stepping stone"%string ->
        py lower - py upper <= MAX_JUMP_HEIGHT
        /\ MAX_HORIZONTAL_REACH < horizontalGap (pb lower) (pb upper)).
Proof.
  intro E.
  destruct (findViolation_some _ _ _ _ _ E)
    as (j & lower & upper & Hi & Hlo & Hup & Hb & _).
  simpl in Hi. subst j.
  exists lower, upper.
  split; [ exact Hlo | ]. split; [ exact Hup | ].
  split; [ unfold repairBody; now rewrite E | ].
  split; [ unfold repairBody; now rewrite E | ].
  assert (Hx : px b == clamp ((centerX lower + centerX upper) / 2 - 0.075)
                             0.02 0.85).
  { destruct Hb as [[_ ->] | (_ & _ & ->)]; unfold px; simpl.
    - reflexivity.
    - unfold stoneX, centerX. apply clamp_compat. field. }
  assert (Hw : pw b == 0.15).
  { destruct Hb as [[_ ->] | (_ & _ & ->)]; reflexivity. }
  split; [ exact Hw | ].
  split; [ destruct Hb as [[_ ->] | (_ & _ & ->)]; reflexivity | ].
  split; [ exact Hx | ].
  split; [ rewrite Hx; apply (clamp_bounds _ 0.02 0.85); lra | ].
  split.
  { intros [H1 H2]. unfold centerX at 1. rewrite Hx, Hw.
    rewrite (clamp_inside _ _ _ H1 H2). field. }
  split; [ destruct Hb as [[_ ->] | (_ & _ & ->)]; reflexivity | ].
  split; [ destruct Hb as [[_ ->] | (_ & _ & ->)]; [ now left | now right ] | ].
  split.
  - intro V. destruct Hb as [[_ ->] | (NV & _ & _)]; [ reflexivity | ].
    exfalso. apply (Qlt_not_le _ _ V NV).
  - intro L. destruct Hb as [[_ ->] | (NV & HG & _)]; [ discriminate | ].
    split; [ exact NV | exact HG ].
Qed.

Lemma repair_synthesis_witness :
  exists b lower upper,
    findViolation 1 0 (platforms st_shelf_top) = Some (0%nat, b)
    /\ nth_error (platforms st_shelf_top) 0 = Some lower
    /\ nth_error (platforms st_shelf_top) 1 = Some upper
    /\ pw b == 0.15
    /\ py b == (py lower + py upper) / 2
    /\ PlatformCandidate.label b = "bridge"%string.
Proof.
  eexists.
  assert (E : findViolation (S (iterations st_shelf_top)) 0
                            (platforms st_shelf_top)
              = Some (0%nat, _)) by (vm_compute; reflexivity).
  destruct (repair_synthesis st_shelf_top 0 _ E)
    as (lower & upper & Hlo & Hup & _ & _ & Hw & Hy & _ & _ & _ & _ & _ & Hv & _).
  exists lower, upper.
  split; [ exact E | ]. split; [ exact Hlo | ]. split; [ exact Hup | ].
  split; [ exact Hw | ]. split; [ exact Hy | ].
  apply Hv.
  simpl in Hlo, Hup. injection Hlo as <-. injection Hup as <-.
  vm_compute. reflexivity.
Defined.

(** C8. For every input, the empty detection list included, the emitted
    scene has at least two pickups. *)
Theorem pickup_floor (input : DetectionResponse.t) :
  exists scene,
    buildLevel input = Some scene
    /\ (2 <= length (Spawns.pickups (SceneV1.spawns scene)))%nat.
Proof.
  destruct (buildLevel_shape input) as (hp & objs & _ & _ & E).
  eexists. split; [ exact E | ].
  apply placePickups_length.
Qed.

(** C9, as stated, fails: for an empty detection list the spawns are not
    at y = 0.86.  The builder subtracts the binary64 numbers 0.92 and
    0.06; the rounded difference is 0.8600000000000001, the binary64
    number next above 0.86.  This is the y of the player spawn, of the
    exit and of both pickups. *)
Lemma empty_detections_counterexample :
  exists scene,
    Double.buildLevel (Double.DetectionResponse.mk Double.image0 [])
    = Some scene
    /\ (Double.SpawnPoint.y (Double.Spawns.player (Double.SceneV1.spawns scene))
        =? 0.86)%float = false
    /\ (0.86
        <? Double.SpawnPoint.y
             (Double.Spawns.player (Double.SceneV1.spawns scene)))%float
       = true
    /\ (Double.SpawnPoint.y (Double.Spawns.exit (Double.SceneV1.spawns scene))
        =? 0.86)%float = false
    /\ map (fun p => (Double.PickupSpawn.y p =? 0.86)%float)
           (Double.Spawns.pickups (Double.SceneV1.spawns scene))
       = [false; false].
Proof.
  eexists. split; [ vm_compute; reflexivity | ].
  repeat split; vm_compute; reflexivity.
Qed.

(** C9, amended.  For an empty detection list and any image size the
    builder returns this scene: one object, the ground platform
    (id ground_0, bounds (0, 0.92, 1, 0.03), solid, not an enemy anchor);
    the player spawn (0.08, y) and the exit (0.95, y), where y is the
    binary64 difference 0.92 - 0.06 = 0.8600000000000001, just above
    0.86; two pickups of type coin, at (0.3, y) and (0.5, y); and no
    enemies.  The exit is on the ground platform: its x lies within the
    ground's span from 0 to 0 + 1. *)
Theorem empty_detections_level (image : Double.Image.t) :
  let ground :=
    Double.SceneObject.mk
      "ground_0" platform "ground" 1.0%float
      (At RefGround (Double.Bounds.mk 0.0 0.92 1.0 0.03)%float)
      (Some solid) (Some furniture) (Some false) in
  let y := 0.8600000000000001%float in
  Double.buildLevel (Double.DetectionResponse.mk image [])
  = Some (Double.SceneV1.mk
            1
            (Double.Image.mk (Double.Image.w image) (Double.Image.h image))
            [ground]
            (Double.Spawns.mk
               (Double.SpawnPoint.mk 0.08%float y)
               (Double.SpawnPoint.mk 0.95%float y)
               []
               [Double.PickupSpawn.mk 0.3%float y "coin";
                Double.PickupSpawn.mk 0.5%float y "coin"])
            [])
  /\ y = (0.92 - 0.06)%float
  /\ (0.86 <? y)%float = true
  /\ ((0.0 <=? 0.95) && (0.95 <=? 0.0 + 1.0))%float = true.
Proof.
  cbv zeta. split; [ vm_compute; reflexivity | ].
  repeat split; vm_compute; reflexivity.
Qed.

(** C10. In every emitted scene every object of type platform has
    surface_type solid, whatever the category of its detection. *)
Theorem platform_surface_solid (input : DetectionResponse.t) :
  exists scene,
    buildLevel input = Some scene
    /\ forall o, In o (SceneV1.objects scene) ->
                 SceneObject.type o = platform ->
                 SceneObject.surface_type o = Some solid.
Proof.
  destruct (buildLevel_shape input) as (hp & objs & _ & -> & E).
  eexists. split; [ exact E | ].
  intros o Hin Hty.
  destruct (platform_object_source _ _ _ _ _ Hin Hty) as (i & p & _ & Ha).
  destruct Ha as [-> | ->]; simpl;
    now destruct (Category_eqb (PlatformCandidate.category p) furniture).
Qed.

(* ================================================================== *)
(** * Further properties                                               *)
(* ================================================================== *)

(** ** Helpers *)

(** X1. [clamp(v, lo, hi)] is never below [lo]; when [lo <= hi] it is in
    [lo, hi], leaves a value of that range as it is, and sends a value
    below or above the range to the nearer end; with the bounds swapped
    ([hi <= lo]) it is [lo]. *)
Theorem clamp_characterisation (v lo hi : Q) :
  lo <= clamp v lo hi
  /\ (lo <= hi -> clamp v lo hi <= hi)
  /\ (lo <= v -> v <= hi -> clamp v lo hi == v)
  /\ (lo <= hi -> v <= lo -> clamp v lo hi == lo)
  /\ (lo <= hi -> hi <= v -> clamp v lo hi == hi)
  /\ (hi <= lo -> clamp v lo hi == lo).
Proof.
  split; [ apply Q.le_max_l | ].
  split; [ intro H; apply (clamp_bounds v lo hi H) | ].
  split; [ apply clamp_inside | ].
  split.
  { intros H1 H2. unfold clamp. apply Q.max_l.
    rewrite (Q.min_r hi v); [ exact H2 | lra ]. }
  split; [ apply clamp_above | ].
  intro H. unfold clamp. apply Q.max_l.
  eapply Qle_trans; [ apply Q.le_min_l | exact H ].
Qed.

Lemma horizontalOverlap_sym (a b : Bounds.t) :
  horizontalOverlap a b = horizontalOverlap b a.
Proof. unfold horizontalOverlap. apply andb_comm. Qed.

(** X2. [horizontalGap] is never negative, does not depend on the order of
    its arguments, is 0 for overlapping intervals, and for intervals of
    non-negative width with [a] to the left of [b] it is the distance
    from the right edge of [a] to the left edge of [b]. *)
Theorem horizontalGap_characterisation (a b : Bounds.t) :
  0 <= horizontalGap a b
  /\ horizontalGap a b == horizontalGap b a
  /\ (horizontalOverlap a b = true -> horizontalGap a b == 0)
  /\ (0 <= Bounds.w a -> 0 <= Bounds.w b ->
      Bounds.x a + Bounds.w a <= Bounds.x b ->
      horizontalGap a b == Bounds.x b - (Bounds.x a + Bounds.w a)).
Proof.
  unfold horizontalGap, horizontalOverlap. cbv zeta.
  rewrite (andb_comm (Bounds.x b <? Bounds.x a + Bounds.w a)
                     (Bounds.x a <? Bounds.x b + Bounds.w b)).
  destruct ((Bounds.x a <? Bounds.x b + Bounds.w b)
            && (Bounds.x b <? Bounds.x a + Bounds.w a)) eqn:E.
  - split; [ lra | ]. split; [ reflexivity | ]. split; [ reflexivity | ].
    intros Ha Hb Hl. exfalso.
    apply andb_prop in E. destruct E as [_ E]. apply Qltb_true in E. lra.
  - split.
    { apply Q.min_glb; apply Qabs_nonneg. }
    split; [ apply Q.min_comm | ].
    split; [ discriminate | ].
    intros Ha Hb Hl.
    rewrite (Qabs_neg (Bounds.x a - (Bounds.x b + Bounds.w b))) by lra.
    rewrite (Qabs_pos (Bounds.x b - (Bounds.x a + Bounds.w a))) by lra.
    apply Q.min_r. lra.
Qed.

(** ** Step A: classification *)

Lemma narrow_after_clamp (d : Detection.t) :
  (Bounds.w (platBoundsOf d) <? MIN_PLATFORM_WIDTH)
  = (Bounds.w (Detection.bounds_normalized d) <? MIN_PLATFORM_WIDTH).
Proof.
  unfold platBoundsOf, MIN_PLATFORM_WIDTH. cbn [Bounds.w].
  set (w := Bounds.w (Detection.bounds_normalized d)).
  destruct (w <? 0.08) eqn:E.
  - apply Qltb_true in E. apply Qltb_true. unfold clamp.
    apply Q.max_lub_lt; [ lra | ].
    eapply Qle_lt_trans; [ apply Q.le_min_r | exact E ].
  - apply Qltb_false in E. apply Qltb_false. unfold clamp.
    eapply Qle_trans; [ | apply Q.le_max_r ].
    apply Q.min_glb; lra.
Qed.

Lemma extractFrom_spec :
  forall dets k,
    map snd (collectibleDetections (extractFrom k dets)) = filter isFood dets
    /\ map snd (obstacleDetections (extractFrom k dets))
       = filter isNarrow dets
    /\ map PlatformCandidate.label (candidates (extractFrom k dets))
       = map Detection.label (filter isWalkable dets)
    /\ (length (candidates (extractFrom k dets))
        + length (collectibleDetections (extractFrom k dets))
        + length (obstacleDetections (extractFrom k dets))
        = length dets)%nat
    /\ (forall j d,
           In (j, d) (collectibleDetections (extractFrom k dets))
           \/ In (j, d) (obstacleDetections (extractFrom k dets)) ->
           (k <= j)%nat /\ nth_error dets (j - k) = Some d).
Proof.
  induction dets as [ | d0 rest IH ]; intro k.
  - cbn. do 4 (split; [ reflexivity | ]). intros j d [[] | []].
  - destruct (IH (S k)) as (Hc & Ho & Hp & Hl & Hi).
    cbn [extractFrom filter]. unfold isNarrow, isWalkable, isFood.
    rewrite <- (narrow_after_clamp d0).
    destruct (Category_eqb (Detection.category d0) food) eqn:Ef;
      [ | destruct (Bounds.w (platBoundsOf d0) <? MIN_PLATFORM_WIDTH) eqn:Ew ];
      cbn [negb andb candidates collectibleDetections obstacleDetections
           map snd length];
      fold isFood;
      (split; [ first [ exact Hc | now rewrite Hc ] | ]);
      (split; [ first [ exact Ho | now rewrite Ho ] | ]);
      (split; [ first [ exact Hp | now (cbn; rewrite Hp) ] | ]);
      (split; [ lia | ]);
      intros j d Hin.
    + destruct Hin as [[Hin | Hin] | Hin].
      * injection Hin as <- <-. rewrite Nat.sub_diag. split; [ lia | reflexivity ].
      * destruct (Hi j d (or_introl Hin)) as [Hle Hn]. split; [ lia | ].
        replace (j - k)%nat with (S (j - S k)) by lia. exact Hn.
      * destruct (Hi j d (or_intror Hin)) as [Hle Hn]. split; [ lia | ].
        replace (j - k)%nat with (S (j - S k)) by lia. exact Hn.
    + destruct Hin as [Hin | [Hin | Hin]].
      * destruct (Hi j d (or_introl Hin)) as [Hle Hn]. split; [ lia | ].
        replace (j - k)%nat with (S (j - S k)) by lia. exact Hn.
      * injection Hin as <- <-. rewrite Nat.sub_diag. split; [ lia | reflexivity ].
      * destruct (Hi j d (or_intror Hin)) as [Hle Hn]. split; [ lia | ].
        replace (j - k)%nat with (S (j - S k)) by lia. exact Hn.
    + destruct (Hi j d Hin) as [Hle Hn]. split; [ lia | ].
      replace (j - k)%nat with (S (j - S k)) by lia. exact Hn.
Qed.

(** X3. The extraction loop routes every detection to exactly one of its
    three arrays, in input order: food to [collectibleDetections]; what is
    not food and has a raw width below 0.08 to [obstacleDetections]
    (clamping the width to [0.05, 0.9] does not change that test); every
    other detection becomes a candidate.  Each remembered detection is the
    one at its recorded position. *)
Theorem extraction_partition (detections : list Detection.t) :
  let ex := extractFrom 0 detections in
  map snd (collectibleDetections ex) = filter isFood detections
  /\ map snd (obstacleDetections ex) = filter isNarrow detections
  /\ map PlatformCandidate.label (candidates ex)
     = map Detection.label (filter isWalkable detections)
  /\ (length (candidates ex) + length (collectibleDetections ex)
      + length (obstacleDetections ex) = length detections)%nat
  /\ (forall k d, In (k, d) (collectibleDetections ex)
                        \/ In (k, d) (obstacleDetections ex) ->
                  nth_error detections k = Some d).
Proof.
  cbv zeta.
  destruct (extractFrom_spec detections 0%nat) as (Hc & Ho & Hp & Hl & Hi).
  repeat (split; [ assumption | ]).
  intros k d Hin. destruct (Hi k d Hin) as [_ Hn].
  now rewrite Nat.sub_0_r in Hn.
Qed.

(** ** Steps C to E: the platform list *)

Lemma candidates_walkable (dets : list Detection.t) :
  Forall (fun p => exists k d, nth_error dets k = Some d
                               /\ isWalkable d = true
                               /\ p = candidateOf k d)
         (candidates (extractFrom 0 dets)).
Proof.
  destruct (extract_candidates dets dets 0%nat) as [F _].
  { intros j d H. exact H. }
  eapply Forall_impl; [ | exact F ].
  intros p ([W Pr] & _ & j & Hj & _).
  unfold Provenance in Pr. rewrite Hj in Pr.
  destruct Pr as (d & Hd & Hf & ->).
  exists j, d. split; [ exact Hd | split; [ | reflexivity ] ].
  unfold isWalkable, isFood.
  destruct (Category_eqb (Detection.category d) food) eqn:E.
  - apply Category_eqb_eq in E. contradiction.
  - rewrite <- narrow_after_clamp. simpl.
    destruct W as (_ & _ & Hw & _). unfold pw in Hw. simpl in Hw.
    apply negb_true_iff, Qltb_false. exact Hw.
Qed.

Lemma findViolation_synth (it : nat) (l : list PC) (i : nat) (b : PC) :
  findViolation it 0 l = Some (i, b) ->
  exists lower upper,
    In lower l /\ In upper l
    /\ (b = mkBridge it lower upper \/ b = mkSteppingStone it lower upper).
Proof.
  intro E.
  destruct (findViolation_some _ _ _ _ _ E)
    as (j & lower & upper & _ & Hlo & Hup & Hb & _).
  exists lower, upper.
  split; [ eapply nth_error_In; exact Hlo | ].
  split; [ eapply nth_error_In; exact Hup | ].
  destruct Hb as [[_ ->] | (_ & _ & ->)]; [ now left | now right ].
Qed.

(** An induction principle for the platform list: what holds of the
    ground and of every candidate, and is passed on to the platforms
    synthesised between two platforms, holds of every platform. *)
Section PlatformInduction.
Variable dets : list Detection.t.
Variable P : PC -> Prop.
Hypothesis P_ground : P groundCandidate.
Hypothesis P_candidate :
  forall k d, nth_error dets k = Some d -> isWalkable d = true ->
              P (candidateOf k d).
Hypothesis P_bridge :
  forall it lower upper, P lower -> P upper -> P (mkBridge it lower upper).
Hypothesis P_stone :
  forall it lower upper, P lower -> P upper ->
                         P (mkSteppingStone it lower upper).

Lemma initialPlatforms_Forall : Forall P (initialPlatforms dets).
Proof.
  unfold initialPlatforms.
  apply Forall_firstn.
  destruct (dedupInto_spec
              (sortBy byYDesc
                 (candidates (extractFrom 0 dets) ++ [groundCandidate])) [])
    as (kept & -> & F & _).
  cbn [app]. apply F.
  eapply Permutation_Forall; [ symmetry; apply sortBy_perm | ].
  apply Forall_app. split.
  - eapply Forall_impl; [ | apply candidates_walkable ].
    intros p (k & d & Hk & Hw & ->). now apply P_candidate.
  - constructor; [ exact P_ground | constructor ].
Qed.

Lemma repairBody_Forall (st : RepairState) :
  Forall P (platforms st) -> Forall P (platforms (repairBody st)).
Proof.
  intro F. unfold repairBody.
  destruct (findViolation (S (iterations st)) 0 (platforms st))
    as [[i b] | ] eqn:E; cbn [platforms];
    (eapply Permutation_Forall; [ symmetry; apply sortBy_perm | ]);
    [ | exact F ].
  eapply Permutation_Forall; [ symmetry; apply splice_perm | ].
  constructor; [ | exact F ].
  destruct (findViolation_synth _ _ _ _ E) as (lo & up & Hlo & Hup & Hb).
  rewrite Forall_forall in F.
  destruct Hb as [-> | ->]; [ apply P_bridge | apply P_stone ]; auto.
Qed.

Lemma repairLoop_Forall (fuel : nat) :
  forall st, Forall P (platforms st) ->
             Forall P (platforms (repairLoop fuel st)).
Proof.
  induction fuel as [ | fuel IH ]; intros st F; simpl.
  - exact F.
  - destruct (repairCond st); [ | exact F ].
    apply IH, repairBody_Forall, F.
Qed.

Lemma repaired_Forall : Forall P (platforms (repaired dets)).
Proof.
  unfold repaired, repair. apply repairLoop_Forall. cbn [platforms].
  eapply Permutation_Forall; [ symmetry; apply sortBy_perm | ].
  apply initialPlatforms_Forall.
Qed.

Lemma finalPlatforms_Forall : Forall P (finalPlatforms dets).
Proof.
  rewrite finalPlatforms_firstn. apply Forall_firstn, repaired_Forall.
Qed.
End PlatformInduction.

(** X4. Every platform object of the emitted scene has x in [0, 0.95],
    y in [0.05, 0.92], a width in [0.08, 1] and the thickness 0.03. *)
Theorem platform_geometry (input : DetectionResponse.t) :
  exists scene,
    buildLevel input = Some scene
    /\ forall o, In o (SceneV1.objects scene) ->
                 SceneObject.type o = platform ->
                 0 <= Bounds.x (objBounds o) <= 0.95
                 /\ 0.05 <= Bounds.y (objBounds o) <= 0.92
                 /\ 0.08 <= Bounds.w (objBounds o) <= 1
                 /\ Bounds.h (objBounds o) == 0.03.
Proof.
  destruct (buildLevel_shape input) as (hp & objs & _ & -> & E).
  set (dets := DetectionResponse.detections input) in *.
  eexists. split; [ exact E | ].
  intros o Hin Hty.
  destruct (platform_object_source _ _ _ _ _ Hin Hty) as (i & p & Hi & Ha).
  assert (Eb : objBounds o = pb p) by (destruct Ha as [-> | ->]; reflexivity).
  rewrite Eb. apply nth_error_In in Hi.
  destruct (finalPlatforms_Inv dets) as [_ F _].
  rewrite Forall_forall in F. destruct (F p Hi) as [(Hx & Hy & Hw) _].
  split; [ exact Hx | ]. split; [ exact Hy | ]. split; [ exact Hw | ].
  assert (H : Forall (fun p => Bounds.h (pb p) == 0.03) (finalPlatforms dets)).
  { apply finalPlatforms_Forall; intros; reflexivity. }
  rewrite Forall_forall in H. now apply H.
Qed.

Lemma closePair_sym (p q : PC) : closePair p q = closePair q p.
Proof.
  unfold closePair. now rewrite Qabs_Qminus, horizontalOverlap_sym.
Qed.

Lemma FOP_snoc {A : Type} (R : A -> A -> Prop) (l : list A) (x : A) :
  ForallOrdPairs R l -> Forall (fun a => R a x) l ->
  ForallOrdPairs R (l ++ [x]).
Proof.
  induction 1 as [ | a l Ha Hl IH ]; intro F; simpl.
  - constructor; constructor.
  - inversion F as [ | ? ? Hax Fl ]; subst. constructor.
    + apply Forall_app. split; [ exact Ha | constructor; [ exact Hax | constructor ] ].
    + now apply IH.
Qed.

Lemma dedupInto_pairs (cands : list PC) :
  forall filtered,
    ForallOrdPairs (fun a b => closePair a b = false) filtered ->
    ForallOrdPairs (fun a b => closePair a b = false)
                   (dedupInto filtered cands).
Proof.
  induction cands as [ | cand rest IH ]; intros filtered H; simpl.
  - exact H.
  - destruct (tooClose filtered cand) eqn:E.
    + now apply IH.
    + apply IH, FOP_snoc; [ exact H | ].
      apply Forall_forall. intros e He.
      destruct (closePair e cand) eqn:C; [ | reflexivity ].
      assert (T : tooClose filtered cand = true).
      { unfold tooClose. apply existsb_exists. exists e.
        split; [ exact He | exact C ]. }
      congruence.
Qed.

Lemma Apart_incl (l l' : list PC) :
  Apart l ->
  (forall p, In p l' -> In p l \/ PlatformCandidate.isBridge p = true) ->
  Apart l'.
Proof.
  intros H Hin p q Hp Hq Bp Bq Hr.
  destruct (Hin p Hp) as [Hp' | C]; [ | congruence ].
  destruct (Hin q Hq) as [Hq' | C]; [ | congruence ].
  now apply H.
Qed.

Lemma initialPlatforms_Apart (dets : list Detection.t) :
  Apart (initialPlatforms dets).
Proof.
  unfold initialPlatforms.
  set (sorted := sortBy byYDesc
                   (candidates (extractFrom 0 dets) ++ [groundCandidate])).
  pose proof (dedupInto_pairs sorted [] (FOP_nil _)) as H.
  intros p q Hp Hq _ _ Hr.
  assert (Hp' : In p (dedupInto [] sorted)).
  { rewrite <- (firstn_skipn MAX_PLATFORMS (dedupInto [] sorted)).
    apply in_or_app. now left. }
  assert (Hq' : In q (dedupInto [] sorted)).
  { rewrite <- (firstn_skipn MAX_PLATFORMS (dedupInto [] sorted)).
    apply in_or_app. now left. }
  destruct (ForallOrdPairs_In H p q Hp' Hq') as [-> | [C | C]].
  - contradiction.
  - exact C.
  - now rewrite closePair_sym.
Qed.

Lemma Synthesised_bridge it lower upper : Synthesised (mkBridge it lower upper).
Proof. unfold Synthesised, pw; simpl. repeat split; auto; reflexivity. Qed.

Lemma Synthesised_stone it lower upper :
  Synthesised (mkSteppingStone it lower upper).
Proof. unfold Synthesised, pw; simpl. repeat split; auto; reflexivity. Qed.

Lemma repairBody_members (st : RepairState) (p : PC) :
  (In p (platforms st) -> In p (platforms (repairBody st)))
  /\ (In p (platforms (repairBody st)) ->
      In p (platforms st) \/ Synthesised p).
Proof.
  unfold repairBody.
  destruct (findViolation (S (iterations st)) 0 (platforms st))
    as [[i b] | ] eqn:E; cbn [platforms].
  - destruct (findViolation_synth _ _ _ _ E) as (lo & up & _ & _ & Hb).
    split; intro H.
    + apply (Permutation_in _ (Permutation_sym (sortBy_perm byYDesc _))).
      apply (Permutation_in _ (Permutation_sym (splice_perm _ _ _))).
      now right.
    + apply (Permutation_in _ (sortBy_perm byYDesc _)) in H.
      apply (Permutation_in _ (splice_perm _ _ _)) in H.
      destruct H as [<- | H]; [ right | now left ].
      destruct Hb as [-> | ->];
        [ apply Synthesised_bridge | apply Synthesised_stone ].
  - split; intro H.
    + now apply (Permutation_in _ (Permutation_sym (sortBy_perm byYDesc _))).
    + left. now apply (Permutation_in _ (sortBy_perm byYDesc _)) in H.
Qed.

Lemma repairLoop_members (fuel : nat) (p : PC) :
  forall st,
    (In p (platforms st) -> In p (platforms (repairLoop fuel st)))
    /\ (In p (platforms (repairLoop fuel st)) ->
        In p (platforms st) \/ Synthesised p).
Proof.
  induction fuel as [ | fuel IH ]; intro st; simpl.
  - split; auto.
  - destruct (repairCond st); [ | split; auto ].
    destruct (IH (repairBody st)) as [I1 I2].
    destruct (repairBody_members st p) as [B1 B2].
    split; [ auto | ].
    intro H. destruct (I2 H) as [H' | H']; [ auto | now right ].
Qed.

Lemma repair_members (initial : list PC) (p : PC) :
  (In p initial -> In p (platforms (repair initial)))
  /\ (In p (platforms (repair initial)) -> In p initial \/ Synthesised p).
Proof.
  unfold repair.
  destruct (repairLoop_members 10 p (mkRepair true 0 (sortBy byYDesc initial)))
    as [I1 I2].
  cbn [platforms] in I1, I2. split; intro H.
  - apply I1.
    now apply (Permutation_in _ (Permutation_sym (sortBy_perm byYDesc _))).
  - destruct (I2 H) as [H' | H']; [ left | now right ].
    now apply (Permutation_in _ (sortBy_perm byYDesc _)) in H'.
Qed.

(** X5. The repair loop only adds platforms: every platform that enters
    the loop is in the list when the loop ends, and every other platform
    of that list is a synthesised one (0.15 wide, marked as bridge,
    category other, confidence 1.0, not an enemy anchor, labelled
    "bridge" or "stepping stone"). *)
Theorem repair_only_adds (initial : list PC) (p : PC) :
  (In p initial -> In p (platforms (repair initial)))
  /\ (In p (platforms (repair initial)) -> In p initial \/ Synthesised p).
Proof. apply repair_members. Qed.

(** X6. De-duplication holds in the emitted platform list: two different
    platforms that are not synthesised (the ground and the platforms made
    from detections) are never both within 0.05 in height and overlapping
    horizontally. *)
Theorem kept_platforms_apart (detections : list Detection.t) (i j : nat)
        (p q : PC) :
  nth_error (finalPlatforms detections) i = Some p ->
  nth_error (finalPlatforms detections) j = Some q ->
  i <> j ->
  PlatformCandidate.isBridge p = false ->
  PlatformCandidate.isBridge q = false ->
  closePair p q = false.
Proof.
  intros Hi Hj Hij Bp Bq.
  assert (A : Apart (finalPlatforms detections)).
  { apply (Apart_incl (initialPlatforms detections));
      [ apply initialPlatforms_Apart | ].
    intros x Hx. rewrite finalPlatforms_firstn in Hx.
    assert (Hx' : In x (platforms (repaired detections))).
    { rewrite <- (firstn_skipn 12 (platforms (repaired detections))).
      apply in_or_app. now left. }
    destruct (repair_members (initialPlatforms detections) x) as [_ H].
    destruct (H Hx') as [H' | (H' & _)]; [ now left | now right ]. }
  apply A; try assumption.
  - eapply nth_error_In; exact Hi.
  - eapply nth_error_In; exact Hj.
  - intro Er. apply Hij.
    destruct (finalPlatforms_Inv detections) as [_ _ N].
    apply (proj1 (NoDup_nth_error (map pref (finalPlatforms detections))) N).
    + rewrite length_map. apply nth_error_Some. rewrite Hi. discriminate.
    + rewrite !nth_error_map, Hi, Hj. simpl. now rewrite Er.
Qed.

Lemma kept_platforms_apart_witness :
  let shelf := candidateOf 0 (detection "shelf" furniture 0.1 0.7 0.2 0.1) in
  nth_error (finalPlatforms (DetectionResponse.detections in_low_shelf)) 0
  = Some groundCandidate
  /\ nth_error (finalPlatforms (DetectionResponse.detections in_low_shelf)) 1
     = Some shelf
  /\ closePair groundCandidate shelf = false.
Proof.
  intro shelf.
  assert (H0 : nth_error (finalPlatforms
                            (DetectionResponse.detections in_low_shelf)) 0
               = Some groundCandidate) by (vm_compute; reflexivity).
  assert (H1 : nth_error (finalPlatforms
                            (DetectionResponse.detections in_low_shelf)) 1
               = Some shelf) by (vm_compute; reflexivity).
  split; [ exact H0 | ]. split; [ exact H1 | ].
  apply (kept_platforms_apart (DetectionResponse.detections in_low_shelf)
                              0 1 groundCandidate shelf H0 H1).
  - discriminate.
  - reflexivity.
  - reflexivity.
Defined.

Lemma sorted_splice {A : Type} (R : A -> A -> Prop) (b : A) :
  forall (l : list A) (i : nat) (lower upper : A),
    Sorted R l ->
    nth_error l i = Some lower ->
    nth_error l (S i) = Some upper ->
    R lower b -> R b upper ->
    Sorted R (splice (S i) b l).
Proof.
  induction l as [ | a l IH ]; intros i lower upper Hs Hlo Hup Rl Ru.
  - destruct i; discriminate.
  - apply Sorted_inv in Hs. destruct Hs as [Hs Hd].
    destruct i as [ | i ]; simpl in Hlo, Hup.
    + injection Hlo as ->. destruct l as [ | c l ]; [ discriminate | ].
      simpl in Hup. injection Hup as ->.
      unfold splice. simpl.
      constructor; [ constructor; [ exact Hs | now constructor ] | now constructor ].
    + rewrite splice_cons. constructor.
      * exact (IH i lower upper Hs Hlo Hup Rl Ru).
      * destruct l as [ | c l ]; [ destruct i; discriminate | ].
        unfold splice. simpl. constructor. now apply HdRel_inv in Hd.
Qed.

(** X7. On a sorted platform list the re-sort that ends a pass moves
    nothing: after a pass that found a violation at index [i], the list is
    the old one with the synthesised platform at index [i + 1], between
    the two platforms of the pair; after a pass without violation it is
    the old list. *)
Theorem resort_keeps_order (st : RepairState) :
  Sorted (inOrder byYDesc) (platforms st) ->
  platforms (repairBody st)
  = match findViolation (S (iterations st)) 0 (platforms st) with
    | Some (i, b) => splice (i + 1) b (platforms st)
    | None => platforms st
    end.
Proof.
  intro Hs. unfold repairBody.
  destruct (findViolation (S (iterations st)) 0 (platforms st))
    as [[i b] | ] eqn:E; cbn [platforms].
  - apply sortBy_id.
    destruct (findViolation_some _ _ _ _ _ E)
      as (j & lower & upper & Hi & Hlo & Hup & Hb & _).
    simpl in Hi. subst j. rewrite Nat.add_1_r.
    pose proof (Adjacent_Sorted _ _ Hs i lower upper Hlo Hup) as Hlu.
    unfold inOrder, byYDesc in Hlu.
    assert (Yb : py b == midY lower upper)
      by (destruct Hb as [[_ ->] | (_ & _ & ->)]; reflexivity).
    unfold midY in Yb.
    assert (Eh : (py lower + py upper) / 2 == (1 # 2) * (py lower + py upper))
      by field.
    apply (sorted_splice _ b _ i lower upper Hs Hlo Hup);
      unfold inOrder, byYDesc; rewrite Yb, Eh; lra.
  - now apply sortBy_id.
Qed.

Lemma resort_keeps_order_witness :
  Sorted (inOrder byYDesc) (platforms st_shelf_top)
  /\ exists b,
       findViolation 1 0 (platforms st_shelf_top) = Some (0%nat, b)
       /\ platforms (repairBody st_shelf_top)
          = [groundCandidate; b;
             candidateOf 0 (detection "shelf" furniture 0.1 0.0 0.5 0.1)].
Proof.
  assert (Hs : Sorted (inOrder byYDesc) (platforms st_shelf_top)).
  { cbn [platforms st_shelf_top].
    repeat constructor. unfold inOrder, byYDesc. vm_compute. discriminate. }
  split; [ exact Hs | ].
  eexists. split; [ vm_compute; reflexivity | ].
  rewrite (resort_keeps_order st_shelf_top Hs).
  vm_compute. reflexivity.
Defined.

Lemma repairBody_length (n0 : nat) (st : RepairState) :
  bridgesInserted st = true ->
  length (platforms st) = (n0 + iterations st)%nat ->
  (length (platforms (repairBody st))
   + (if bridgesInserted (repairBody st) then 0 else 1)
   = n0 + iterations (repairBody st))%nat.
Proof.
  intros Hb Hl. unfold repairBody.
  destruct (findViolation (S (iterations st)) 0 (platforms st))
    as [[i b] | ]; cbn [platforms bridgesInserted iterations];
    rewrite (Permutation_length (sortBy_perm byYDesc _)).
  - rewrite splice_length. lia.
  - lia.
Qed.

Lemma repairLoop_length (n0 : nat) (fuel : nat) :
  forall st,
    (length (platforms st) + (if bridgesInserted st then 0 else 1)
     = n0 + iterations st)%nat ->
    (length (platforms (repairLoop fuel st))
     + (if bridgesInserted (repairLoop fuel st) then 0 else 1)
     = n0 + iterations (repairLoop fuel st))%nat.
Proof.
  induction fuel as [ | fuel IH ]; intros st H; simpl.
  - exact H.
  - destruct (repairCond st) eqn:C; [ | exact H ].
    apply IH. unfold repairCond in C. apply andb_prop in C.
    destruct C as [Hb _]. apply repairBody_length; [ exact Hb | ].
    rewrite Hb in H. lia.
Qed.

(** X8. Every pass of the repair loop inserts at most one platform: with
    [n] platforms at entry, the list at exit has [n + iterations - 1]
    platforms when the last pass found no violation and [n + 10] when the
    cap stopped the loop; the loop makes between 1 and 10 passes.  The
    builder enters with at most 10 platforms and so leaves with at most
    20, before the cut to 12. *)
Theorem repair_length_accounting (initial : list PC) :
  (1 <= iterations (repair initial) <= 10)%nat
  /\ (length (platforms (repair initial))
      + (if bridgesInserted (repair initial) then 0 else 1)
      = length initial + iterations (repair initial))%nat
  /\ (length (platforms (repair initial)) <= length initial + 10)%nat
  /\ forall detections,
       (length (platforms (repaired detections)) <= 20)%nat.
Proof.
  assert (A : forall l,
             (length (platforms (repair l))
              + (if bridgesInserted (repair l) then 0 else 1)
              = length l + iterations (repair l))%nat).
  { intro l. unfold repair. apply repairLoop_length.
    cbn [platforms bridgesInserted iterations].
    rewrite (Permutation_length (sortBy_perm byYDesc _)). lia. }
  assert (B : forall l, (1 <= iterations (repair l) <= 10)%nat).
  { intro l. split.
    - unfold repair.
      change (repairLoop 10 (mkRepair true 0 (sortBy byYDesc l)))
        with (repairLoop 9 (repairBody
                              (mkRepair true 0 (sortBy byYDesc l)))).
      assert (G : forall fuel st, (1 <= iterations st)%nat ->
                                  (1 <= iterations (repairLoop fuel st))%nat).
      { induction fuel as [ | fuel IH ]; intros st H; simpl; [ exact H | ].
        destruct (repairCond st); [ | exact H ].
        apply IH. rewrite repairBody_iterations. lia. }
      apply G. rewrite repairBody_iterations. cbn [iterations]. lia.
    - unfold repair. apply repairLoop_iterations. simpl. lia. }
  assert (C : forall l, (length (platforms (repair l)) <= length l + 10)%nat).
  { intro l. specialize (A l). specialize (B l).
    destruct (repair_exit_cases l) as [E | [E1 E2]].
    - rewrite E in A. lia.
    - rewrite E1 in A. lia. }
  split; [ apply B | ]. split; [ apply A | ]. split; [ apply C | ].
  intro detections. unfold repaired.
  specialize (C (initialPlatforms detections)).
  assert (L : (length (initialPlatforms detections) <= 10)%nat).
  { unfold initialPlatforms. apply firstn_le_length. }
  lia.
Qed.

(** ** Steps F to H: the objects *)

Lemma pushAll_types {A : Type} (mk : nat -> A -> SceneObject.t)
      (ty : ObjectType) (l : list A) :
  (forall c a, SceneObject.type (mk c a) = ty) ->
  forall c, map SceneObject.type (pushAll mk c l) = repeat ty (length l).
Proof.
  intro H. induction l as [ | a l IH ]; intro c; simpl.
  - reflexivity.
  - now rewrite H, IH.
Qed.

Lemma builtObjects_types plats ex :
  map SceneObject.type (builtObjects plats ex)
  = repeat platform (length plats)
    ++ repeat obstacle (length (firstn 4 (obstacleDetections ex)))
    ++ repeat collectible (length (firstn 5 (collectibleDetections ex))).
Proof.
  unfold builtObjects. rewrite !map_app.
  rewrite (pushAll_types platformObject platform), 
    (pushAll_types obstacleObject obstacle),
    (pushAll_types collectibleObject collectible);
    try reflexivity; intros c [k d]; reflexivity.
Qed.

(** X9. The objects of a scene are its platform objects (at most 12),
    then one obstacle for each of the first four narrow detections, then
    one collectible for each of the first five food detections, in this
    order; no object of type hazard is ever emitted, and there are at
    most 21 objects. *)
Theorem objects_layout (input : DetectionResponse.t) :
  let dets := DetectionResponse.detections input in
  exists scene,
    buildLevel input = Some scene
    /\ map SceneObject.type (SceneV1.objects scene)
       = repeat platform (length (finalPlatforms dets))
         ++ repeat obstacle (Nat.min 4 (length (filter isNarrow dets)))
         ++ repeat collectible (Nat.min 5 (length (filter isFood dets)))
    /\ (forall o, In o (SceneV1.objects scene) ->
                  SceneObject.type o <> hazard)
    /\ (length (SceneV1.objects scene) <= 21)%nat.
Proof.
  intro dets.
  destruct (buildLevel_shape input) as (hp & objs & _ & -> & E). fold dets in E.
  eexists. split; [ exact E | ].
  cbn [SceneV1.objects sceneOf].
  set (objs := snd (enemyLoop (enemyPlatforms (finalPlatforms dets)) []
                      (builtObjects (finalPlatforms dets)
                                    (extractFrom 0 dets)))).
  assert (T : map SceneObject.type objs
              = repeat platform (length (finalPlatforms dets))
                ++ repeat obstacle (Nat.min 4 (length (filter isNarrow dets)))
                ++ repeat collectible
                     (Nat.min 5 (length (filter isFood dets)))).
  { unfold objs.
    rewrite (anchored_map SceneObject.type _ _ (fun o => eq_refl)
               (enemyLoop_anchored _ _ _)).
    rewrite builtObjects_types, !length_firstn.
    destruct (extractFrom_spec dets 0%nat) as (Hc & Ho & _).
    rewrite <- Hc, <- Ho, !length_map. reflexivity. }
  split; [ exact T | ]. split.
  - intros o Hin Hh. apply (in_map SceneObject.type) in Hin.
    rewrite T, Hh in Hin.
    apply in_app_or in Hin. destruct Hin as [Hin | Hin];
      [ apply repeat_spec in Hin; discriminate | ].
    apply in_app_or in Hin. destruct Hin as [Hin | Hin];
      apply repeat_spec in Hin; discriminate.
  - rewrite <- (length_map SceneObject.type), T, !length_app, !repeat_length.
    pose proof (finalPlatforms_length dets). lia.
Qed.

Lemma to_uint_not_Nil (n : nat) : Nat.to_uint n <> Decimal.Nil.
Proof.
  intro H. pose proof (Unsigned.of_to n) as E. rewrite H in E.
  simpl in E. subst n. discriminate H.
Qed.

Lemma mkId_counter (prefix : string) (i : nat) :
  In prefix idPrefixes ->
  afterUnderscore (mkId prefix i) = NilZero.string_of_uint (Nat.to_uint i).
Proof.
  intro H. unfold idPrefixes in H.
  repeat (destruct H as [<- | H]; [ reflexivity | ]). contradiction.
Qed.

Lemma mkId_inj (p q : string) (i j : nat) :
  In p idPrefixes -> In q idPrefixes -> mkId p i = mkId q j -> i = j.
Proof.
  intros Hp Hq E. apply (f_equal afterUnderscore) in E.
  rewrite (mkId_counter p i Hp), (mkId_counter q j Hq) in E.
  apply (f_equal NilZero.uint_of_string) in E.
  rewrite !NilZero.usu in E by apply to_uint_not_Nil.
  injection E as E. now apply Unsigned.to_uint_inj.
Qed.

Lemma pushAll_nth_inv {A : Type} (mk : nat -> A -> SceneObject.t) (l : list A) :
  forall c i o, nth_error (pushAll mk c l) i = Some o ->
                exists a, nth_error l i = Some a /\ o = mk (c + i)%nat a.
Proof.
  induction l as [ | b l IH ]; intros c i o H.
  - destruct i; discriminate.
  - destruct i as [ | i ]; simpl in H.
    + injection H as <-. exists b. split; [ reflexivity | now rewrite Nat.add_0_r ].
    + destruct (IH _ _ _ H) as (a & Ha & ->). exists a.
      split; [ exact Ha | f_equal; lia ].
Qed.

Lemma builtObjects_id plats ex (i : nat) (o : SceneObject.t) :
  nth_error (builtObjects plats ex) i = Some o ->
  exists prefix, In prefix idPrefixes /\ SceneObject.id o = mkId prefix i.
Proof.
  unfold builtObjects, idPrefixes. intro H.
  rewrite nth_error_app in H. rewrite pushAll_length in H.
  destruct (i <? length plats)%nat eqn:E1.
  - apply pushAll_nth_inv in H. destruct H as (p & _ & ->). simpl.
    destruct (PlatformCandidate.isGround p);
      [ exists "ground"%string; simpl; tauto | ].
    destruct (PlatformCandidate.isBridge p);
      [ exists "bridge"%string | exists "plat"%string ]; simpl; tauto.
  - apply Nat.ltb_ge in E1. rewrite nth_error_app in H.
    rewrite pushAll_length in H.
    destruct (i - length plats <?
              length (firstn 4 (obstacleDetections ex)))%nat eqn:E2.
    + apply pushAll_nth_inv in H. destruct H as ([k d] & _ & ->).
      exists "obs"%string. split; [ simpl; tauto | ].
      cbn [obstacleObject SceneObject.id]. f_equal. lia.
    + apply Nat.ltb_ge in E2.
      apply pushAll_nth_inv in H. destruct H as ([k d] & _ & ->).
      exists "col"%string. split; [ simpl; tauto | ].
      cbn [collectibleObject SceneObject.id]. f_equal. lia.
Qed.

(** X10. The id of the object at position [i] of [objects] is one of the
    prefixes ground, bridge, plat, obs, col followed by an underscore and
    the decimal numeral of [i]; hence all ids of a scene are pairwise
    distinct. *)
Theorem ids_unique (input : DetectionResponse.t) :
  exists scene,
    buildLevel input = Some scene
    /\ (forall i o, nth_error (SceneV1.objects scene) i = Some o ->
                    exists prefix, In prefix idPrefixes
                                   /\ SceneObject.id o = mkId prefix i)
    /\ NoDup (map SceneObject.id (SceneV1.objects scene)).
Proof.
  destruct (buildLevel_shape input) as (hp & objs & _ & -> & E).
  set (dets := DetectionResponse.detections input) in *.
  set (plats := finalPlatforms dets) in *.
  eexists. split; [ exact E | ].
  cbn [SceneV1.objects sceneOf].
  pose proof (anchored_map SceneObject.id _ _ (fun o => eq_refl)
                (enemyLoop_anchored (enemyPlatforms plats) []
                   (builtObjects plats (extractFrom 0 dets)))) as M.
  set (objs := snd (enemyLoop (enemyPlatforms plats) []
                      (builtObjects plats (extractFrom 0 dets)))) in *.
  assert (I : forall i s, nth_error (map SceneObject.id objs) i = Some s ->
                          exists prefix, In prefix idPrefixes
                                         /\ s = mkId prefix i).
  { intros i s H. rewrite M, nth_error_map in H.
    destruct (nth_error (builtObjects plats (extractFrom 0 dets)) i)
      as [o | ] eqn:Eo; [ | discriminate ].
    injection H as <-. exact (builtObjects_id _ _ _ _ Eo). }
  split.
  - intros i o H. apply I. rewrite nth_error_map, H. reflexivity.
  - apply NoDup_nth_error. intros i j Hi Hij.
    destruct (nth_error (map SceneObject.id objs) i) as [s | ] eqn:Ei.
    + destruct (I i s Ei) as (p & Hp & Es).
      symmetry in Hij. destruct (I j s Hij) as (q & Hq & Es').
      rewrite Es in Es'. exact (mkId_inj p q i j Hp Hq Es').
    + apply nth_error_None in Ei. lia.
Qed.

(** ** Steps K and L: pickups and enemies *)

Lemma pickupLoop_closed (rest : list PC) :
  forall i pickups,
    pickupLoop i rest pickups
    = pickups ++ pickupsFrom i (firstn (5 - length pickups) rest).
Proof.
  induction rest as [ | plat rest IH ]; intros i pickups; cbn [pickupLoop].
  - rewrite firstn_nil. now rewrite app_nil_r.
  - destruct (length pickups <? 5)%nat eqn:E.
    + apply Nat.ltb_lt in E. rewrite IH, <- app_assoc, length_app.
      cbn [length].
      replace (5 - length pickups)%nat with (S (5 - (length pickups + 1)))
        by lia.
      reflexivity.
    + apply Nat.ltb_ge in E.
      replace (5 - length pickups)%nat with 0%nat by lia.
      now rewrite app_nil_r.
Qed.

Lemma bridgePickupLoop_closed (bridgePlats : list PC) :
  forall pickups,
    bridgePickupLoop bridgePlats pickups
    = pickups ++ map (pickupOn 1) (firstn (4 - length pickups) bridgePlats).
Proof.
  induction bridgePlats as [ | bp rest IH ]; intro pickups;
    cbn [bridgePickupLoop].
  - rewrite firstn_nil. now rewrite app_nil_r.
  - destruct (4 <=? length pickups)%nat eqn:E.
    + apply Nat.leb_le in E.
      replace (4 - length pickups)%nat with 0%nat by lia.
      now rewrite app_nil_r.
    + apply Nat.leb_gt in E. rewrite IH, <- app_assoc, length_app.
      cbn [length].
      replace (4 - length pickups)%nat with (S (4 - (length pickups + 1)))
        by lia.
      reflexivity.
Qed.

Lemma pickupsFrom_length (l : list PC) :
  forall i, length (pickupsFrom i l) = length l.
Proof. induction l; intro i; simpl; [ | rewrite IHl ]; reflexivity. Qed.

Lemma pickupsFrom_nth (l : list PC) :
  forall i j pk, nth_error (pickupsFrom i l) j = Some pk ->
                 exists p, nth_error l j = Some p /\ pk = pickupOn (i + j) p.
Proof.
  induction l as [ | a l IH ]; intros i j pk H.
  - destruct j; discriminate.
  - destruct j as [ | j ]; simpl in H.
    + injection H as <-. exists a. split; [ reflexivity | now rewrite Nat.add_0_r ].
    + destruct (IH _ _ _ H) as (p & Hp & ->). exists p.
      split; [ exact Hp | f_equal; lia ].
Qed.

(** The array [pickups], phase by phase. *)
Lemma placePickups_closed (plats : list PC) (groundPlat : PC) :
  let first := pickupsFrom 0 (firstn 5 (filter isPickupPlatform plats)) in
  let second :=
    if (length first <? 3)%nat
    then map (pickupOn 1)
             (firstn (4 - length first)
                     (filter PlatformCandidate.isBridge plats))
    else [] in
  let third :=
    if (length (first ++ second) <? 3)%nat
    then [PickupSpawn.mk 0.3 (py groundPlat - ENTITY_OFFSET_Y) "coin";
          PickupSpawn.mk 0.5 (py groundPlat - ENTITY_OFFSET_Y) "coin"]
    else [] in
  placePickups plats groundPlat = first ++ second ++ third.
Proof.
  cbv zeta. unfold placePickups.
  rewrite pickupLoop_closed. cbn [app length]. rewrite Nat.sub_0_r.
  set (first := pickupsFrom 0 (firstn 5 (filter isPickupPlatform plats))).
  destruct (length first <? 3)%nat.
  - rewrite bridgePickupLoop_closed.
    destruct (length (first ++ _) <? 3)%nat;
      [ now rewrite <- app_assoc | now rewrite app_nil_r ].
  - rewrite app_nil_r.
    destruct (length first <? 3)%nat; [ reflexivity | now rewrite app_nil_r ].
Qed.

(** X11. A scene has between 2 and 5 pickups.  Only the first can be a
    health pickup, and it is one exactly when some platform is neither
    the ground nor synthesised; every other pickup is a coin. *)
Theorem pickup_count_and_types (input : DetectionResponse.t) :
  exists scene,
    buildLevel input = Some scene
    /\ (2 <= length (Spawns.pickups (SceneV1.spawns scene)) <= 5)%nat
    /\ (forall i pk,
           nth_error (Spawns.pickups (SceneV1.spawns scene)) (S i) = Some pk ->
           PickupSpawn.type pk = "coin"%string)
    /\ (forall pk,
           nth_error (Spawns.pickups (SceneV1.spawns scene)) 0 = Some pk ->
           PickupSpawn.type pk
           = if existsb isPickupPlatform
                        (finalPlatforms (DetectionResponse.detections input))
             then "health"%string else "coin"%string).
Proof.
  destruct (buildLevel_shape input) as (hp & objs & _ & _ & E).
  set (plats := finalPlatforms (DetectionResponse.detections input)) in *.
  eexists. split; [ exact E | ].
  cbn [SceneV1.spawns sceneOf Spawns.pickups].
  pose proof (placePickups_closed plats groundCandidate) as C. cbv zeta in C.
  remember (pickupsFrom 0 (firstn 5 (filter isPickupPlatform plats)))
    as first eqn:Ef1.
  set (second := if (length first <? 3)%nat
                 then map (pickupOn 1)
                          (firstn (4 - length first)
                                  (filter PlatformCandidate.isBridge plats))
                 else []) in *.
  set (third := if (length (first ++ second) <? 3)%nat
                then [PickupSpawn.mk 0.3 (py groundCandidate - ENTITY_OFFSET_Y)
                                     "coin";
                      PickupSpawn.mk 0.5 (py groundCandidate - ENTITY_OFFSET_Y)
                                     "coin"]
                else []) in *.
  rewrite C.
  assert (L1 : (length first <= 5)%nat).
  { rewrite Ef1, pickupsFrom_length. apply firstn_le_length. }
  assert (L2 : (length (first ++ second) <= 5)%nat
               /\ (length first < 3 -> length (first ++ second) <= 4)%nat).
  { rewrite length_app. unfold second.
    destruct (length first <? 3)%nat eqn:E3.
    - apply Nat.ltb_lt in E3. rewrite length_map.
      pose proof (firstn_le_length (4 - length first)
                    (filter PlatformCandidate.isBridge plats)).
      unfold PC in *. lia.
    - apply Nat.ltb_ge in E3. simpl. lia. }
  assert (T2 : Forall (fun pk => PickupSpawn.type pk = "coin"%string) second).
  { unfold second. destruct (length first <? 3)%nat; [ | constructor ].
    apply Forall_forall. intros pk H. apply in_map_iff in H.
    destruct H as (p & <- & _). reflexivity. }
  assert (T3 : Forall (fun pk => PickupSpawn.type pk = "coin"%string) third).
  { unfold third. destruct (length (first ++ second) <? 3)%nat;
      repeat constructor. }
  split; [ | split ].
  - rewrite app_assoc, length_app. unfold third.
    destruct (length (first ++ second) <? 3)%nat eqn:E3; simpl.
    + apply Nat.ltb_lt in E3. lia.
    + apply Nat.ltb_ge in E3. lia.
  - intros i pk H.
    rewrite nth_error_app in H.
    destruct (S i <? length first)%nat.
    + rewrite Ef1 in H.
      apply pickupsFrom_nth in H. destruct H as (p & _ & ->). reflexivity.
    + apply nth_error_In in H.
      rewrite Forall_forall in T2, T3.
      apply in_app_or in H. destruct H; auto.
  - intros pk H.
    destruct (filter isPickupPlatform plats) as [ | p0 rest ] eqn:Ef.
    + assert (Ex : existsb isPickupPlatform plats = false).
      { destruct (existsb isPickupPlatform plats) eqn:X; [ | reflexivity ].
        apply existsb_exists in X. destruct X as (p & Hin & Hp).
        assert (Hf : In p (filter isPickupPlatform plats))
          by (apply filter_In; auto).
        rewrite Ef in Hf. contradiction. }
      rewrite Ex. rewrite Ef1 in H. cbn [firstn pickupsFrom app] in H.
      apply nth_error_In in H.
      rewrite Forall_forall in T2, T3.
      apply in_app_or in H. destruct H; auto.
    + assert (Ex : existsb isPickupPlatform plats = true).
      { apply existsb_exists. exists p0.
        assert (Hf : In p0 (filter isPickupPlatform plats))
          by (rewrite Ef; now left).
        apply filter_In in Hf. tauto. }
      rewrite Ex. rewrite Ef1 in H. simpl in H. injection H as <-. reflexivity.
Qed.

Lemma centre_within (p : PC) :
  WellFormed p ->
  px p <= clamp (px p + pw p / 2) 0.05 0.95 <= px p + pw p.
Proof.
  intros ((Hx0 & Hx1) & _ & (Hw0 & Hw1)).
  assert (Eh : pw p / 2 == (1 # 2) * pw p) by field.
  destruct (Qlt_le_dec (px p + pw p / 2) 0.05) as [L | L].
  - assert (C : clamp (px p + pw p / 2) 0.05 0.95 == 0.05).
    { unfold clamp. apply Q.max_l.
      eapply Qle_trans; [ apply Q.le_min_r | lra ]. }
    rewrite C. lra.
  - destruct (Qlt_le_dec 0.95 (px p + pw p / 2)) as [G | G].
    + assert (C : clamp (px p + pw p / 2) 0.05 0.95 == 0.95)
        by (apply clamp_above; lra).
      rewrite C. lra.
    + rewrite (clamp_inside _ 0.05 0.95 L G). lra.
Qed.

(** A spawn put on [p] by the pickup and enemy loops stands on the object
    of [p]. *)
Lemma on_platform_liesOn image plats hp ex (p : PC) (s : SpawnPoint.t) :
  In p plats -> WellFormed p ->
  SpawnPoint.x s = clamp (px p + pw p / 2) 0.05 0.95 ->
  SpawnPoint.y s = py p - ENTITY_OFFSET_Y ->
  exists o,
    In o (SceneV1.objects
            (sceneOf image plats hp
               (snd (enemyLoop (enemyPlatforms plats) []
                               (builtObjects plats ex)))))
    /\ objBounds o = pb p
    /\ liesOn s o.
Proof.
  intros Hin W Hx Hy.
  destruct (In_map_pb_emitted image plats hp ex p Hin) as (o & Ho & Hty & Hb).
  exists o. split; [ exact Ho | ]. split; [ exact Hb | ].
  split; [ exact Hty | ]. rewrite Hb, Hx, Hy.
  split; [ reflexivity | ]. apply (centre_within p W).
Qed.

Lemma firstn_In {A : Type} (n : nat) (l : list A) (a : A) :
  In a (firstn n l) -> In a l.
Proof.
  intro H. rewrite <- (firstn_skipn n l). apply in_or_app. now left.
Qed.

Lemma pickupsFrom_In (l : list PC) :
  forall i pk, In pk (pickupsFrom i l) ->
               exists j p, In p l /\ pk = pickupOn j p.
Proof.
  induction l as [ | a l IH ]; intros i pk H; simpl in H.
  - contradiction.
  - destruct H as [<- | H].
    + exists i, a. split; [ now left | reflexivity ].
    + destruct (IH _ _ H) as (j & p & Hp & ->).
      exists j, p. split; [ now right | reflexivity ].
Qed.

(** Every pickup was pushed for a platform of the list, or is one of the
    two literal pickups above the ground. *)
Lemma placePickups_In (plats : list PC) (groundPlat : PC) (pk : PickupSpawn.t) :
  In pk (placePickups plats groundPlat) ->
  (exists j p, In p plats /\ pk = pickupOn j p)
  \/ ((PickupSpawn.x pk = 0.3 \/ PickupSpawn.x pk = 0.5)
      /\ PickupSpawn.y pk = py groundPlat - ENTITY_OFFSET_Y).
Proof.
  rewrite placePickups_closed. cbv zeta.
  set (first := pickupsFrom 0 (firstn 5 (filter isPickupPlatform plats))).
  intro H. apply in_app_or in H. destruct H as [H | H].
  - left. apply pickupsFrom_In in H. destruct H as (j & p & Hp & ->).
    exists j, p. split; [ | reflexivity ].
    apply firstn_In, filter_In in Hp. tauto.
  - apply in_app_or in H. destruct H as [H | H].
    + left. destruct (length first <? 3)%nat; [ | contradiction ].
      apply in_map_iff in H. destruct H as (p & <- & Hp).
      exists 1%nat, p. split; [ | reflexivity ].
      apply firstn_In, filter_In in Hp. tauto.
    + right. destruct (length (first ++ _) <? 3)%nat; [ | contradiction ].
      destruct H as [<- | [<- | []]]; simpl; auto.
Qed.

(** X12. Every enemy and every pickup of a scene stands on a platform
    object: at the clearance 0.06 above it and horizontally within its
    span.  An enemy stands on an object wider than 0.15. *)
Theorem enemies_and_pickups_on_platforms (input : DetectionResponse.t) :
  exists scene,
    buildLevel input = Some scene
    /\ (forall e, In e (Spawns.enemies (SceneV1.spawns scene)) ->
                  EnemySpawn.type e = "walker"%string
                  /\ exists o, In o (SceneV1.objects scene)
                               /\ liesOn (enemyPoint e) o
                               /\ 0.15 < Bounds.w (objBounds o))
    /\ (forall pk, In pk (Spawns.pickups (SceneV1.spawns scene)) ->
                   exists o, In o (SceneV1.objects scene)
                             /\ liesOn (pickupPoint pk) o)
    /\ (length (Spawns.enemies (SceneV1.spawns scene)) <= 2)%nat.
Proof.
  destruct (buildLevel_shape input) as (hp & objs & _ & -> & E).
  set (dets := DetectionResponse.detections input) in *.
  set (plats := finalPlatforms dets) in *.
  eexists. split; [ exact E | ].
  destruct (finalPlatforms_Inv dets) as [(tl & Eg & _) F _].
  fold plats in Eg, F. rewrite Forall_forall in F.
  cbn [SceneV1.spawns sceneOf Spawns.enemies Spawns.pickups].
  split; [ | split ].
  - intros e He. apply in_map_iff in He. destruct He as (p & <- & Hp).
    split; [ reflexivity | ].
    apply firstn_In, filter_In in Hp. destruct Hp as [Hp Hf].
    destruct (on_platform_liesOn (DetectionResponse.image input) plats hp
                (extractFrom 0 dets) p (enemyPoint (enemyOn p)) Hp
                (proj1 (F p Hp)) eq_refl eq_refl) as (o & Ho & Hb & Hl).
    exists o. split; [ exact Ho | ]. split; [ exact Hl | ].
    rewrite Hb. unfold isEnemyPlatform in Hf.
    apply andb_prop in Hf. destruct Hf as [_ Hw]. now apply Qltb_true in Hw.
  - intros pk Hpk. apply placePickups_In in Hpk.
    destruct Hpk as [(j & p & Hp & ->) | (Hx & Hy)].
    + destruct (on_platform_liesOn (DetectionResponse.image input) plats hp
                  (extractFrom 0 dets) p (pickupPoint (pickupOn j p)) Hp
                  (proj1 (F p Hp)) eq_refl eq_refl) as (o & Ho & _ & Hl).
      exists o. split; [ exact Ho | exact Hl ].
    + assert (Hg : In groundCandidate plats) by (rewrite Eg; now left).
      destruct (In_map_pb_emitted (DetectionResponse.image input) plats hp
                  (extractFrom 0 dets) groundCandidate Hg)
        as (o & Ho & Hty & Hb).
      exists o. split; [ exact Ho | ].
      split; [ exact Hty | ]. rewrite Hb.
      unfold pickupPoint. cbn [SpawnPoint.x SpawnPoint.y]. rewrite Hy.
      split; [ reflexivity | ].
      destruct Hx as [-> | ->]; split; vm_compute; discriminate.
  - rewrite length_map. unfold enemyPlatforms. apply firstn_le_length.
Qed.


Lemma markAnchor_miss plat objs :
  forall i o, nth_error objs i = Some o ->
              isObjectOf plat o = false ->
              nth_error (markAnchor plat objs) i = Some o.
Proof.
  induction objs as [ | o0 rest IH ]; intros i o Hi Ho.
  - destruct i; discriminate.
  - simpl. destruct (isObjectOf plat o0) eqn:E.
    + destruct i as [ | i ]; simpl in Hi |- *; [ | exact Hi ].
      injection Hi as ->. congruence.
    + destruct i as [ | i ]; simpl in Hi |- *; [ exact Hi | ].
      now apply IH.
Qed.

(** An object that matches none of the chosen platforms is left as it is. *)
Lemma enemyLoop_miss chosen :
  forall enemies objs i o,
    nth_error objs i = Some o ->
    (forall plat, In plat chosen -> isObjectOf plat o = false) ->
    nth_error (snd (enemyLoop chosen enemies objs)) i = Some o.
Proof.
  induction chosen as [ | plat rest IH ]; intros enemies objs i o Hi Hno.
  - exact Hi.
  - cbn [enemyLoop]. apply IH.
    + apply markAnchor_miss; [ exact Hi | apply Hno; now left ].
    + intros c Hc. apply Hno. now right.
Qed.

Lemma NoDup_map_inj {A B : Type} (f : A -> B) (l : list A) (a b : A) :
  NoDup (map f l) -> In a l -> In b l -> f a = f b -> a = b.
Proof.
  induction l as [ | x l IH ]; intros N Ha Hb E.
  - contradiction.
  - simpl in N. inversion N as [ | ? ? Hx Nl ]; subst.
    destruct Ha as [-> | Ha], Hb as [-> | Hb].
    + reflexivity.
    + exfalso. apply Hx. rewrite E. now apply in_map.
    + exfalso. apply Hx. rewrite <- E. now apply in_map.
    + now apply IH.
Qed.

Lemma unmarked_platforms (dets : list Detection.t) (p : PC) :
  In p (finalPlatforms dets) ->
  PlatformCandidate.isGround p = true \/ PlatformCandidate.isBridge p = true ->
  PlatformCandidate.enemyAnchor p = false.
Proof.
  intro Hin.
  assert (H : Forall (fun p => PlatformCandidate.isGround p = true
                               \/ PlatformCandidate.isBridge p = true ->
                               PlatformCandidate.enemyAnchor p = false)
                     (finalPlatforms dets)).
  { apply finalPlatforms_Forall.
    - reflexivity.
    - intros k d _ _ [C | C]; discriminate C.
    - reflexivity.
    - reflexivity. }
  rewrite Forall_forall in H. now apply H.
Qed.

(** The flag [enemyAnchor] of a platform of the final list says that the
    platform was built from a detection of category plant or electric. *)
Lemma enemyAnchor_category (dets : list Detection.t) (p : PC) :
  In p (finalPlatforms dets) ->
  (PlatformCandidate.enemyAnchor p = true
   <-> exists k d, pref p = RefPlat k
                   /\ nth_error dets k = Some d
                   /\ (Detection.category d = plant
                       \/ Detection.category d = electric)).
Proof.
  intro Hin.
  destruct (finalPlatforms_Inv dets) as [_ F _].
  rewrite Forall_forall in F. destruct (F p Hin) as [_ Pp].
  unfold Provenance in Pp. destruct (pref p) as [k | k | | j] eqn:Er.
  - contradiction.
  - destruct Pp as (d & Hd & _ & ->).
    cbn [candidateOf PlatformCandidate.enemyAnchor]. split.
    + intro H. exists k, d. split; [ reflexivity | ]. split; [ exact Hd | ].
      apply orb_prop in H. destruct H as [H | H];
        apply Category_eqb_eq in H; auto.
    + intros (k' & d' & Ek & Hd' & Hc). injection Ek as <-.
      assert (d' = d) by congruence. subst d'.
      destruct Hc as [-> | ->]; reflexivity.
  - subst p. split; [ discriminate | ].
    intros (k & d & Ek & _). discriminate Ek.
  - destruct Pp as (_ & Hb & _).
    rewrite (unmarked_platforms dets p Hin (or_intror Hb)).
    split; [ discriminate | ].
    intros (k & d & Ek & _). discriminate Ek.
Qed.

(** X14. The flag enemy_spawn_anchor of the emitted objects.  A platform
    object has it true exactly when its platform was chosen by enemy
    placement, or its bounds were built for a detection of category
    plant or electric; otherwise it is false.  The objects of the ground
    and of the synthesised platforms always have it false.  The enemy
    loop leaves every obstacle and collectible object as it was built. *)
Theorem enemy_anchor_flags (input : DetectionResponse.t) :
  let dets := DetectionResponse.detections input in
  let plats := finalPlatforms dets in
  exists scene,
    buildLevel input = Some scene
    /\ (forall i p,
           nth_error plats i = Some p ->
           exists o b,
             nth_error (SceneV1.objects scene) i = Some o
             /\ SceneObject.enemy_spawn_anchor o = Some b
             /\ ref (SceneObject.bounds_normalized o) = pref p
             /\ (b = true
                 <-> In p (enemyPlatforms plats)
                     \/ exists k d,
                         ref (SceneObject.bounds_normalized o) = RefPlat k
                         /\ nth_error dets k = Some d
                         /\ (Detection.category d = plant
                             \/ Detection.category d = electric))
             /\ (PlatformCandidate.isGround p = true
                 \/ PlatformCandidate.isBridge p = true -> b = false)
             /\ match ref (SceneObject.bounds_normalized o) with
                | RefGround | RefBridge _ => b = false
                | _ => True
                end)
    /\ (forall i o,
           nth_error (builtObjects plats (extractFrom 0 dets)) i = Some o ->
           SceneObject.type o <> platform ->
           nth_error (SceneV1.objects scene) i = Some o).
Proof.
  intros dets plats.
  destruct (buildLevel_shape input) as (hp & objs & _ & -> & E).
  fold dets in E. fold plats in E.
  eexists. split; [ exact E | ].
  cbn [SceneV1.objects sceneOf].
  destruct (finalPlatforms_Inv dets) as [_ _ N]. fold plats in N.
  assert (Hsub : forall c, In c (enemyPlatforms plats) ->
                           In c plats /\ isEnemyPlatform c = true).
  { intros c Hc. apply firstn_In, filter_In in Hc. exact Hc. }
  split.
  - intros i p Hi.
    pose proof (nth_error_In _ _ Hi) as Hin.
    destruct (existsb (fun c => Ref_eqb (pref p) (pref c))
                      (enemyPlatforms plats)) eqn:Hc.
    + apply existsb_exists in Hc. destruct Hc as (c & Hc & Ec).
      apply Ref_eqb_eq in Ec.
      destruct (Hsub c Hc) as [Hcin Hcf].
      assert (c = p) by (apply (NoDup_map_inj pref plats); auto). subst c.
      exists (setAnchor (platformObject i p)), true.
      split.
      { apply (enemyLoop_marks _ _ _ p); [ exact Hc | | | ].
        - now apply builtObjects_nth.
        - unfold isObjectOf. simpl. apply Ref_eqb_eq. reflexivity.
        - intros j o' Hj Hn.
          destruct (nth_error plats j) as [pj | ] eqn:Ej.
          + rewrite (builtObjects_nth _ _ _ _ Ej) in Hn. injection Hn as <-.
            unfold isObjectOf. simpl.
            destruct (Ref_eqb (ref (PlatformCandidate.bounds pj))
                              (ref (PlatformCandidate.bounds p))) eqn:Er;
              [ | reflexivity ].
            exfalso. apply Ref_eqb_eq in Er.
            assert (Hij : j = i).
            { apply (proj1 (NoDup_nth_error (map pref plats)) N).
              - rewrite length_map. apply nth_error_Some.
                rewrite Ej. discriminate.
              - rewrite !nth_error_map, Ej, Hi. simpl. unfold pref.
                now rewrite Er. }
            lia.
          + exfalso. apply nth_error_None in Ej.
            assert (Hlt : (i < length plats)%nat)
              by (apply nth_error_Some; rewrite Hi; discriminate).
            lia. }
      split; [ reflexivity | ]. split; [ reflexivity | ]. split.
      { split; [ intros _; now left | reflexivity ]. }
      assert (Hgb : PlatformCandidate.isGround p = true
                    \/ PlatformCandidate.isBridge p = true -> False).
      { intros [G | G]; unfold isEnemyPlatform in Hcf;
          rewrite G in Hcf; simpl in Hcf;
          [ discriminate | now rewrite andb_false_r in Hcf ]. }
      split; [ intro G; destruct (Hgb G) | ].
      cbn [setAnchor SceneObject.bounds_normalized platformObject].
      destruct (finalPlatforms_Inv dets) as [_ F _]. fold plats in F.
      rewrite Forall_forall in F. destruct (F p Hin) as [_ Pp].
      unfold Provenance, pref in Pp.
      destruct (ref (PlatformCandidate.bounds p)); try exact I.
      * subst p. exfalso. apply Hgb. now left.
      * exfalso. apply Hgb. now right.
    + exists (platformObject i p), (PlatformCandidate.enemyAnchor p).
      split.
      { apply enemyLoop_miss; [ now apply builtObjects_nth | ].
        intros c Hcin. unfold isObjectOf. simpl.
        destruct (Ref_eqb (ref (PlatformCandidate.bounds p))
                          (ref (PlatformCandidate.bounds c))) eqn:Er;
          [ | reflexivity ].
        exfalso.
        assert (T : existsb (fun c => Ref_eqb (pref p) (pref c))
                            (enemyPlatforms plats) = true).
        { apply existsb_exists. exists c. split; [ exact Hcin | exact Er ]. }
        congruence. }
      split; [ reflexivity | ]. split; [ reflexivity | ]. split.
      { cbn [SceneObject.bounds_normalized platformObject]. fold (pref p).
        rewrite (enemyAnchor_category dets p Hin).
        split; [ now right | ].
        intros [Hch | He]; [ | exact He ].
        exfalso.
        assert (T : existsb (fun c => Ref_eqb (pref p) (pref c))
                            (enemyPlatforms plats) = true).
        { apply existsb_exists. exists p.
          split; [ exact Hch | apply Ref_eqb_eq; reflexivity ]. }
        congruence. }
      split; [ exact (unmarked_platforms dets p Hin) | ].
      cbn [SceneObject.bounds_normalized platformObject].
      destruct (finalPlatforms_Inv dets) as [_ F _]. fold plats in F.
      rewrite Forall_forall in F. destruct (F p Hin) as [_ Pp].
      unfold Provenance, pref in Pp.
      destruct (ref (PlatformCandidate.bounds p)); try exact I.
      * subst p. reflexivity.
      * destruct Pp as (_ & Hb & _).
        exact (unmarked_platforms dets p Hin (or_intror Hb)).
  - intros i o Hi Hty. apply enemyLoop_miss; [ exact Hi | ].
    intros c _. unfold isObjectOf.
    destruct (SceneObject.type o); simpl; congruence.
Qed.

(** ** The platform factory *)

Lemma existsb_false {A : Type} (f : A -> bool) (l : list A) :
  existsb f l = false -> Forall (fun a => f a = false) l.
Proof.
  intro H. apply Forall_forall. intros a Ha.
  destruct (f a) eqn:E; [ | reflexivity ].
  assert (T : existsb f l = true) by (apply existsb_exists; eauto).
  congruence.
Qed.

Section Factory.
Variable imp : Imports.t.
Variables worldW worldH : Q.
Variable phys : ComputedPhysics.t.

Let boxSize : Q := inject_Z (boxSizeOf worldH).
Let minGap : Q := ComputedPhysics.playerSizePx phys * 2.
Let maxReachableY : Q :=
  worldH - ComputedPhysics.maxJumpHeight phys * 0.85.
Let step : Factory -> SceneObject.t -> Factory :=
  placeOne imp worldW worldH phys boxSize (inject_Z MIN_TILES * boxSize)
           minGap (ComputedPhysics.maxJumpHeight phys * 0.85).

(** What one pass of the loop does: nothing, or one rectangle and one
    zone more. *)
Lemma placeOne_cases (st : Factory) (obj : SceneObject.t) :
  step st obj = st
  \/ exists (z : Zone.t) (n : Z),
      step st obj = mkFactory (placedRects st ++ [zoneRect z])
                              (group st ++ [z])
      /\ bigEnough imp worldW worldH phys obj = true
      /\ Forall (fun placed => rectsTooClose (zoneRect z) placed minGap = false)
                (placedRects st)
      /\ Zone.height z = boxSize
      /\ Zone.width z = inject_Z n * boxSize
      /\ (5 <= n)%Z
      /\ Zone.tiles z
         = map (fun i : nat =>
                  Tile.mk (Zone.x z - Zone.width z / 2
                           + boxSize * inject_Z (Z.of_nat i) + boxSize / 2)
                          (Zone.y z)
                          (Imports.getIconTextureKey
                             imp
                             match Zone.surfaceType z with
                             | solid => "platform_solid"%string
                             | soft => "platform_soft"%string
                             end
                             ICON_RENDER_SIZE)
                          boxSize boxSize 0.7)
               (seq 0 (Z.to_nat n))
      /\ Zone.surfaceType z
         = match SceneObject.surface_type obj with
           | Some s => s
           | None => solid
           end
      /\ Zone.x z
         = Rect.x (Imports.normRectToWorldRect
                     imp (val (SceneObject.bounds_normalized obj))
                     worldW worldH)
           + Rect.w (Imports.normRectToWorldRect
                       imp (val (SceneObject.bounds_normalized obj))
                       worldW worldH) / 2
      /\ ((maxReachableY <= Zone.y z - boxSize / 2
           \/ Zone.y z = maxReachableY + boxSize / 2)
          \/ exists p, In p (placedRects st)
                       /\ Zone.y z < Rect.y p + Rect.h p
                       /\ Rect.y p + Rect.h p <= worldH).
Proof.
  unfold step, placeOne, bigEnough. cbv zeta.
  set (rect := Imports.normRectToWorldRect
                 imp (val (SceneObject.bounds_normalized obj)) worldW worldH).
  destruct ((Rect.w rect <? ComputedPhysics.minPlatformWidth phys)
            || (Rect.h rect <? ComputedPhysics.minPlatformHeight phys));
    [ now left | ].
  set (n := Z.max MIN_TILES
                  (round (Qmax (Rect.w rect) (inject_Z MIN_TILES * boxSize)
                          / boxSize))).
  set (cy0 := Rect.y rect + Rect.h rect / 2).
  set (lower := existsb (fun p => (cy0 <? Rect.y p + Rect.h p)
                                  && negb (worldH <? Rect.y p + Rect.h p))
                        (placedRects st)).
  set (cy := if cy0 - boxSize / 2
                <? worldH - ComputedPhysics.maxJumpHeight phys * 0.85
             then if negb lower
                  then worldH - ComputedPhysics.maxJumpHeight phys * 0.85
                       + boxSize / 2
                  else cy0
             else cy0).
  match goal with
  | |- context [existsb ?f (placedRects st)] =>
      match f with
      | (fun placed => rectsTooClose _ placed _) =>
          destruct (existsb f (placedRects st)) eqn:Eclose
      end
  end; [ now left | ].
  right.
  eexists (Zone.mk _ _ _ _ _ _), n.
  split; [ reflexivity | ]. split; [ reflexivity | ].
  split; [ exact (existsb_false _ _ Eclose) | ].
  split; [ reflexivity | ]. split; [ reflexivity | ].
  split; [ unfold n, MIN_TILES; apply Z.le_max_l | ].
  split.
  { cbn [Zone.tiles Zone.x Zone.width Zone.y Zone.surfaceType].
    destruct (SceneObject.surface_type obj) as [[ | ] | ]; reflexivity. }
  split; [ reflexivity | ]. split; [ reflexivity | ].
  cbn [Zone.y]. fold cy. unfold maxReachableY.
  unfold cy.
  destruct (cy0 - boxSize / 2
            <? worldH - ComputedPhysics.maxJumpHeight phys * 0.85) eqn:Etop.
  - destruct lower eqn:El; cbn [negb].
    + right. unfold lower in El. apply existsb_exists in El.
      destruct El as (p & Hp & Hc). apply andb_prop in Hc.
      destruct Hc as [H1 H2]. apply Qltb_true in H1.
      apply negb_true_iff, Qltb_false in H2.
      exists p. split; [ exact Hp | split; [ exact H1 | exact H2 ] ].
    + left. right. reflexivity.
  - left. left. apply Qltb_false in Etop. exact Etop.
Qed.

(** An invariant of the loop holds at its end. *)
Lemma runFactory_invariant (I : Factory -> Prop) (objects : list SceneObject.t) :
  I (mkFactory [] []) ->
  (forall st obj,
      In obj objects -> SceneObject.type obj = platform ->
      I st -> I (step st obj)) ->
  I (runFactory imp objects worldW worldH phys).
Proof.
  intros H0 Hs. unfold runFactory. cbv zeta.
  fold boxSize. fold minGap. fold step.
  assert (Hin : forall o,
             In o (filter (fun o => ObjectType_eqb (SceneObject.type o) platform)
                          objects) ->
             In o objects /\ SceneObject.type o = platform).
  { intros o Ho. apply filter_In in Ho. destruct Ho as [Ho Ht].
    split; [ exact Ho | ]. destruct (SceneObject.type o); simpl in Ht; congruence. }
  revert Hin.
  generalize (filter (fun o => ObjectType_eqb (SceneObject.type o) platform)
                     objects).
  intro l. revert H0. generalize (mkFactory [] []).
  induction l as [ | o l IH ]; intros st H Hin; simpl.
  - exact H.
  - apply IH.
    + destruct (Hin o (or_introl eq_refl)) as [Ho Ht]. now apply Hs.
    + intros o' Ho'. apply Hin. now right.
Qed.

(** Rectangles and zones go together. *)
Lemma runFactory_rects (objects : list SceneObject.t) :
  placedRects (runFactory imp objects worldW worldH phys)
  = map zoneRect (group (runFactory imp objects worldW worldH phys)).
Proof.
  apply (runFactory_invariant
           (fun st => placedRects st = map zoneRect (group st)));
    [ reflexivity | ].
  intros st obj _ _ H.
  destruct (placeOne_cases st obj) as [-> | (z & n & -> & _)]; [ exact H | ].
  cbn [placedRects group]. now rewrite map_app, H.
Qed.

Lemma runFactory_apart (objects : list SceneObject.t) :
  ForallOrdPairs (fun a b => rectsTooClose b a minGap = false)
                 (placedRects (runFactory imp objects worldW worldH phys)).
Proof.
  apply (runFactory_invariant
           (fun st => ForallOrdPairs
                        (fun a b => rectsTooClose b a minGap = false)
                        (placedRects st)));
    [ constructor | ].
  intros st obj _ _ H.
  destruct (placeOne_cases st obj) as [-> | (z & n & -> & _ & F & _)];
    [ exact H | ].
  cbn [placedRects]. now apply FOP_snoc.
Qed.

Lemma runFactory_zones (P : Zone.t -> Prop) (objects : list SceneObject.t) :
  (forall st obj z n,
      In obj objects -> SceneObject.type obj = platform ->
      step st obj = mkFactory (placedRects st ++ [zoneRect z])
                              (group st ++ [z]) ->
      Zone.height z = boxSize ->
      Zone.width z = inject_Z n * boxSize ->
      (5 <= n)%Z ->
      Zone.tiles z
      = map (fun i : nat =>
               Tile.mk (Zone.x z - Zone.width z / 2
                        + boxSize * inject_Z (Z.of_nat i) + boxSize / 2)
                       (Zone.y z)
                       (Imports.getIconTextureKey
                          imp
                          match Zone.surfaceType z with
                          | solid => "platform_solid"%string
                          | soft => "platform_soft"%string
                          end
                          ICON_RENDER_SIZE)
                       boxSize boxSize 0.7)
            (seq 0 (Z.to_nat n)) ->
      Zone.surfaceType z
      = match SceneObject.surface_type obj with
        | Some s => s
        | None => solid
        end ->
      P z) ->
  Forall P (group (runFactory imp objects worldW worldH phys)).
Proof.
  intro HP.
  apply (runFactory_invariant (fun st => Forall P (group st)));
    [ constructor | ].
  intros st obj Hin Hty H.
  destruct (placeOne_cases st obj)
    as [-> | (z & n & E & _ & _ & Hh & Hw & Hn & Ht & Hs & _)];
    [ exact H | ].
  rewrite E. cbn [group]. apply Forall_app. split; [ exact H | ].
  constructor; [ | constructor ].
  exact (HP st obj z n Hin Hty E Hh Hw Hn Ht Hs).
Qed.

Lemma runFactory_reach (objects : list SceneObject.t) :
  forall k z,
    nth_error (group (runFactory imp objects worldW worldH phys)) k = Some z ->
    (maxReachableY <= Zone.y z - boxSize / 2
     \/ Zone.y z = maxReachableY + boxSize / 2)
    \/ exists j zj,
        (j < k)%nat
        /\ nth_error (group (runFactory imp objects worldW worldH phys)) j
           = Some zj
        /\ Zone.y z < Rect.y (zoneRect zj) + Rect.h (zoneRect zj)
        /\ Rect.y (zoneRect zj) + Rect.h (zoneRect zj) <= worldH.
Proof.
  apply (runFactory_invariant
           (fun st =>
              placedRects st = map zoneRect (group st)
              /\ forall k z,
                  nth_error (group st) k = Some z ->
                  (maxReachableY <= Zone.y z - boxSize / 2
                   \/ Zone.y z = maxReachableY + boxSize / 2)
                  \/ exists j zj,
                      (j < k)%nat
                      /\ nth_error (group st) j = Some zj
                      /\ Zone.y z < Rect.y (zoneRect zj) + Rect.h (zoneRect zj)
                      /\ Rect.y (zoneRect zj) + Rect.h (zoneRect zj)
                         <= worldH)).
  - split; [ reflexivity | ]. intros k z H. destruct k; discriminate.
  - intros st obj _ _ [HR H].
    destruct (placeOne_cases st obj)
      as [-> | (z & n & -> & _ & _ & _ & _ & _ & _ & _ & _ & Hreach)];
      [ split; assumption | ].
    cbn [placedRects group]. split; [ now rewrite map_app, HR | ].
    intros k z' Hk. rewrite nth_error_app in Hk.
    destruct (k <? length (group st))%nat eqn:E.
    + apply Nat.ltb_lt in E.
      destruct (H k z' Hk) as [L | (j & zj & Hj & Hn & Hb)]; [ now left | ].
      right. exists j, zj. split; [ exact Hj | ].
      split; [ | exact Hb ].
      rewrite nth_error_app1; [ exact Hn | lia ].
    + apply Nat.ltb_ge in E.
      destruct (k - length (group st))%nat as [ | m ] eqn:Ek;
        [ | destruct m; discriminate ].
      simpl in Hk. injection Hk as <-.
      destruct Hreach as [L | (p & Hp & Hb)]; [ now left | ].
      right. rewrite HR in Hp. apply in_map_iff in Hp.
      destruct Hp as (zj & <- & Hzj).
      apply In_nth_error in Hzj. destruct Hzj as (j & Hj).
      assert (Hlt : (j < length (group st))%nat)
        by (apply nth_error_Some; rewrite Hj; discriminate).
      exists j, zj. split; [ lia | ]. split; [ | exact Hb ].
      rewrite nth_error_app1; [ exact Hj | exact Hlt ].
Qed.
Lemma placeOne_first (st : Factory) (obj : SceneObject.t) :
  placedRects st = [] ->
  bigEnough imp worldW worldH phys obj = true ->
  exists z, step st obj = mkFactory [zoneRect z] (group st ++ [z]).
Proof.
  intros Hnil Hbig. unfold step, placeOne. unfold bigEnough in Hbig.
  cbv zeta in *.
  apply negb_true_iff in Hbig. rewrite Hbig, Hnil. cbn [existsb app].
  eexists (Zone.mk _ _ _ _ _ _). reflexivity.
Qed.

Lemma fold_count (l : list SceneObject.t) :
  forall st,
    (length (group (fold_left step l st))
     <= length (group st)
        + length (filter (bigEnough imp worldW worldH phys) l))%nat.
Proof.
  induction l as [ | o l IH ]; intro st; cbn [fold_left filter].
  - simpl. lia.
  - specialize (IH (step st o)).
    destruct (placeOne_cases st o) as [E | (z & n & E & Hbig & _)].
    + rewrite E in IH |- *.
      destruct (bigEnough imp worldW worldH phys o); cbn [length]; lia.
    + rewrite Hbig. cbn [length].
      assert (L : length (group (step st o)) = S (length (group st))).
      { rewrite E. cbn [group]. rewrite length_app. simpl. lia. }
      lia.
Qed.

Lemma fold_empty (l : list SceneObject.t) :
  forall st,
    length (placedRects st) = length (group st) ->
    (group (fold_left step l st) = []
     <-> group st = [] /\ filter (bigEnough imp worldW worldH phys) l = []).
Proof.
  induction l as [ | o l IH ]; intros st Hlen; cbn [fold_left filter].
  - tauto.
  - destruct (bigEnough imp worldW worldH phys o) eqn:Hbig.
    + split; [ | intros [_ C]; discriminate C ].
      intro H. exfalso.
      destruct (group st) as [ | z0 g ] eqn:Eg.
      * assert (Hnil : placedRects st = [])
          by (destruct (placedRects st); [ reflexivity | discriminate Hlen ]).
        destruct (placeOne_first st o Hnil Hbig) as (z & E).
        rewrite E in H. apply IH in H; [ | rewrite Eg; reflexivity ].
        destruct H as [H _]. cbn [group] in H. rewrite Eg in H. discriminate H.
      * rewrite <- Eg in Hlen.
        destruct (placeOne_cases st o) as [E | (z & n & E & _)];
          rewrite E in H.
        -- apply IH in H; [ | exact Hlen ]. destruct H as [H _].
           rewrite Eg in H. discriminate H.
        -- apply IH in H;
             [ | cbn [placedRects group]; rewrite !length_app; simpl; lia ].
           destruct H as [H _]. cbn [group] in H. rewrite Eg in H.
           discriminate H.
    + destruct (placeOne_cases st o) as [E | (z & n & E & Hb & _)];
        [ | congruence ].
      rewrite E. now apply IH.
Qed.
End Factory.

Lemma FOP_nth {A : Type} (R : A -> A -> Prop) (l : list A) :
  ForallOrdPairs R l ->
  forall i j a b, (i < j)%nat -> nth_error l i = Some a ->
                  nth_error l j = Some b -> R a b.
Proof.
  induction 1 as [ | x l Hx Hl IH ]; intros i j a b Hij Hi Hj.
  - destruct i; discriminate.
  - destruct j as [ | j ]; [ lia | ]. simpl in Hj.
    destruct i as [ | i ]; simpl in Hi.
    + injection Hi as <-. rewrite Forall_forall in Hx.
      apply Hx. eapply nth_error_In; exact Hj.
    + apply (IH i j); [ lia | exact Hi | exact Hj ].
Qed.

(** X16. A zone made by the factory is not too close to any zone made
    before it: with the later zone as first argument and the earlier one
    as second, as the factory calls it, [rectsTooClose] is false at the
    gap of twice the player size. *)
Theorem factory_zones_apart (imp : Imports.t) (objects : list SceneObject.t)
        (worldW worldH : Q) (phys : ComputedPhysics.t)
        (i j : nat) (earlier later : Zone.t) :
  (0 < boxSizeOf worldH)%Z ->
  nth_error (createPlatforms imp objects worldW worldH phys) i = Some earlier ->
  nth_error (createPlatforms imp objects worldW worldH phys) j = Some later ->
  (i < j)%nat ->
  rectsTooClose (zoneRect later) (zoneRect earlier)
                (ComputedPhysics.playerSizePx phys * 2) = false.
Proof.
  intros _ H1 H2 Hij. unfold createPlatforms in H1, H2.
  pose proof (runFactory_apart imp worldW worldH phys objects) as A.
  rewrite runFactory_rects in A.
  assert (N1 : nth_error (map zoneRect
                            (group (runFactory imp objects worldW worldH phys)))
                         i = Some (zoneRect earlier))
    by (now rewrite nth_error_map, H1).
  assert (N2 : nth_error (map zoneRect
                            (group (runFactory imp objects worldW worldH phys)))
                         j = Some (zoneRect later))
    by (now rewrite nth_error_map, H2).
  exact (FOP_nth _ _ A i j _ _ Hij N1 N2).
Qed.

Lemma factory_zones_apart_witness :
  (0 < boxSizeOf 480)%Z
  /\ exists earlier later,
       nth_error (createPlatforms sampleImports sampleObjects 640 480
                                  samplePhys) 0 = Some earlier
       /\ nth_error (createPlatforms sampleImports sampleObjects 640 480
                                     samplePhys) 1 = Some later
       /\ rectsTooClose (zoneRect later) (zoneRect earlier)
                        (ComputedPhysics.playerSizePx samplePhys * 2) = false.
Proof.
  assert (Hb : (0 < boxSizeOf 480)%Z) by (vm_compute; reflexivity).
  split; [ exact Hb | ].
  do 2 eexists.
  assert (H0 : nth_error (createPlatforms sampleImports sampleObjects 640 480
                                          samplePhys) 0 = Some _)
    by (vm_compute; reflexivity).
  assert (H1 : nth_error (createPlatforms sampleImports sampleObjects 640 480
                                          samplePhys) 1 = Some _)
    by (vm_compute; reflexivity).
  split; [ exact H0 | ]. split; [ exact H1 | ].
  apply (factory_zones_apart sampleImports sampleObjects 640 480 samplePhys
                             0 1 _ _ Hb H0 H1).
  lia.
Defined.

Lemma nth_error_seq_inv (len : nat) :
  forall start k i, nth_error (seq start len) k = Some i -> i = (start + k)%nat.
Proof.
  induction len as [ | len IH ]; intros start k i H.
  - destruct k; discriminate.
  - destruct k as [ | k ]; simpl in H.
    + injection H as <-. lia.
    + apply IH in H. lia.
Qed.

(** X17. Every zone is one box high and a whole number [n >= 5] of boxes
    wide, and carries [n] tiles of the size of a box at opacity 0.7, at
    the height of the zone, side by side from the left edge of the zone:
    tile [k] begins [k] boxes right of that edge. *)
Theorem factory_zone_tiles (imp : Imports.t) (objects : list SceneObject.t)
        (worldW worldH : Q) (phys : ComputedPhysics.t) (z : Zone.t) :
  (0 < boxSizeOf worldH)%Z ->
  In z (createPlatforms imp objects worldW worldH phys) ->
  let boxSize := inject_Z (boxSizeOf worldH) in
  Zone.height z = boxSize
  /\ exists n : Z,
      (5 <= n)%Z
      /\ Zone.width z = inject_Z n * boxSize
      /\ length (Zone.tiles z) = Z.to_nat n
      /\ forall k t,
          nth_error (Zone.tiles z) k = Some t ->
          Tile.x t - boxSize / 2
          == Zone.x z - Zone.width z / 2 + inject_Z (Z.of_nat k) * boxSize
          /\ Tile.y t = Zone.y z
          /\ Tile.displayWidth t = boxSize
          /\ Tile.displayHeight t = boxSize
          /\ Tile.alpha t = 0.7.
Proof.
  intros _ Hin boxSize.
  pose proof (runFactory_zones imp worldW worldH phys
                (fun z =>
                   Zone.height z = boxSize
                   /\ exists n : Z,
                       (5 <= n)%Z
                       /\ Zone.width z = inject_Z n * boxSize
                       /\ length (Zone.tiles z) = Z.to_nat n
                       /\ forall k t,
                           nth_error (Zone.tiles z) k = Some t ->
                           Tile.x t - boxSize / 2
                           == Zone.x z - Zone.width z / 2
                              + inject_Z (Z.of_nat k) * boxSize
                           /\ Tile.y t = Zone.y z
                           /\ Tile.displayWidth t = boxSize
                           /\ Tile.displayHeight t = boxSize
                           /\ Tile.alpha t = 0.7)
                objects) as F.
  unfold createPlatforms in Hin. rewrite Forall_forall in F.
  apply F; [ | exact Hin ]. clear F Hin z.
  intros st obj z n _ _ _ Hh Hw Hn Ht _.
  split; [ exact Hh | ]. exists n.
  split; [ exact Hn | ]. split; [ exact Hw | ].
  split; [ now rewrite Ht, length_map, length_seq | ].
  intros k t Hk. rewrite Ht, nth_error_map in Hk.
  destruct (nth_error (seq 0 (Z.to_nat n)) k) as [i | ] eqn:Ei;
    [ | discriminate ].
  injection Hk as <-.
  apply nth_error_seq_inv in Ei. simpl in Ei. subst i. cbn [Tile.x Tile.y Tile.displayWidth Tile.displayHeight Tile.alpha].
  fold boxSize. repeat split; try reflexivity. field.
Qed.

Lemma factory_zone_tiles_witness :
  (0 < boxSizeOf 480)%Z
  /\ exists z,
       In z (createPlatforms sampleImports sampleObjects 640 480 samplePhys)
       /\ Zone.height z = 24
       /\ exists n : Z, (5 <= n)%Z /\ length (Zone.tiles z) = Z.to_nat n.
Proof.
  assert (Hb : (0 < boxSizeOf 480)%Z) by (vm_compute; reflexivity).
  split; [ exact Hb | ].
  eexists.
  assert (Hin : In _ (createPlatforms sampleImports sampleObjects 640 480
                                      samplePhys))
    by (vm_compute; left; reflexivity).
  destruct (factory_zone_tiles sampleImports sampleObjects 640 480 samplePhys
                               _ Hb Hin) as (Hh & n & Hn & _ & Hl & _).
  split; [ exact Hin | ]. split; [ exact Hh | ].
  exists n. split; [ exact Hn | exact Hl ].
Defined.

(** X18. Every zone can be reached from the floor or from a zone made
    before it.  With the reach line at [worldH - maxJumpHeight * 0.85],
    one of three holds: the top edge of the zone, its centre minus half a
    box, is not above the line; or the factory lowered the zone, and its
    centre is the line plus half a box; or an earlier zone has its bottom
    edge below the centre of this one and within the world. *)
Theorem factory_floor_reach (imp : Imports.t) (objects : list SceneObject.t)
        (worldW worldH : Q) (phys : ComputedPhysics.t) (k : nat) (z : Zone.t) :
  (0 < boxSizeOf worldH)%Z ->
  nth_error (createPlatforms imp objects worldW worldH phys) k = Some z ->
  (worldH - ComputedPhysics.maxJumpHeight phys * 0.85
   <= Zone.y z - inject_Z (boxSizeOf worldH) / 2
   \/ Zone.y z
      = worldH - ComputedPhysics.maxJumpHeight phys * 0.85
        + inject_Z (boxSizeOf worldH) / 2)
  \/ exists j zj,
      (j < k)%nat
      /\ nth_error (createPlatforms imp objects worldW worldH phys) j = Some zj
      /\ Zone.y z < Rect.y (zoneRect zj) + Rect.h (zoneRect zj)
      /\ Rect.y (zoneRect zj) + Rect.h (zoneRect zj) <= worldH.
Proof.
  intros _ H. exact (runFactory_reach imp worldW worldH phys objects k z H).
Qed.

Lemma factory_floor_reach_witness :
  (0 < boxSizeOf 480)%Z
  /\ exists z,
       nth_error (createPlatforms sampleImports sampleObjects 640 480
                                  samplePhys) 1 = Some z
       /\ ((480 - ComputedPhysics.maxJumpHeight samplePhys * 0.85
            <= Zone.y z - inject_Z (boxSizeOf 480) / 2
            \/ Zone.y z
               = 480 - ComputedPhysics.maxJumpHeight samplePhys * 0.85
                 + inject_Z (boxSizeOf 480) / 2)
           \/ exists j zj,
               (j < 1)%nat
               /\ nth_error (createPlatforms sampleImports sampleObjects
                                             640 480 samplePhys) j = Some zj
               /\ Zone.y z < Rect.y (zoneRect zj) + Rect.h (zoneRect zj)
               /\ Rect.y (zoneRect zj) + Rect.h (zoneRect zj) <= 480).
Proof.
  assert (Hb : (0 < boxSizeOf 480)%Z) by (vm_compute; reflexivity).
  split; [ exact Hb | ].
  eexists.
  assert (H1 : nth_error (createPlatforms sampleImports sampleObjects 640 480
                                          samplePhys) 1 = Some _)
    by (vm_compute; reflexivity).
  split; [ exact H1 | ].
  exact (factory_floor_reach sampleImports sampleObjects 640 480 samplePhys
                             1 _ Hb H1).
Defined.

Lemma createPlatforms_count (imp : Imports.t) (objects : list SceneObject.t)
      (worldW worldH : Q) (phys : ComputedPhysics.t) :
  (length (createPlatforms imp objects worldW worldH phys)
   <= length (filter (bigEnough imp worldW worldH phys)
                     (filter isPlatformObject objects)))%nat.
Proof.
  unfold createPlatforms, runFactory. cbv zeta.
  pose proof (fold_count imp worldW worldH phys
                (filter isPlatformObject objects) (mkFactory [] [])) as H.
  cbn [group length] in H. exact H.
Qed.

(** X19. The factory makes at most one zone for each platform object
    whose world rectangle passes the size filter, and ignores every other
    object.  It makes no zone at all exactly when no platform object
    passes the filter: the first that passes is always placed. *)
Theorem factory_zone_count (imp : Imports.t) (objects : list SceneObject.t)
        (worldW worldH : Q) (phys : ComputedPhysics.t) :
  (0 < boxSizeOf worldH)%Z ->
  (length (createPlatforms imp objects worldW worldH phys)
   <= length (filter (bigEnough imp worldW worldH phys)
                     (filter isPlatformObject objects)))%nat
  /\ (createPlatforms imp objects worldW worldH phys = []
      <-> filter (bigEnough imp worldW worldH phys)
                 (filter isPlatformObject objects) = []).
Proof.
  intros _. split; [ apply createPlatforms_count | ].
  unfold createPlatforms, runFactory. cbv zeta.
  pose proof (fold_empty imp worldW worldH phys
                (filter isPlatformObject objects) (mkFactory [] [])
                eq_refl) as H.
  cbn [group] in H. unfold isPlatformObject in *. tauto.
Qed.

Lemma factory_zone_count_witness :
  (0 < boxSizeOf 480)%Z
  /\ (length (createPlatforms sampleImports sampleObjects 640 480 samplePhys)
      <= length (filter (bigEnough sampleImports 640 480 samplePhys)
                        (filter isPlatformObject sampleObjects)))%nat
  /\ (createPlatforms sampleImports sampleObjects 640 480 samplePhys = []
      <-> filter (bigEnough sampleImports 640 480 samplePhys)
                 (filter isPlatformObject sampleObjects) = []).
Proof.
  assert (Hb : (0 < boxSizeOf 480)%Z) by (vm_compute; reflexivity).
  split; [ exact Hb | ].
  exact (factory_zone_count sampleImports sampleObjects 640 480 samplePhys Hb).
Defined.

(** ** The builder and the factory together *)

Lemma built_surface_solid image plats hp ex (o : SceneObject.t) :
  In o (SceneV1.objects
          (sceneOf image plats hp
             (snd (enemyLoop (enemyPlatforms plats) []
                             (builtObjects plats ex))))) ->
  SceneObject.type o = platform ->
  SceneObject.surface_type o = Some solid.
Proof.
  intros Hin Hty.
  destruct (platform_object_source _ _ _ _ _ Hin Hty) as (i & p & _ & Ha).
  destruct Ha as [-> | ->]; simpl;
    now destruct (Category_eqb (PlatformCandidate.category p) furniture).
Qed.

(** X20. The factory applied to the objects of a built scene makes at
    most 12 zones, all of surface type solid, and every tile has the
    texture of the icon platform_solid. *)
Theorem built_scene_zones (imp : Imports.t) (input : DetectionResponse.t)
        (worldW worldH : Q) (phys : ComputedPhysics.t) :
  (0 < boxSizeOf worldH)%Z ->
  exists scene,
    buildLevel input = Some scene
    /\ (length (createPlatforms imp (SceneV1.objects scene) worldW worldH phys)
        <= 12)%nat
    /\ forall z,
         In z (createPlatforms imp (SceneV1.objects scene) worldW worldH phys) ->
         Zone.surfaceType z = solid
         /\ forall t, In t (Zone.tiles z) ->
                      Tile.texture t
                      = Imports.getIconTextureKey imp "platform_solid"
                                                  ICON_RENDER_SIZE.
Proof.
  intros _.
  destruct (buildLevel_shape input) as (hp & objs & _ & -> & E).
  set (dets := DetectionResponse.detections input) in *.
  set (plats := finalPlatforms dets) in *.
  eexists. split; [ exact E | ]. split.
  - eapply Nat.le_trans; [ apply createPlatforms_count | ].
    eapply Nat.le_trans; [ apply filter_length_le | ].
    fold (emittedPlatforms
            (sceneOf (DetectionResponse.image input) plats hp
               (snd (enemyLoop (enemyPlatforms plats) []
                       (builtObjects plats (extractFrom 0 dets)))))).
    rewrite <- (Forall2_length (emitted_anchored _ _ _ _)), pushAll_length.
    apply finalPlatforms_length.
  - intros z Hz. unfold createPlatforms in Hz.
    pose proof (runFactory_zones imp worldW worldH phys
                  (fun z =>
                     Zone.surfaceType z = solid
                     /\ forall t, In t (Zone.tiles z) ->
                                  Tile.texture t
                                  = Imports.getIconTextureKey
                                      imp "platform_solid" ICON_RENDER_SIZE)
                  (SceneV1.objects
                     (sceneOf (DetectionResponse.image input) plats hp
                        (snd (enemyLoop (enemyPlatforms plats) []
                                (builtObjects plats (extractFrom 0 dets)))))))
      as F.
    rewrite Forall_forall in F. apply F; [ | exact Hz ].
    intros st obj z' n Hin Hty _ _ _ _ Ht Hs.
    rewrite (built_surface_solid _ _ _ _ _ Hin Hty) in Hs.
    split; [ exact Hs | ].
    intros t Hin'. rewrite Ht, Hs in Hin'. apply in_map_iff in Hin'.
    destruct Hin' as (i & <- & _). reflexivity.
Qed.

Lemma built_scene_zones_witness :
  (0 < boxSizeOf 480)%Z
  /\ exists scene,
       buildLevel in_shelf_top = Some scene
       /\ (length (createPlatforms sampleImports (SceneV1.objects scene)
                                   640 480 samplePhys) <= 12)%nat.
Proof.
  assert (Hb : (0 < boxSizeOf 480)%Z) by (vm_compute; reflexivity).
  split; [ exact Hb | ].
  destruct (built_scene_zones sampleImports in_shelf_top 640 480 samplePhys Hb)
    as (scene & E & L & _).
  exists scene. split; [ exact E | exact L ].
Defined.

(** ** Further facts on the scene *)

Lemma obstacleDetections_nth (dets : list Detection.t) :
  forall k0 k d,
    nth_error dets k = Some d ->
    isNarrow d = true ->
    nth_error (obstacleDetections (extractFrom k0 dets))
              (length (filter isNarrow (firstn k dets)))
    = Some ((k0 + k)%nat, d).
Proof.
  induction dets as [ | d0 rest IH ]; intros k0 k d Hk Hn.
  - destruct k; discriminate.
  - destruct k as [ | k ].
    + simpl in Hk. injection Hk as ->.
      cbn [firstn filter length extractFrom].
      unfold isNarrow, isFood in Hn. rewrite <- narrow_after_clamp in Hn.
      apply andb_prop in Hn. destruct Hn as [Hf Hw].
      apply negb_true_iff in Hf. rewrite Hf, Hw.
      cbn [obstacleDetections nth_error]. now rewrite Nat.add_0_r.
    + simpl in Hk. cbn [firstn filter extractFrom].
      specialize (IH (S k0) k d Hk Hn).
      replace (k0 + S k)%nat with (S k0 + k)%nat by lia.
      unfold isNarrow at 1. unfold isFood.
      rewrite <- (narrow_after_clamp d0).
      destruct (Category_eqb (Detection.category d0) food);
        [ cbn [negb andb obstacleDetections]; exact IH | ].
      destruct (Bounds.w (platBoundsOf d0) <? MIN_PLATFORM_WIDTH);
        cbn [negb andb obstacleDetections length nth_error]; exact IH.
Qed.

(** X21. Each of the first four narrow detections (not food, raw width
    below 0.08) yields an object of type obstacle that carries its label,
    its confidence, its own bounds record (not clamped) and its category,
    with enemy_spawn_anchor true exactly for plant and electric. *)
Theorem obstacle_routing (input : DetectionResponse.t) :
  exists scene,
    buildLevel input = Some scene
    /\ forall k d,
         nth_error (DetectionResponse.detections input) k = Some d ->
         isNarrow d = true ->
         (length (filter isNarrow
                    (firstn k (DetectionResponse.detections input))) < 4)%nat ->
         exists o,
           In o (SceneV1.objects scene)
           /\ SceneObject.type o = obstacle
           /\ SceneObject.label o = Detection.label d
           /\ SceneObject.confidence o = Detection.confidence d
           /\ SceneObject.bounds_normalized o
              = At (RefInput k) (Detection.bounds_normalized d)
           /\ SceneObject.category o = Some (Detection.category d)
           /\ SceneObject.enemy_spawn_anchor o
              = Some (Category_eqb (Detection.category d) plant
                      || Category_eqb (Detection.category d) electric)
           /\ SceneObject.surface_type o = None.
Proof.
  destruct (buildLevel_shape input) as (hp & objs & _ & -> & E).
  set (dets := DetectionResponse.detections input) in *.
  set (plats := finalPlatforms dets) in *.
  eexists. split; [ exact E | ].
  intros k d Hk Hn Hlt.
  pose proof (obstacleDetections_nth dets 0 k d Hk Hn) as Hnth.
  simpl in Hnth.
  set (n := length (filter isNarrow (firstn k dets))) in *.
  assert (Hn4 : nth_error (firstn 4 (obstacleDetections (extractFrom 0 dets))) n
                = Some (k, d)).
  { rewrite nth_error_firstn. apply Nat.ltb_lt in Hlt. now rewrite Hlt. }
  pose proof (pushAll_nth obstacleObject _ (length plats) n (k, d) Hn4) as Ho.
  assert (Hb : nth_error (builtObjects plats (extractFrom 0 dets))
                         (length plats + n)
               = Some (obstacleObject (length plats + n) (k, d))).
  { unfold builtObjects. rewrite nth_error_app2; rewrite pushAll_length;
      [ | lia ].
    replace (length plats + n - length plats)%nat with n by lia.
    rewrite nth_error_app1; [ exact Ho | ].
    rewrite pushAll_length. apply nth_error_Some. rewrite Hn4. discriminate. }
  exists (obstacleObject (length plats + n) (k, d)).
  split.
  - cbn [SceneV1.objects sceneOf].
    apply (nth_error_In _ (length plats + n)).
    apply enemyLoop_miss; [ exact Hb | ].
    intros c _. reflexivity.
  - repeat split; reflexivity.
Qed.

(** X22. Whatever the input, the player stands on the ground: the player
    spawn is (0.08, 0.92 - ENTITY_OFFSET_Y), with the y of the ground's
    bounds literal; in binary64 this y is 0.8600000000000001.  The exit
    is at x in [0.7, 0.95]. *)
Theorem player_spawn_fixed (input : DetectionResponse.t) :
  exists scene,
    buildLevel input = Some scene
    /\ Spawns.player (SceneV1.spawns scene)
       = SpawnPoint.mk 0.08 (0.92 - ENTITY_OFFSET_Y)
    /\ Double.playerSpawnOn Double.groundCandidate
       = Double.SpawnPoint.mk 0.08%float 0.8600000000000001%float
    /\ 0.7 <= SpawnPoint.x (Spawns.exit (SceneV1.spawns scene)) <= 0.95.
Proof.
  destruct (buildLevel_shape input) as (hp & objs & _ & _ & E).
  eexists. split; [ exact E | ].
  cbn [SceneV1.spawns sceneOf Spawns.player Spawns.exit playerSpawnOn
       exitSpawnOn SpawnPoint.x SpawnPoint.y].
  split; [ reflexivity | ]. split; [ vm_compute; reflexivity | ].
  apply clamp_bounds. lra.
Qed.
